(** * Award odds updaters: odds conversion, source adapters, nominee matching

    A shallow embedding of the scripts that poll Polymarket and Kalshi for
    award odds and merge them into the nominee lists of a Firebase
    database, one module per script:

    - [BySlug]: the first script of [scripts/update-polymarket.js]
      ([fetchPolymarketData], patch-based [updateCategory]); the first
      script of [unnamed/part_000] is the same but for its category list;
    - [SlugReplace]: the second script of [scripts/update-polymarket.js]
      ([fetchCategory], [updateFirebase]);
    - [SlugLegacy]: the second script of [unnamed/part_000];
    - [BulkSearch]: [unnamed/part_001] ([fetchAllOscarsMarkets],
      [extractNominees], replace-based [updateCategory]);
    - [Kalshi]: [scripts/update-kalshi-bafta.js].

    [Module JS] models what the scripts use of the JavaScript runtime:
    numbers, strings, values read from JSON, property access, exceptions
    and the two regular expressions.  Numbers are exact rationals extended
    with the two infinities and NaN; binary64 rounding, the sign of zero
    and the exponent notation of integers from 10^21 on are not modelled
    ([Module Binary64] evaluates the converter in binary64 on sample
    values).  Strings are byte strings and case mapping is the ASCII one.
    [JSON.parse] is a parameter ([Class Platform]); [Module Json] gives a
    parser to run the examples with.

    The network is a function from URLs to responses and the database a
    finite map from paths to nominee lists; a script returns the writes it
    issues.  A stored nominee is a record with a string for a name, as the
    seeding of the database leaves it.

    The definitions come first, then the vocabulary of the specification
    and of the further properties, then the properties: those the
    specification claims (C1 to C10), and after them what the scripts
    guarantee besides (X1 on). *)

From Stdlib Require Import ZArith QArith Qround Ascii String List Bool Lia DecimalString.
From Stdlib Require Import Floats Uint63.
From Stdlib Require DecimalZ DecimalPos.
From Stdlib Require Import Sorted.
From stdpp Require Import gmap strings list.
From Equations Require Import Equations.

Local Open Scope string_scope.

(* ================================================================== *)
(** * The JavaScript runtime model *)
(* ================================================================== *)

Module JS.

(** ** Numbers *)

Inductive number := Fin (q : Q) | PosInf | NegInf | NaN.

Definition of_Z (z : Z) : number := Fin (inject_Z z).

Definition neg (x : number) : number :=
  match x with
  | Fin q => Fin (- q)
  | PosInf => NegInf
  | NegInf => PosInf
  | NaN => NaN
  end.

(** The infinity of a given sign; [Eq] stands for an undefined sign. *)
Definition inf (c : comparison) : number :=
  match c with Gt => PosInf | Lt => NegInf | Eq => NaN end.

Definition sgn (x : number) : comparison :=
  match x with
  | Fin q => (q ?= 0)%Q
  | PosInf => Gt
  | NegInf => Lt
  | NaN => Eq
  end.

Definition sgn_mul (a b : comparison) : comparison :=
  match a, b with
  | Eq, _ | _, Eq => Eq
  | Gt, Gt | Lt, Lt => Gt
  | _, _ => Lt
  end.

Definition mul (x y : number) : number :=
  match x, y with
  | NaN, _ | _, NaN => NaN
  | Fin a, Fin b => Fin (a * b)
  | _, _ => inf (sgn_mul (sgn x) (sgn y))
  end.

Definition add (x y : number) : number :=
  match x, y with
  | NaN, _ | _, NaN => NaN
  | Fin a, Fin b => Fin (a + b)
  | PosInf, NegInf | NegInf, PosInf => NaN
  | PosInf, _ | _, PosInf => PosInf
  | NegInf, _ | _, NegInf => NegInf
  end.

Definition sub (x y : number) : number := add x (neg y).

(** [x / y]: a finite non-zero numerator over zero is an infinity, [0 / 0]
    is NaN (the zero denominators met below are positive zeros). *)
Definition div (x y : number) : number :=
  match x, y with
  | NaN, _ | _, NaN => NaN
  | Fin a, Fin b => if Qeq_bool b 0 then inf (a ?= 0)%Q else Fin (a / b)
  | Fin _, _ => Fin 0
  | _, Fin b => inf (sgn_mul (sgn x) (if Qeq_bool b 0 then Gt else (b ?= 0)%Q))
  | _, _ => NaN
  end.

(** [x >= y]; every comparison with NaN is false. *)
Definition ge (x y : number) : bool :=
  match x, y with
  | NaN, _ | _, NaN => false
  | Fin a, Fin b => Qle_bool b a
  | PosInf, _ | _, NegInf => true
  | _, _ => false
  end.

(** [Math.round]: the nearest integer, ties towards +Infinity. *)
Definition Math_round (x : number) : number :=
  match x with
  | Fin q => of_Z (Qfloor (q + (1 # 2)))
  | _ => x
  end.

Definition string_of_Z (z : Z) : string := NilZero.string_of_int (Z.to_int z).

(** Number-to-string conversion of a template literal.  The scripts only
    print results of [Math_round], so finite values are integral here. *)
Definition ToString (x : number) : string :=
  match x with
  | Fin q => string_of_Z (Qfloor q)
  | PosInf => "Infinity"
  | NegInf => "-Infinity"
  | NaN => "NaN"
  end.

(** ** Strings *)

Definition in_range (lo hi : nat) (c : ascii) : bool :=
  (lo <=? nat_of_ascii c)%nat && (nat_of_ascii c <=? hi)%nat.

Definition lower_ascii (c : ascii) : ascii :=
  if in_range 65 90 c then ascii_of_nat (nat_of_ascii c + 32) else c.

Definition upper_ascii (c : ascii) : ascii :=
  if in_range 97 122 c then ascii_of_nat (nat_of_ascii c - 32) else c.

Fixpoint toLowerCase (s : string) : string :=
  match s with
  | EmptyString => EmptyString
  | String c s' => String (lower_ascii c) (toLowerCase s')
  end.

(** [s.includes(t)] *)
Fixpoint includes (s t : string) : bool :=
  if String.prefix t s then true
  else match s with
       | EmptyString => false
       | String _ s' => includes s' t
       end.

(** White space: TAB, LF, VT, FF, CR and SPACE. *)
Definition is_space (c : ascii) : bool :=
  in_range 9 13 c || (nat_of_ascii c =? 32)%nat.

Fixpoint trimStart (s : string) : string :=
  match s with
  | String c s' => if is_space c then trimStart s' else s
  | EmptyString => EmptyString
  end.

Fixpoint trimEnd (s : string) : string :=
  match s with
  | EmptyString => EmptyString
  | String c s' =>
      match trimEnd s' with
      | EmptyString => if is_space c then EmptyString else String c EmptyString
      | t => String c t
      end
  end.

Definition trim (s : string) : string := trimEnd (trimStart s).

(** ** Decimal literals, as [parseFloat] reads them *)

Definition is_digit (c : ascii) : bool := in_range 48 57 c.

Definition digit_val (c : ascii) : Z := Z.of_nat (nat_of_ascii c) - 48.

(** Reads the digits at the head of [s] onto the accumulator [acc];
    returns the value, the number of digits read and the rest. *)
Fixpoint take_digits (s : string) (acc : Z) (n : nat) : Z * nat * string :=
  match s with
  | String c s' =>
      if is_digit c then take_digits s' (10 * acc + digit_val c) (S n)
      else (acc, n, s)
  | EmptyString => (acc, n, s)
  end.

(** The value of an exponent part at the head of [s] and what follows it;
    0 and [s] itself when there is no well-formed one. *)
Definition exponent_part (s : string) : Z * string :=
  match s with
  | String c s' =>
      if (nat_of_ascii c =? 101)%nat || (nat_of_ascii c =? 69)%nat then
        let '(minus, s'') :=
          match s' with
          | String "-" t => (true, t)
          | String "+" t => (false, t)
          | _ => (false, s')
          end in
        let '(e, n, rest) := take_digits s'' 0 0 in
        if (n =? 0)%nat then (0%Z, s) else (if minus then (- e)%Z else e, rest)
      else (0%Z, s)
  | EmptyString => (0%Z, s)
  end.

(** [m * 10^e] *)
Definition scale10 (m e : Z) : Q :=
  if (0 <=? e)%Z then inject_Z (m * 10 ^ e) else (m # Z.to_pos (10 ^ (- e))).

(** The longest unsigned decimal literal at the head of [s], with the rest
    of [s]; NaN when there is none. *)
Definition unsigned_literal (s : string) : number * string :=
  if String.prefix "Infinity" s then (PosInf, String.substring 8 (String.length s - 8) s)
  else
    let '(ip, ni, r1) := take_digits s 0 0 in
    let '(fp, nf, r2) :=
      match r1 with
      | String "." t => take_digits t ip 0
      | _ => (ip, 0%nat, r1)
      end in
    if (ni + nf =? 0)%nat then (NaN, s)
    else
      let '(e, r3) := exponent_part r2 in
      (Fin (scale10 fp (e - Z.of_nat nf)), r3).

Definition signed_literal (s : string) : number * string :=
  match s with
  | String "-" t => let '(n, rest) := unsigned_literal t in (neg n, rest)
  | String "+" t => unsigned_literal t
  | _ => unsigned_literal s
  end.

(** [parseFloat] on a string: the longest prefix that is a decimal
    literal, after leading white space; NaN when there is none. *)
Definition parseFloat_string (s : string) : number :=
  fst (signed_literal (trimStart s)).

(** Digits of a hexadecimal, octal or binary integer literal. *)
Definition radix_digit (base : Z) (c : ascii) : option Z :=
  let d :=
    if is_digit c then digit_val c
    else if in_range 97 102 c then (Z.of_nat (nat_of_ascii c) - 87)%Z
    else if in_range 65 70 c then (Z.of_nat (nat_of_ascii c) - 55)%Z
    else 99%Z in
  if (d <? base)%Z then Some d else None.

Fixpoint radix_digits (base : Z) (s : string) (acc : Z) : option Z :=
  match s with
  | EmptyString => Some acc
  | String c s' =>
      match radix_digit base c with
      | Some d => radix_digits base s' (base * acc + d)%Z
      | None => None
      end
  end.

Definition radix_literal (base : Z) (s : string) : number :=
  match s with
  | EmptyString => NaN
  | _ => match radix_digits base s 0 with
         | Some z => of_Z z
         | None => NaN
         end
  end.

(** [Number(s)]: the whole string, white space trimmed, must be a numeric
    literal; the empty string is 0. *)
Definition Number_of_string (s : string) : number :=
  match trim s with
  | EmptyString => of_Z 0
  | String "0" (String "x" t) | String "0" (String "X" t) => radix_literal 16 t
  | String "0" (String "o" t) | String "0" (String "O" t) => radix_literal 8 t
  | String "0" (String "b" t) | String "0" (String "B" t) => radix_literal 2 t
  | t => let '(n, rest) := signed_literal t in
         match rest with EmptyString => n | _ => NaN end
  end.

(** ** Values *)

#[warning="-register-all"]
Inductive value :=
| VUndefined
| VNull
| VBool (b : bool)
| VNum (n : number)
| VStr (s : string)
| VArr (items : list value)
| VObj (props : list (string * value)).

(** [parseFloat(v)] converts its argument to a string first.  A number
    reads back as itself; an array prints as its items joined by commas,
    so only its first item can contribute. *)
Fixpoint parseFloat (v : value) : number :=
  match v with
  | VNum n => n
  | VStr s => parseFloat_string s
  | VArr (x :: _) =>
      match x with
      | VUndefined | VNull => NaN
      | _ => parseFloat x
      end
  | _ => NaN
  end.

(** Numeric conversion of an operand.  An array converts through its
    printed form: empty as the empty string, one item as that item. *)
Fixpoint ToNumber (v : value) : number :=
  match v with
  | VUndefined => NaN
  | VNull => of_Z 0
  | VBool b => of_Z (if b then 1 else 0)
  | VNum n => n
  | VStr s => Number_of_string s
  | VArr [] => of_Z 0
  | VArr [x] =>
      match x with
      | VUndefined | VNull => of_Z 0
      | VBool _ => NaN
      | _ => ToNumber x
      end
  | VArr _ => NaN
  | VObj _ => NaN
  end.

Definition truthy (v : value) : bool :=
  match v with
  | VUndefined | VNull => false
  | VBool b => b
  | VNum (Fin q) => negb (Qeq_bool q 0)
  | VNum NaN => false
  | VNum _ => true
  | VStr s => negb (String.eqb s "")
  | VArr _ | VObj _ => true
  end.

(** ** Exceptions *)

Inductive exn := TypeError | SyntaxError | ReferenceError | FetchError | HttpError.

Inductive result (A : Type) := Ok (a : A) | Throw (e : exn).
Arguments Ok {A} a.
Arguments Throw {A} e.

Definition bind {A B} (m : result A) (k : A -> result B) : result B :=
  match m with
  | Ok a => k a
  | Throw e => Throw e
  end.

Notation "'let*' x ':=' m 'in' k" := (bind m (fun x => k))
  (at level 10, x name, m at level 100, k at level 200).

(** [try { m } catch (error) { h }] *)
Definition try_catch {A} (m : result A) (h : exn -> A) : A :=
  match m with
  | Ok a => a
  | Throw e => h e
  end.

Fixpoint mapM {A B} (f : A -> result B) (l : list A) : result (list B) :=
  match l with
  | [] => Ok []
  | x :: l' =>
      let* y := f x in let* ys := mapM f l' in Ok (y :: ys)
  end.

Fixpoint filterM {A} (f : A -> result bool) (l : list A) : result (list A) :=
  match l with
  | [] => Ok []
  | x :: l' =>
      let* b := f x in let* ys := filterM f l' in Ok (if (b : bool) then x :: ys else ys)
  end.

Fixpoint assoc (k : string) (props : list (string * value)) : option value :=
  match props with
  | [] => None
  | (k', v) :: props' => if String.eqb k k' then Some v else assoc k props'
  end.

(** [v.k] for the data properties the scripts read ([k] is never
    ["length"]): reading a property of [undefined] or [null] throws, a
    missing property is [undefined]. *)
Definition get (v : value) (k : string) : result value :=
  match v with
  | VUndefined | VNull => Throw TypeError
  | VObj props => Ok (default VUndefined (assoc k props))
  | _ => Ok VUndefined
  end.

(** [v[0]] *)
Definition first (v : value) : result value :=
  match v with
  | VUndefined | VNull => Throw TypeError
  | VArr items => Ok (default VUndefined (head items))
  | VStr (String c _) => Ok (VStr (String c EmptyString))
  | VObj props => Ok (default VUndefined (assoc "0" props))
  | _ => Ok VUndefined
  end.

(** [v.length] *)
Definition length_of (v : value) : result value :=
  match v with
  | VUndefined | VNull => Throw TypeError
  | VArr items => Ok (VNum (of_Z (Z.of_nat (length items))))
  | VStr s => Ok (VNum (of_Z (Z.of_nat (String.length s))))
  | VObj props => Ok (default VUndefined (assoc "length" props))
  | _ => Ok VUndefined
  end.

(** [v === 0] *)
Definition is_zero (v : value) : bool :=
  match v with
  | VNum (Fin q) => Qeq_bool q 0
  | _ => false
  end.

(** [v > 0] *)
Definition positive (v : value) : bool :=
  match ToNumber v with
  | Fin q => negb (Qle_bool q 0)
  | PosInf => true
  | _ => false
  end.

(** [v.includes(needle)] on a truthy receiver: a substring test on a
    string, a membership test on an array, no such method elsewhere. *)
Definition includes_method (v : value) (needle : string) : result bool :=
  match v with
  | VStr s => Ok (includes s needle)
  | VArr items =>
      Ok (existsb (fun x => match x with VStr s => String.eqb s needle | _ => false end) items)
  | _ => Throw TypeError
  end.

(** The receiver of a String method call ([match], [trim], ...): a value
    of another type has no such method, and calling it throws. *)
Definition String_method (v : value) : result string :=
  match v with
  | VStr s => Ok s
  | _ => Throw TypeError
  end.

Fixpoint chars (s : string) : list value :=
  match s with
  | EmptyString => []
  | String c s' => VStr (String c EmptyString) :: chars s'
  end.

(** [for (const x of v)]: arrays and strings are iterable. *)
Definition for_of (v : value) : result (list value) :=
  match v with
  | VArr items => Ok items
  | VStr s => Ok (chars s)
  | _ => Throw TypeError
  end.

(** [l.forEach((x, index) => ...)] threading the state the callback
    mutates. *)
Fixpoint forEach {A St : Type} (f : St -> A -> nat -> St) (l : list A) (index : nat) (s : St) : St :=
  match l with
  | [] => s
  | x :: l' => forEach f l' (S index) (f s x index)
  end.

(** ** Regular expressions

    The fragment the deny-list patterns use, matched by derivatives.  The
    patterns are anchored at both ends, so [s.match(r)] is non-null exactly
    when [r] matches all of [s]. *)

Inductive regex :=
| Fail
| Eps
| Chr (c : ascii)
| Range (lo hi : ascii)
| Seq (r1 r2 : regex)
| Alt (r1 r2 : regex).

Fixpoint lit (s : string) : regex :=
  match s with
  | EmptyString => Eps
  | String c s' => Seq (Chr c) (lit s')
  end.

Fixpoint nullable (r : regex) : bool :=
  match r with
  | Eps => true
  | Seq r1 r2 => nullable r1 && nullable r2
  | Alt r1 r2 => nullable r1 || nullable r2
  | _ => false
  end.

Definition between (lo hi a : ascii) : bool :=
  in_range (nat_of_ascii lo) (nat_of_ascii hi) a.

(** One-character tests.  With the [i] flag two characters agree when their
    upper-case forms do, and a class matches when one of its members agrees
    with the input character. *)
Definition chr_matches (i : bool) (c a : ascii) : bool :=
  if i then Ascii.eqb (upper_ascii c) (upper_ascii a) else Ascii.eqb c a.

Definition range_matches (i : bool) (lo hi a : ascii) : bool :=
  if i then between lo hi a || between lo hi (upper_ascii a) || between lo hi (lower_ascii a)
  else between lo hi a.

Fixpoint deriv (i : bool) (a : ascii) (r : regex) : regex :=
  match r with
  | Fail | Eps => Fail
  | Chr c => if chr_matches i c a then Eps else Fail
  | Range lo hi => if range_matches i lo hi a then Eps else Fail
  | Seq r1 r2 =>
      if nullable r1 then Alt (Seq (deriv i a r1) r2) (deriv i a r2)
      else Seq (deriv i a r1) r2
  | Alt r1 r2 => Alt (deriv i a r1) (deriv i a r2)
  end.

Fixpoint matches (i : bool) (r : regex) (s : string) : bool :=
  match s with
  | EmptyString => nullable r
  | String a s' => matches i (deriv i a r) s'
  end.

(** ** The platform

    [JSON.parse] is a built-in; [None] stands for its SyntaxError.  It is
    applied to values of any type (it converts its argument to a string
    first), and it rejects the empty string. *)
Class Platform := {
  JSON_parse : value -> option value;
  JSON_parse_empty : JSON_parse (VStr "") = None
}.

Definition JSON_parse_or_throw `{Platform} (v : value) : result value :=
  match JSON_parse v with
  | Some r => Ok r
  | None => Throw SyntaxError
  end.

End JS.

Import JS.

(* ================================================================== *)
(** * Data model *)
(* ================================================================== *)

(** A normalized quote, as the adapters build it.  The by-slug and Kalshi
    adapters do not record the probability. *)
Module Quote.
Record t := mk { name : string; probability : option number; odds : string }.
End Quote.

(** A stored nominee: [odds] maps a source to its odds string, [others]
    holds every field the scripts never name. *)
Module Nominee.
Record t := mk {
  name : string;
  odds : gmap string string;
  lastUpdated : option string;
  others : gmap string value
}.
End Nominee.

(** The outcome of [fetch(url)] once the body has been read: the promise
    is rejected, or a response arrives with its [ok] flag and body. *)
Inductive fetch_result := Rejected | Response (ok : bool) (body : string).

Definition network := string -> fetch_result.

(** The database: the nominee list stored at each path ([null] when the
    path holds nothing). *)
Abbreviation database := (gmap string (list Nominee.t)).

(** The location a multi-path update writes below a nominee list:
    [index/odds/source] or [index/lastUpdated]. *)
Inductive field := OddsOf (source : string) | LastUpdated.

Inductive write :=
| RefUpdate (path : string) (updates : list (nat * field * string))
| RefSet (path : string) (nominees : list Nominee.t).

Definition write_field (f : field) (v : string) (n : Nominee.t) : Nominee.t :=
  match f with
  | OddsOf source =>
      Nominee.mk (Nominee.name n) (<[source := v]> (Nominee.odds n))
                 (Nominee.lastUpdated n) (Nominee.others n)
  | LastUpdated =>
      Nominee.mk (Nominee.name n) (Nominee.odds n) (Some v) (Nominee.others n)
  end.

(** [ref.update(updates)] on a stored list: each key sets one location and
    leaves its siblings alone. *)
Definition apply_updates (updates : list (nat * field * string)) (l : list Nominee.t)
  : list Nominee.t :=
  fold_left (fun l '(index, f, v) => alter (write_field f v) index l) updates l.

Definition apply_write (db : database) (w : write) : database :=
  match w with
  | RefUpdate path updates => alter (apply_updates updates) path db
  | RefSet path nominees => <[path := nominees]> db
  end.

Definition apply_writes (db : database) (ws : list write) : database :=
  fold_left apply_write ws db.

(** [{...nominee, odds: {...nominee.odds, [source]: o}, lastUpdated: today}] *)
Definition with_odds (source o today : string) (nominee : Nominee.t) : Nominee.t :=
  Nominee.mk (Nominee.name nominee) (<[source := o]> (Nominee.odds nominee))
             (Some today) (Nominee.others nominee).

(* ================================================================== *)
(** * The odds converters *)
(* ================================================================== *)

Module Polymarket.

(** Convert probability to American odds (the same function in every
    Polymarket script). *)
Definition probToAmericanOdds (probability : value) : string :=
  let prob := parseFloat probability in
  if ge prob (Fin (1 # 2)) then
    let odds := Math_round (div (neg (mul prob (of_Z 100))) (sub (of_Z 1) prob)) in
    ToString odds
  else
    let odds := Math_round (div (mul (sub (of_Z 1) prob) (of_Z 100)) prob) in
    "+" +:+ ToString odds.

Definition AZ : regex := Range "A" "Z".

(** [/^(Other|Movie [A-Z]|Actor [A-Z]|Actress [A-Z]|Director [A-Z]|Film [A-Z])$/i] *)
Definition placeholder : regex :=
  Alt (lit "Other")
 (Alt (Seq (lit "Movie ") AZ)
 (Alt (Seq (lit "Actor ") AZ)
 (Alt (Seq (lit "Actress ") AZ)
 (Alt (Seq (lit "Director ") AZ)
      (Seq (lit "Film ") AZ))))).

Definition events_url (slug : string) : string :=
  "https://gamma-api.polymarket.com/events?slug=" +:+ slug.

End Polymarket.

(** The converter with every operation carried out in binary64, to check
    the rational model on sample values. *)
Module Binary64.

(** [m * 2^e] *)
Definition scale2 (m e : Z) : Q :=
  if (0 <=? e)%Z then inject_Z (m * 2 ^ e) else (m # Z.to_pos (2 ^ (- e))).

(** The number a binary64 value stands for. *)
Definition to_number (x : float) : number :=
  match Prim2SF x with
  | S754_zero _ => Fin 0
  | S754_infinity false => PosInf
  | S754_infinity true => NegInf
  | S754_nan => NaN
  | S754_finite s m e =>
      Fin (if s then - scale2 (Z.pos m) e else scale2 (Z.pos m) e)
  end.

Definition probToAmericanOdds (prob : float) : string :=
  if PrimFloat.leb 0.5%float prob then
    let odds :=
      Math_round (to_number (PrimFloat.div (PrimFloat.opp (PrimFloat.mul prob 100%float))
                                            (PrimFloat.sub 1%float prob))) in
    ToString odds
  else
    let odds :=
      Math_round (to_number (PrimFloat.div (PrimFloat.mul (PrimFloat.sub 1%float prob) 100%float)
                                            prob)) in
    "+" +:+ ToString odds.


(** The binary64 value nearest to the quotient [n / d] of two small
    integers: what the decimal literal of that quotient reads as. *)
Definition ratio (n d : Z) : float :=
  PrimFloat.div (PrimFloat.of_uint63 (Uint63.of_Z n)) (PrimFloat.of_uint63 (Uint63.of_Z d)).

(** The Kalshi converter, likewise in binary64. *)
Definition kalshiPriceToAmericanOdds (priceInCents : float) : string :=
  let prob := PrimFloat.div priceInCents 100%float in
  if PrimFloat.leb 0.5%float prob then
    let odds :=
      Math_round (to_number (PrimFloat.div (PrimFloat.opp (PrimFloat.mul prob 100%float))
                                            (PrimFloat.sub 1%float prob))) in
    ToString odds
  else
    let odds :=
      Math_round (to_number (PrimFloat.div (PrimFloat.mul (PrimFloat.sub 1%float prob) 100%float)
                                            prob)) in
    "+" +:+ ToString odds.

End Binary64.

(* ================================================================== *)
(** * The by-slug script ([scripts/update-polymarket.js], first script) *)
(* ================================================================== *)

Module BySlug.
Section Script.
Context `{Platform} (fetch : network) (today : string).

(** The body of the [try] block run for each market: the quote it pushes,
    if any. *)
Definition market_nominee (market : value) : result (option Quote.t) :=
  let* outcomePrices := get market "outcomePrices" in
  match outcomePrices with
  | VStr _ =>
      let* prices := JSON_parse_or_throw outcomePrices in
      let* price := first prices in
      let probability := parseFloat price in
      let* name := get market "groupItemTitle" in
      if truthy name then
        let* s := String_method name in
        if negb (matches true Polymarket.placeholder s) then
          Ok (Some (Quote.mk s None (Polymarket.probToAmericanOdds (VNum probability))))
        else Ok None
      else Ok None
  | _ => Ok None
  end.

Definition fetchPolymarketData (slug : string) : list Quote.t :=
  try_catch
    (match fetch (Polymarket.events_url slug) with
     | Rejected => Throw FetchError
     | Response _ text =>
         let* data := JSON_parse_or_throw (VStr text) in
         match data with
         | VArr (event :: _) =>
             let* markets := get event "markets" in
             let* items := for_of markets in
             Ok (omap (fun market => try_catch (market_nominee market) (fun _ => None)) items)
         | _ => Ok []
         end
     end)
    (fun _ => []).

Definition is_match (nominee : Nominee.t) (p : Quote.t) : bool :=
  String.eqb (toLowerCase (Quote.name p)) (toLowerCase (Nominee.name nominee))
  || includes (toLowerCase (Quote.name p)) (toLowerCase (Nominee.name nominee))
  || includes (toLowerCase (Nominee.name nominee)) (toLowerCase (Quote.name p)).

(** What the [forEach] callback mutates. *)
Record progress := mk_progress {
  updates : list (nat * field * string);
  updatedCount : nat
}.

Definition visit (polymarketNominees : list Quote.t)
    (st : progress) (nominee : Nominee.t) (index : nat) : progress :=
  match find (is_match nominee) polymarketNominees with
  | Some polymarketMatch =>
      mk_progress
        (updates st ++ [(index, OddsOf "polymarket", Quote.odds polymarketMatch);
                        (index, LastUpdated, today)])
        (S (updatedCount st))
  | None => st
  end.

(** The storage writes one category update issues. *)
Definition updateCategory (slug firebasePath categoryName : string) (db : database)
  : list write :=
  let polymarketNominees := fetchPolymarketData slug in
  if (length polymarketNominees =? 0)%nat then []
  else
    match db !! (firebasePath +:+ "/nominees") with
    | None => []
    | Some firebaseNominees =>
        let st := forEach (visit polymarketNominees) firebaseNominees 0 (mk_progress [] 0) in
        if (0 <? length (updates st))%nat
        then [RefUpdate (firebasePath +:+ "/nominees") (updates st)]
        else []
    end.

Definition categories : list (string * string * string) :=
  [ ("oscars-2026-best-actor-winner", "oscars/actor", "Best Actor");
    ("oscars-2026-best-actress-winner", "oscars/actress", "Best Actress");
    ("oscars-2026-best-supporting-actor-winner", "oscars/supporting-actor", "Best Supporting Actor");
    ("oscars-2026-best-supporting-actress-winner", "oscars/supporting-actress", "Best Supporting Actress");
    ("oscars-2026-best-picture-winner", "oscars/picture", "Best Picture");
    ("oscars-2026-best-director-winner", "oscars/director", "Best Director");
    ("oscars-2026-best-adapted-screenplay-winner", "oscars/adapted", "Best Adapted Screenplay");
    ("oscars-2026-best-original-screenplay-winner", "oscars/original", "Best Original Screenplay");
    ("oscars-2026-best-cinematography-winner", "oscars/cinemato", "Best Cinematography");
    ("oscars-2026-best-film-editing-winner", "oscars/editing", "Best Film Editing");
    ("oscars-2026-best-production-design-winner", "oscars/production", "Best Production Design");
    ("oscars-2026-best-costume-design-winner", "oscars/costumes", "Best Costume Design");
    ("oscars-2026-best-sound-winner", "oscars/sound", "Best Sound");
    ("oscars-2026-best-original-score-winner", "oscars/score", "Best Original Score");
    ("oscars-2026-best-original-song-winner", "oscars/song", "Best Original Song");
    ("oscars-2026-best-animated-feature-winner", "oscars/animated", "Best Animated Feature");
    ("oscars-2026-best-documentary-feature-winner", "oscars/documentary", "Best Documentary Feature");
    ("oscars-2026-best-international-feature-film-winner", "oscars/international", "Best International Feature Film");
    ("oscars-2026-best-casting-winner", "oscars/casting", "Best Casting") ].

(** The [for] loop of [main] over a category list: the database after the
    run, which then exits with status 0. *)
Definition run (cats : list (string * string * string)) (db : database) : database :=
  fold_left
    (fun db '(slug, path, name) => apply_writes db (updateCategory slug path name db))
    cats db.

Definition main (db : database) : Z * database := (0%Z, run categories db).

End Script.
End BySlug.

(* ================================================================== *)
(** * The fetch-then-replace script ([scripts/update-polymarket.js],
      second script) *)
(* ================================================================== *)

Module SlugReplace.
Section Script.
Context `{Platform} (fetch : network) (today : string).

(** [/^(Other|Film [A-Z])$/i] *)
Definition placeholder : regex :=
  Alt (lit "Other") (Seq (lit "Film ") Polymarket.AZ).

(** The object the [map] callback returns for a market. *)
Record entry := mk_entry { name : value; probability : number; odds : string }.

Definition market_entry (market : value) : result entry :=
  let* outcomePrices := get market "outcomePrices" in
  let* prices := JSON_parse_or_throw outcomePrices in
  let* price := first prices in
  let probability := parseFloat price in
  let* groupItemTitle := get market "groupItemTitle" in
  Ok (mk_entry groupItemTitle probability (Polymarket.probToAmericanOdds (VNum probability))).

(** The [filter] callback, [n.name && !n.name.match(...)]; a kept entry has
    a string for a name. *)
Definition kept (n : entry) : result (option Quote.t) :=
  if truthy (name n) then
    let* s := String_method (name n) in
    if negb (matches true placeholder s)
    then Ok (Some (Quote.mk s (Some (probability n)) (odds n)))
    else Ok None
  else Ok None.

(** [None] is the script's [null]. *)
Definition fetchCategory (slug firebasePath : string) : option (list Quote.t) :=
  try_catch
    (match fetch (Polymarket.events_url slug) with
     | Rejected => Throw FetchError
     | Response ok text =>
         if negb ok then Ok None
         else if String.eqb (trim text) "" then Ok None
         else
           let* data := JSON_parse_or_throw (VStr text) in
           match data with
           | VArr (event :: _) =>
               let* _ := get event "title" in
               let* markets := get event "markets" in
               match markets with
               | VArr ((_ :: _) as items) =>
                   let* entries := mapM market_entry items in
                   let* nominees := mapM kept entries in
                   Ok (Some (omap id nominees))
               | _ =>
                   (* no markets, or a value without a [map] method, whose
                      TypeError the handler below turns into [null] too *)
                   Ok None
               end
           | _ => Ok None
           end
     end)
    (fun _ => None).

Definition is_match (nominee : Nominee.t) (p : Quote.t) : bool :=
  String.eqb (toLowerCase (Quote.name p)) (toLowerCase (Nominee.name nominee)).

Definition updateFirebase (nominees : option (list Quote.t)) (firebasePath : string)
    (db : database) : list write :=
  match nominees with
  | None | Some [] => []
  | Some nominees =>
      match default [] (db !! (firebasePath +:+ "/nominees")) with
      | [] => []
      | firebaseNominees =>
          let updatedNominees :=
            map (fun nominee =>
                   match find (is_match nominee) nominees with
                   | Some polymarketNominee =>
                       with_odds "polymarket" (Quote.odds polymarketNominee) today nominee
                   | None => nominee
                   end) firebaseNominees in
          [RefSet (firebasePath +:+ "/nominees") updatedNominees]
      end
  end.

Definition categories : list (string * string) :=
  [ ("oscars-2026-best-picture-winner", "oscars/best-picture");
    ("oscars-2026-best-director-winner", "oscars/best-director");
    ("oscars-2026-best-actor-winner", "oscars/best-actor");
    ("oscars-2026-best-actress-winner", "oscars/best-actress");
    ("oscars-2026-best-supporting-actor-winner", "oscars/best-supporting-actor");
    ("oscars-2026-best-supporting-actress-winner", "oscars/best-supporting-actress") ].

Definition run (cats : list (string * string)) (db : database) : database :=
  fold_left
    (fun db '(slug, path) =>
       match fetchCategory slug path with
       | Some nominees => apply_writes db (updateFirebase (Some nominees) path db)
       | None => db
       end)
    cats db.

Definition main (db : database) : Z * database := (0%Z, run categories db).

End Script.
End SlugReplace.

(* ================================================================== *)
(** * The legacy by-slug script (exact-name matching, full replace) *)
(* ================================================================== *)

Module SlugLegacy.
Section Script.
Context `{Platform} (fetch : network) (today : string).

Record entry := mk_entry { name : value; probability : value; odds : string }.

(** Reading an identifier that no declaration binds. *)
Definition unbound (identifier : string) : result value := Throw ReferenceError.

Definition market_entry (market : value) : result entry :=
  let* outcomePrices := get market "outcomePrices" in
  let* prices := JSON_parse_or_throw outcomePrices in
  let* probability := first prices in
  let* groupItemTitle := get market "groupItemTitle" in
  Ok (mk_entry groupItemTitle probability (Polymarket.probToAmericanOdds probability)).

(** [arr.map(f)] on an arbitrary receiver. *)
Definition map_method {A} (f : value -> result A) (v : value) : result (list A) :=
  match v with
  | VArr items => mapM f items
  | _ => Throw TypeError
  end.

(** The script reads [event.markets], but nothing in it declares [event]. *)
Definition fetchPolymarketData (slug : string) : list entry :=
  try_catch
    (match fetch (Polymarket.events_url slug) with
     | Rejected => Throw FetchError
     | Response _ body =>
         let* data := JSON_parse_or_throw (VStr body) in
         let* len := (if truthy data then length_of data else Ok VUndefined) in
         if negb (truthy data) || is_zero len then Ok []
         else
           let* event := unbound "event" in
           let* markets := get event "markets" in
           let* entries := map_method market_entry markets in
           Ok (filter (fun n => truthy (name n) = true) entries)
     end)
    (fun _ => []).

(** [p => p.name === nominee.name] *)
Definition is_match (nominee : Nominee.t) (p : entry) : bool :=
  match name p with
  | VStr s => String.eqb s (Nominee.name nominee)
  | _ => false
  end.

Definition updateCategory (category : string * string) (db : database) : list write :=
  let '(slug, path) := category in
  let polymarketData := fetchPolymarketData slug in
  if (length polymarketData =? 0)%nat then []
  else
    match default [] (db !! (path +:+ "/nominees")) with
    | [] => []
    | firebaseNominees =>
        let updatedNominees :=
          map (fun nominee =>
                 match find (is_match nominee) polymarketData with
                 | Some polymarketNominee =>
                     with_odds "polymarket" (odds polymarketNominee) today nominee
                 | None => nominee
                 end) firebaseNominees in
        [RefSet (path +:+ "/nominees") updatedNominees]
    end.

Definition categories : list (string * string) :=
  [ ("oscars-2026-best-picture-winner", "oscars/best-picture");
    ("oscars-2026-best-director-winner", "oscars/best-director");
    ("oscars-2026-best-actor-winner", "oscars/best-actor");
    ("oscars-2026-best-actress-winner", "oscars/best-actress");
    ("oscars-2026-best-supporting-actor-winner", "oscars/best-supporting-actor");
    ("oscars-2026-best-supporting-actress-winner", "oscars/best-supporting-actress") ].

Definition run (cats : list (string * string)) (db : database) : database :=
  fold_left (fun db category => apply_writes db (updateCategory category db)) cats db.

Definition main (db : database) : Z * database := (0%Z, run categories db).

End Script.
End SlugLegacy.

(* ================================================================== *)
(** * The bulk-search script *)
(* ================================================================== *)

Module BulkSearch.

Definition limit : Z := 100.

(** How one turn of the [while (true)] loop ends. *)
Inductive step :=
| Break (allMarkets : list value)
| Continue (allMarkets : list value)
| Raise (e : exn).

Definition logged (offset : Z) (rest : list Z * result (list value))
  : list Z * result (list value) :=
  (offset :: fst rest, snd rest).

Section Loop.
(** One turn of the loop, up to and including the short-page test. *)
Variable page : Z -> list value -> step.

(** The [while (true)] loop from a given offset: the offsets requested, in
    order, and the markets collected or the exception raised.  After a
    full page the offset advances by [limit], and the loop stops once it
    has reached 500. *)
Equations? paginate (offset : Z) (allMarkets : list value)
  : list Z * result (list value) by wf (Z.to_nat (500 - offset)) lt :=
  paginate offset allMarkets with page offset allMarkets := {
    | Raise e := ([offset], Throw e);
    | Break all := ([offset], Ok all);
    | Continue all with Z_lt_le_dec (offset + limit) 500 := {
        | left _ := logged offset (paginate (offset + limit) all);
        | right _ := ([offset], Ok all) } }.
Proof. unfold limit in *. lia. Qed.

End Loop.

Section Script.
Context `{Platform} (fetch : network) (today : string).

(** Search keywords, storage path and display name of each category. *)
Definition categories : list (string * string * string) :=
  [ ("Oscars 2026: Best Picture Winner", "oscars/best-picture", "Best Picture");
    ("Oscars 2026: Best Director Winner", "oscars/best-director", "Best Director");
    ("Oscars 2026: Best Actor Winner", "oscars/best-actor", "Best Actor");
    ("Oscars 2026: Best Actress Winner", "oscars/best-actress", "Best Actress");
    ("Oscars 2026: Best Supporting Actor Winner", "oscars/best-supporting-actor", "Best Supporting Actor");
    ("Oscars 2026: Best Supporting Actress Winner", "oscars/best-supporting-actress", "Best Supporting Actress") ].

Definition markets_url (offset : Z) : string :=
  "https://gamma-api.polymarket.com/markets?active=true&closed=false&limit="
  +:+ string_of_Z limit +:+ "&offset=" +:+ string_of_Z offset.

(** The filter for Oscars 2026 markets. *)
Definition is_oscars (m : value) : result bool :=
  let* question := get m "question" in
  if truthy question then
    let* here := includes_method question "Oscars 2026" in
    if (here : bool) then Ok true else includes_method question "Academy Awards 2026"
  else Ok false.

(** One turn of the loop, up to and including the short-page test. *)
Definition page (offset : Z) (allMarkets : list value) : step :=
  match fetch (markets_url offset) with
  | Rejected => Raise FetchError
  | Response ok body =>
      if negb ok then Raise HttpError
      else
        match JSON_parse (VStr body) with
        | None => Raise SyntaxError
        | Some (VArr ((_ :: _) as markets)) =>
            match filterM is_oscars markets with
            | Throw e => Raise e
            | Ok oscarsMarkets =>
                let allMarkets := (allMarkets ++ oscarsMarkets)%list in
                if (Z.of_nat (length markets) <? limit)%Z then Break allMarkets
                else Continue allMarkets
            end
        | Some _ => Break allMarkets
        end
  end.

(** The pagination loop from offset 0. *)
Definition pages : list Z * result (list value) := paginate page 0 [].

(** The listing requests a run issues. *)
Definition requests : list Z := fst pages.

Definition fetchAllOscarsMarkets : list value :=
  try_catch (snd pages) (fun _ => []).

Definition in_category (categorySearch : string) (m : value) : result bool :=
  let* question := get m "question" in
  if truthy question then includes_method question categorySearch else Ok false.

(** [field ? JSON.parse(field) : []] *)
Definition parse_if_present (field : value) : result value :=
  if truthy field then JSON_parse_or_throw field else Ok (VArr []).

(** The body of the [try] block run for each market of the category. *)
Definition market_nominee (market : value) : result (option Quote.t) :=
  let* outcomes_field := get market "outcomes" in
  let* outcomes := parse_if_present outcomes_field in
  let* prices_field := get market "outcomePrices" in
  let* outcomePrices := parse_if_present prices_field in
  let* groupItemTitle := get market "groupItemTitle" in
  let* name :=
    (if truthy groupItemTitle then Ok groupItemTitle
     else
       let* n := length_of outcomes in
       if positive n then first outcomes else Ok VNull) in
  if truthy name then
    let* n := length_of outcomePrices in
    if positive n then
      let* price := first outcomePrices in
      let probability := parseFloat price in
      let* s := String_method name in
      if negb (matches true Polymarket.placeholder s) then
        Ok (Some (Quote.mk s (Some probability)
                    (Polymarket.probToAmericanOdds (VNum probability))))
      else Ok None
    else Ok None
  else Ok None.

(** [(a, b) => b.probability - a.probability] *)
Definition by_probability (a b : Quote.t) : number :=
  sub (default NaN (Quote.probability b)) (default NaN (Quote.probability a)).

(** [nominees.sort(cmp)] as a stable insertion sort: [x] goes behind [y]
    exactly when [cmp(x, y) > 0]. *)
Fixpoint insert (x : Quote.t) (l : list Quote.t) : list Quote.t :=
  match l with
  | [] => [x]
  | y :: l' =>
      if positive (VNum (by_probability x y)) then y :: insert x l'
      else x :: y :: l'
  end.

Definition sort (l : list Quote.t) : list Quote.t := foldr insert [] l.

Definition extractNominees (markets : list value) (categorySearch : string)
  : result (list Quote.t) :=
  let* categoryMarkets := filterM (in_category categorySearch) markets in
  if (length categoryMarkets =? 0)%nat then Ok []
  else
    Ok (sort (omap (fun market => try_catch (market_nominee market) (fun _ => None))
                   categoryMarkets)).

Definition is_match (nominee : Nominee.t) (p : Quote.t) : bool :=
  String.eqb (toLowerCase (Quote.name p)) (toLowerCase (Nominee.name nominee))
  || includes (Quote.name p) (Nominee.name nominee)
  || includes (Nominee.name nominee) (Quote.name p).

Definition updated (polymarketData : list Quote.t) (nominee : Nominee.t) : Nominee.t :=
  match find (is_match nominee) polymarketData with
  | Some polymarketNominee =>
      with_odds "polymarket" (Quote.odds polymarketNominee) today nominee
  | None => nominee
  end.

Definition updateCategory (category : string * string * string)
    (allMarkets : list value) (db : database) : result (list write) :=
  let '(search, path, _) := category in
  let* polymarketData := extractNominees allMarkets search in
  if (length polymarketData =? 0)%nat then Ok []
  else
    match default [] (db !! (path +:+ "/nominees")) with
    | [] => Ok []
    | firebaseNominees =>
        let updatedNominees := map (updated polymarketData) firebaseNominees in
        Ok [RefSet (path +:+ "/nominees") updatedNominees]
    end.

(** The [for] loop of [main]: an exception escaping a category update is
    fatal (exit status 1), the writes already made stay. *)
Fixpoint run (cats : list (string * string * string)) (allMarkets : list value)
    (db : database) : Z * database :=
  match cats with
  | [] => (0%Z, db)
  | category :: cats' =>
      match updateCategory category allMarkets db with
      | Ok ws => run cats' allMarkets (apply_writes db ws)
      | Throw _ => (1%Z, db)
      end
  end.

Definition main (db : database) : Z * database :=
  let allMarkets := fetchAllOscarsMarkets in
  if (length allMarkets =? 0)%nat then (0%Z, db)
  else run categories allMarkets db.

End Script.
End BulkSearch.

(* ================================================================== *)
(** * The Kalshi script ([scripts/update-kalshi-bafta.js]) *)
(* ================================================================== *)

Module Kalshi.
Section Script.
Context `{Platform} (fetch : network) (today : string).

(** Convert Kalshi price (cents) to American odds. *)
Definition kalshiPriceToAmericanOdds (priceInCents : value) : string :=
  let prob := div (ToNumber priceInCents) (of_Z 100) in
  if ge prob (Fin (1 # 2)) then
    let odds := Math_round (div (neg (mul prob (of_Z 100))) (sub (of_Z 1) prob)) in
    ToString odds
  else
    let odds := Math_round (div (mul (sub (of_Z 1) prob) (of_Z 100)) prob) in
    "+" +:+ ToString odds.

Definition markets_url (seriesTicker : string) : string :=
  "https://api.elections.kalshi.com/trade-api/v2/markets?series_ticker="
  +:+ seriesTicker +:+ "&status=open&limit=100".

(** [a || b] on values. *)
Definition or_else (a : value) (b : result value) : result value :=
  if truthy a then Ok a else b.

(** [yesPrice !== undefined && yesPrice !== null] *)
Definition present (v : value) : bool :=
  match v with
  | VUndefined | VNull => false
  | _ => true
  end.

(** The body of the [try] block run for each market. *)
Definition market_nominee (market : value) : result (option Quote.t) :=
  let* title := get market "title" in
  let* name := or_else title
                 (let* subtitle := get market "subtitle" in
                  or_else subtitle (Ok (VStr ""))) in
  let* yesPrice := get market "yes_price" in
  if truthy name && present yesPrice then
    let* s := String_method name in
    Ok (Some (Quote.mk (trim s) None (kalshiPriceToAmericanOdds yesPrice)))
  else Ok None.

Definition fetchKalshiData (seriesTicker : string) : list Quote.t :=
  try_catch
    (match fetch (markets_url seriesTicker) with
     | Rejected => Throw FetchError
     | Response ok body =>
         if negb ok then Ok []
         else
           let* data := JSON_parse_or_throw (VStr body) in
           let* markets := get data "markets" in
           let* len := (if truthy markets then length_of markets else Ok VUndefined) in
           if negb (truthy markets) || is_zero len then Ok []
           else
             let* items := for_of markets in
             Ok (omap (fun market => try_catch (market_nominee market) (fun _ => None)) items)
     end)
    (fun _ => []).

Definition is_match (nominee : Nominee.t) (k : Quote.t) : bool :=
  includes (toLowerCase (Quote.name k)) (toLowerCase (Nominee.name nominee))
  || includes (toLowerCase (Nominee.name nominee)) (toLowerCase (Quote.name k))
  || String.eqb (toLowerCase (Quote.name k)) (toLowerCase (Nominee.name nominee)).

Record progress := mk_progress {
  updates : list (nat * field * string);
  updatedCount : nat
}.

Definition visit (kalshiNominees : list Quote.t)
    (st : progress) (nominee : Nominee.t) (index : nat) : progress :=
  match find (is_match nominee) kalshiNominees with
  | Some kalshiMatch =>
      mk_progress
        (updates st ++ [(index, OddsOf "kalshi", Quote.odds kalshiMatch);
                        (index, LastUpdated, today)])
        (S (updatedCount st))
  | None => st
  end.

Definition updateCategory (seriesTicker firebasePath categoryName : string) (db : database)
  : list write :=
  let kalshiNominees := fetchKalshiData seriesTicker in
  if (length kalshiNominees =? 0)%nat then []
  else
    match db !! (firebasePath +:+ "/nominees") with
    | None => []
    | Some firebaseNominees =>
        let st := forEach (visit kalshiNominees) firebaseNominees 0 (mk_progress [] 0) in
        if (0 <? length (updates st))%nat
        then [RefUpdate (firebasePath +:+ "/nominees") (updates st)]
        else []
    end.

Definition categories : list (string * string * string) :=
  [ ("KXBAFTAFILM", "baftas/picture", "Best Picture");
    ("KXBAFTADIRE", "baftas/director", "Best Director");
    ("KXBAFTAACTO", "baftas/actor", "Best Actor");
    ("KXBAFTAACTR", "baftas/actress", "Best Actress");
    ("KXBAFTASUPACTO", "baftas/supporting-actor", "Best Supporting Actor");
    ("KXBAFTASUPACTR", "baftas/supporting-actress", "Best Supporting Actress");
    ("KXBAFTAORIG", "baftas/original", "Best Original Screenplay");
    ("KXBAFTAADAP", "baftas/adapted", "Best Adapted Screenplay");
    ("KXBAFTACAST", "baftas/casting", "Best Casting");
    ("KXBAFTABRIT", "baftas/british-film", "Best British Film");
    ("KXBAFTAINTE", "baftas/international", "Best International Feature Film");
    ("KXBAFTADOCU", "baftas/documentary", "Best Documentary Feature");
    ("KXBAFTAANIM", "baftas/animated", "Best Animated Feature Film");
    ("KXBAFTACINE", "baftas/cinemato", "Best Cinematography");
    ("KXBAFTAEDIT", "baftas/editing", "Best Editing") ].

Definition run (cats : list (string * string * string)) (db : database) : database :=
  fold_left
    (fun db '(ticker, path, name) => apply_writes db (updateCategory ticker path name db))
    cats db.

Definition main (db : database) : Z * database := (0%Z, run categories db).

End Script.
End Kalshi.

(* ================================================================== *)
(** * A reference platform

    A [JSON.parse] for the examples below: a recursive-descent parser of
    JSON texts.  Escapes [\uXXXX] are read up to [\u007F]; an array
    argument of several items is rejected. *)
(* ================================================================== *)

Module Json.

Definition is_ws (c : ascii) : bool :=
  let n := nat_of_ascii c in
  (n =? 32)%nat || (n =? 9)%nat || (n =? 10)%nat || (n =? 13)%nat.

Fixpoint skip_ws (s : string) : string :=
  match s with
  | String c s' => if is_ws c then skip_ws s' else s
  | EmptyString => EmptyString
  end.

(** The double quote. *)
Definition dquote : ascii := ascii_of_nat 34.

Definition unescape (e : ascii) : option ascii :=
  if Ascii.eqb e dquote then Some dquote else
  match e with
  | "\"%char => Some "\"%char
  | "/"%char => Some "/"%char
  | "b"%char => Some (ascii_of_nat 8)
  | "f"%char => Some (ascii_of_nat 12)
  | "n"%char => Some (ascii_of_nat 10)
  | "r"%char => Some (ascii_of_nat 13)
  | "t"%char => Some (ascii_of_nat 9)
  | _ => None
  end.

Definition hex4 (a b c d : ascii) : option ascii :=
  match radix_digits 16 (String a (String b (String c (String d EmptyString)))) 0 with
  | Some z => if (z <? 128)%Z then Some (ascii_of_nat (Z.to_nat z)) else None
  | None => None
  end.

(** The characters of a string literal after its opening quote, and what
    follows the closing quote. *)
Fixpoint string_body (s : string) : option (string * string) :=
  match s with
  | EmptyString => None
  | String c s' =>
      if Ascii.eqb c dquote then Some (EmptyString, s')
      else if Ascii.eqb c "\"%char then
        match s' with
        | String "u" (String h1 (String h2 (String h3 (String h4 s'')))) =>
            match hex4 h1 h2 h3 h4, string_body s'' with
            | Some c', Some (str, rest) => Some (String c' str, rest)
            | _, _ => None
            end
        | String e s'' =>
            match unescape e, string_body s'' with
            | Some c', Some (str, rest) => Some (String c' str, rest)
            | _, _ => None
            end
        | EmptyString => None
        end
      else if (nat_of_ascii c <? 32)%nat then None
      else
        match string_body s' with
        | Some (str, rest) => Some (String c str, rest)
        | None => None
        end
  end.

(** A JSON number at the head of [s]. *)
Definition number_literal (s : string) : option (number * string) :=
  let '(minus, s1) :=
    match s with
    | String "-" t => (true, t)
    | _ => (false, s)
    end in
  let '(ip, ni, r1) := take_digits s1 0 0 in
  let leading_zero :=
    match s1 with
    | String "0" _ => (1 <? ni)%nat
    | _ => false
    end in
  if (ni =? 0)%nat || leading_zero then None
  else
    let frac :=
      match r1 with
      | String "." t =>
          let '(fp, nf, r2) := take_digits t ip 0 in
          if (nf =? 0)%nat then None else Some (fp, nf, r2)
      | _ => Some (ip, 0%nat, r1)
      end in
    match frac with
    | None => None
    | Some (fp, nf, r2) =>
        let '(e, r3) := exponent_part r2 in
        let dangling :=
          match r3 with
          | String "e" _ | String "E" _ => true
          | _ => false
          end in
        if dangling then None
        else
          let q := scale10 fp (e - Z.of_nat nf) in
          Some (Fin (if minus then - q else q)%Q, r3)
    end.

Definition add_member (k : string) (v : value) (props : list (string * value))
  : list (string * value) :=
  match assoc k props with
  | Some _ => props
  | None => (k, v) :: props
  end.

Fixpoint parse_value (fuel : nat) (s : string) : option (value * string) :=
  match fuel with
  | O => None
  | S fuel' =>
      match skip_ws s with
      | String "n" (String "u" (String "l" (String "l" rest))) => Some (VNull, rest)
      | String "t" (String "r" (String "u" (String "e" rest))) => Some (VBool true, rest)
      | String "f" (String "a" (String "l" (String "s" (String "e" rest)))) =>
          Some (VBool false, rest)
      | String "[" s' =>
          match skip_ws s' with
          | String "]" rest => Some (VArr [], rest)
          | _ =>
              match parse_items fuel' s' with
              | Some (items, rest) => Some (VArr items, rest)
              | None => None
              end
          end
      | String "{" s' =>
          match skip_ws s' with
          | String "}" rest => Some (VObj [], rest)
          | _ =>
              match parse_members fuel' s' with
              | Some (props, rest) => Some (VObj props, rest)
              | None => None
              end
          end
      | String c s' as t =>
          if Ascii.eqb c dquote then
            match string_body s' with
            | Some (str, rest) => Some (VStr str, rest)
            | None => None
            end
          else
            match number_literal t with
            | Some (n, rest) => Some (VNum n, rest)
            | None => None
            end
      | EmptyString => None
      end
  end

with parse_items (fuel : nat) (s : string) : option (list value * string) :=
  match fuel with
  | O => None
  | S fuel' =>
      match parse_value fuel' s with
      | Some (v, rest) =>
          match skip_ws rest with
          | String "]" rest' => Some ([v], rest')
          | String "," rest' =>
              match parse_items fuel' rest' with
              | Some (items, rest'') => Some (v :: items, rest'')
              | None => None
              end
          | _ => None
          end
      | None => None
      end
  end

with parse_members (fuel : nat) (s : string) : option (list (string * value) * string) :=
  match fuel with
  | O => None
  | S fuel' =>
      match skip_ws s with
      | String c s' =>
          match (if Ascii.eqb c dquote then string_body s' else None) with
          | Some (k, rest) =>
              match skip_ws rest with
              | String ":" rest' =>
                  match parse_value fuel' rest' with
                  | Some (v, rest'') =>
                      match skip_ws rest'' with
                      | String "}" rest3 => Some ([(k, v)], rest3)
                      | String "," rest3 =>
                          match parse_members fuel' rest3 with
                          | Some (props, rest4) => Some (add_member k v props, rest4)
                          | None => None
                          end
                      | _ => None
                      end
                  | None => None
                  end
              | _ => None
              end
          | None => None
          end
      | EmptyString => None
      end
  end.

Definition parse_text (s : string) : option value :=
  match parse_value (2 * String.length s + 2) s with
  | Some (v, rest) =>
      match skip_ws rest with
      | EmptyString => Some v
      | _ => None
      end
  | None => None
  end.

Fixpoint parse (v : value) : option value :=
  match v with
  | VStr s => parse_text s
  | VNull => Some VNull
  | VBool b => Some (VBool b)
  | VNum (Fin q) => Some (VNum (Fin q))
  | VArr [x] =>
      match x with
      | VUndefined | VNull => None
      | _ => parse x
      end
  | _ => None
  end.

(** [JSON.stringify] on strings, integers, arrays and objects, to write
    the response bodies of the examples. *)
Fixpoint escaped (s : string) : string :=
  match s with
  | EmptyString => EmptyString
  | String c s' =>
      if Ascii.eqb c dquote || Ascii.eqb c "\"%char
      then String "\" (String c (escaped s'))
      else String c (escaped s')
  end.

Definition quoted (s : string) : string :=
  String dquote (escaped s +:+ String dquote EmptyString).

Fixpoint stringify (v : value) : string :=
  match v with
  | VUndefined | VNull => "null"
  | VBool b => if b then "true" else "false"
  | VNum n => match n with Fin _ => ToString n | _ => "null" end
  | VStr s => quoted s
  | VArr items =>
      "[" +:+ String.concat "," (map stringify items) +:+ "]"
  | VObj props =>
      "{" +:+ String.concat ","
                (map (fun kv => quoted (fst kv) +:+ ":" +:+ stringify (snd kv)) props)
          +:+ "}"
  end.

End Json.

#[export] Instance reference_platform : Platform :=
  {| JSON_parse := Json.parse; JSON_parse_empty := eq_refl |}.



(* ================================================================== *)
(** * Sample responses and stored data *)
(* ================================================================== *)

Module Sample.

(** A market of an event: its title and the JSON-encoded prices of its two
    outcomes. *)
Definition market (title yes no : string) : value :=
  VObj [("groupItemTitle", VStr title);
        ("outcomePrices", VStr (Json.stringify (VArr [VStr yes; VStr no])))].

(** The body of an events response: one event holding the markets. *)
Definition events (markets : list value) : string :=
  Json.stringify (VArr [VObj [("title", VStr "Oscars 2026"); ("markets", VArr markets)]]).

(** A market of the open-markets listing. *)
Definition listed (question title yes no : string) : value :=
  VObj [("question", VStr question);
        ("groupItemTitle", VStr title);
        ("outcomePrices", VStr (Json.stringify (VArr [VStr yes; VStr no])))].

(** A Kalshi market and the body of a Kalshi response. *)
Definition contract (title : string) (yes_price : Z) : value :=
  VObj [("title", VStr title); ("yes_price", VNum (of_Z yes_price))].

Definition series (markets : list value) : string :=
  Json.stringify (VObj [("markets", VArr markets)]).

(** A network that answers every request alike. *)
Definition always (r : fetch_result) : network := fun _ => r.

Definition stored (name : string) : Nominee.t := Nominee.mk name ∅ None ∅.

Definition quote (name odds : string) : Quote.t := Quote.mk name None odds.

Definition placeholders_and_dune : list value :=
  [ market "Movie A" "0.3" "0.7";
    market "Other" "0.1" "0.9";
    market "Dune: Part Two" "0.6" "0.4";
    market "actor b" "0.2" "0.8" ].

Definition best_picture : string := "Oscars 2026: Best Picture Winner".

Definition listing : list value :=
  [ listed "Oscars 2026: Best Picture Winner - Movie A" "Movie A" "0.3" "0.7";
    listed "Oscars 2026: Best Picture Winner - Other" "Other" "0.1" "0.9";
    listed "Oscars 2026: Best Picture Winner - Dune" "Dune: Part Two" "0.6" "0.4";
    listed "Oscars 2026: Best Actor Winner - B" "Actor B" "0.2" "0.8" ].

(** A market whose prices are not JSON, and one without a title. *)
Definition unparseable : value :=
  VObj [("groupItemTitle", VStr "Wicked"); ("outcomePrices", VStr "not json")].

Definition untitled : value :=
  VObj [("outcomePrices", VStr (Json.stringify (VArr [VStr "0.2"; VStr "0.8"])))].

Definition conclave : value := market "Conclave" "0.6" "0.4".

(** A listing page of [n] markets. *)
Definition page_of (n : nat) : fetch_result :=
  Response true (Json.stringify (VArr (repeat (VObj []) n))).

(** A listing whose first page is full and whose second holds 40 markets. *)
Definition two_pages : network :=
  fun url =>
    if String.eqb url (BulkSearch.markets_url 0) then page_of 100
    else if String.eqb url (BulkSearch.markets_url 100) then page_of 40
    else page_of 0.

End Sample.

(* ================================================================== *)
(** * The vocabulary of the specification *)
(* ================================================================== *)

(** ** Odds conversion *)

(** The conversion rule in the specification's words: for a probability
    [p], the rounded quotient, signed for a favourite and prefixed with a
    plus sign otherwise. *)
Definition round_half_up (x : Q) : Z := Qfloor (x + (1 # 2)).





(** ** Nominee matching *)

(** The matching rule in the specification's words. *)
Definition substring (t s : string) : Prop :=
  exists before after : string, s = before +:+ t +:+ after.

Definition satisfies (canonical quote : string) : Prop :=
  toLowerCase quote = toLowerCase canonical
  \/ substring (toLowerCase quote) (toLowerCase canonical)
  \/ substring (toLowerCase canonical) (toLowerCase quote).

(** [found] is the first quote of the list, in list order, that satisfies
    the rule for the nominee; there is none when no quote satisfies it. *)
Definition first_satisfying (quotes : list Quote.t) (nominee : Nominee.t)
    (found : option Quote.t) : Prop :=
  match found with
  | Some q =>
      exists before after : list Quote.t,
        quotes = (before ++ q :: after)%list
        /\ satisfies (Nominee.name nominee) (Quote.name q)
        /\ Forall (fun p => ~ satisfies (Nominee.name nominee) (Quote.name p)) before
  | None =>
      Forall (fun p => ~ satisfies (Nominee.name nominee) (Quote.name p)) quotes
  end.

(** ** Category updates *)

Section UpdateVocabulary.
Context (today : string).

(** What an update makes of a nominee, given the quote chosen for it. *)
Definition refresh (source : string) (choose : Nominee.t -> option Quote.t)
    (nominee : Nominee.t) : Nominee.t :=
  match choose nominee with
  | Some q => with_odds source (Quote.odds q) today nominee
  | None => nominee
  end.

(** The keys a patch-based update collects from index [index] on. *)
Fixpoint patch_of (source : string) (choose : Nominee.t -> option Quote.t)
    (l : list Nominee.t) (index : nat) : list (nat * field * string) :=
  match l with
  | [] => []
  | nominee :: l' =>
      match choose nominee with
      | Some q => [(index, OddsOf source, Quote.odds q); (index, LastUpdated, today)]
      | None => []
      end ++ patch_of source choose l' (S index)
  end.

(** The frame of an update of one list: same length, and at each index
    the same nominee, changed in nothing but the odds of the source and the
    date when a quote was chosen for it. *)
Definition framed (source : string) (choose : Nominee.t -> option Quote.t)
    (l l' : list Nominee.t) : Prop :=
  length l' = length l
  /\ forall (i : nat) (n : Nominee.t), l !! i = Some n ->
       exists n' : Nominee.t,
         l' !! i = Some n'
         /\ Nominee.name n' = Nominee.name n
         /\ Nominee.others n' = Nominee.others n
         /\ (forall s : string, s <> source -> Nominee.odds n' !! s = Nominee.odds n !! s)
         /\ match choose n with
            | Some q =>
                Nominee.odds n' !! source = Some (Quote.odds q)
                /\ Nominee.lastUpdated n' = Some today
            | None => n' = n
            end.

(** The frame of an update of the database: every other path keeps its
    value, nothing is created at the path, and the list there is framed. *)
Definition update_frame (source : string) (choose : Nominee.t -> option Quote.t)
    (path : string) (db db' : database) : Prop :=
  (forall other : string, other <> path -> db' !! other = db !! other)
  /\ match db !! path with
     | None => db' !! path = None
     | Some l => exists l', db' !! path = Some l' /\ framed source choose l l'
     end.

(** The keys of a patch: two per chosen nominee, at its index, none twice. *)
Definition keys_of_matches (source : string) (choose : Nominee.t -> option Quote.t)
    (l : list Nominee.t) (updates : list (nat * field * string)) : Prop :=
  NoDup (map fst updates)
  /\ forall (i : nat) (f : field) (v : string), In (i, f, v) updates ->
       exists (n : Nominee.t) (q : Quote.t),
         l !! i = Some n /\ choose n = Some q
         /\ ((f = OddsOf source /\ v = Quote.odds q) \/ (f = LastUpdated /\ v = today)).

(** The writes of a patch-based update, given the quotes fetched. *)
Definition patch_writes (source : string) (choose : Nominee.t -> option Quote.t)
    (quotes : list Quote.t) (path : string) (db : database) : list write :=
  match quotes, db !! path with
  | _ :: _, Some l =>
      match patch_of source choose l 0 with
      | [] => []
      | updates => [RefUpdate path updates]
      end
  | _, _ => []
  end.

End UpdateVocabulary.

(** ** Source adapters *)

(** The placeholder names in lower case: other, and each prefix followed
    by a space and one letter. *)
Definition letters : list ascii := map ascii_of_nat (seq 97 26).

Definition placeholder_names : list string :=
  "other"
  :: flat_map (fun prefix => map (fun c => prefix +:+ String c EmptyString) letters)
       ["movie "; "actor "; "actress "; "director "; "film "].

Section AdapterVocabulary.
Context `{Platform} (fetch : network).

(** A market entry with unparseable prices, or without a name. *)
Definition malformed (market : value) : Prop :=
  (exists s : string,
     get market "outcomePrices" = Ok (VStr s) /\ JSON_parse (VStr s) = None)
  \/ get market "groupItemTitle" = Ok VUndefined.

(** The quotes the by-slug adapter makes of a list of markets. *)
Definition by_slug_quotes (markets : list value) : list Quote.t :=
  omap (fun market => try_catch (BySlug.market_nominee market) (fun _ => None)) markets.

(** A transport failure: the request is rejected, the status is not a
    success, or the body is empty or not JSON. *)
Definition transport_failure (r : fetch_result) : Prop :=
  match r with
  | Rejected => True
  | Response ok body => ok = false \/ body = "" \/ JSON_parse (VStr body) = None
  end.

(** With the status ignored, what is left of a failure for the by-slug
    adapter: a rejected request, or a body that is empty or not JSON. *)
Definition no_readable_body (r : fetch_result) : Prop :=
  match r with
  | Rejected => True
  | Response _ body => body = "" \/ JSON_parse (VStr body) = None
  end.

(** Whether a turn of the loop asks for another page. *)
Definition continues (s : BulkSearch.step) : bool :=
  match s with
  | BulkSearch.Continue _ => true
  | _ => false
  end.

(** The page at an offset is full: the loop would go on after it. *)
Definition full_page (offset : Z) : bool := continues (BulkSearch.page fetch offset []).

(** The offsets requested among the candidates, up to and including the
    first whose page is not full. *)
Fixpoint until_short (full : Z -> bool) (offsets : list Z) : list Z :=
  match offsets with
  | [] => []
  | offset :: offsets' =>
      offset :: (if full offset then until_short full offsets' else [])
  end.

End AdapterVocabulary.

(** What the listing filter can read: its test of the question does not
    throw. *)
Definition readable (m : value) : Prop := exists b : bool, BulkSearch.is_oscars m = Ok b.

(* ================================================================== *)
(** * Further vocabulary: what the scripts guarantee beyond the
      specification *)
(* ================================================================== *)

(** ** Odds strings *)

(** The integer an odds string stands for: a decimal integer, after a plus
    sign if there is one. *)
Definition odds_value (s : string) : option Z :=
  match s with
  | String "+" t => option_map Z.of_int (NilZero.int_of_string t)
  | _ => option_map Z.of_int (NilZero.int_of_string s)
  end.

(** ** Binary64 against the exact model *)

(** The integers from 0 to [n]. *)
Definition upto (n : Z) : list Z := map Z.of_nat (seq 0 (Z.to_nat (n + 1))).

(** Whether the converter evaluated in binary64 and the converter of the
    exact model print the same for the probability [n / 10000]. *)
Definition same_in_binary64 (n : Z) : bool :=
  String.eqb (Binary64.probToAmericanOdds (Binary64.ratio n 10000))
             (Polymarket.probToAmericanOdds (VNum (Fin (n # 10000)))).

(** Likewise for the Kalshi converter at a price of [c] cents. *)
Definition kalshi_same_in_binary64 (c : Z) : bool :=
  String.eqb (Binary64.kalshiPriceToAmericanOdds (PrimFloat.of_uint63 (Uint63.of_Z c)))
             (Kalshi.kalshiPriceToAmericanOdds (VNum (of_Z c))).

(** ** Further sample data *)

(** A market whose price array is empty. *)
Definition priceless (title : string) : value :=
  VObj [("groupItemTitle", VStr title); ("outcomePrices", VStr "[]")].

(** ** Regular expressions: the strings a pattern stands for *)

Fixpoint lang (i : bool) (r : regex) (s : string) : Prop :=
  match r with
  | Fail => False
  | Eps => s = ""
  | Chr c => exists a : ascii, s = String a "" /\ chr_matches i c a = true
  | Range lo hi => exists a : ascii, s = String a "" /\ range_matches i lo hi a = true
  | Seq r1 r2 => exists s1 s2 : string, s = s1 +:+ s2 /\ lang i r1 s1 /\ lang i r2 s2
  | Alt r1 r2 => lang i r1 s \/ lang i r2 s
  end.

(** The names the shorter pattern of the replace script stands for, in
    lower case. *)
Definition short_placeholder_names : list string :=
  "other" :: map (fun c => "film " +:+ String c EmptyString) letters.

(** ** Where a quote comes from *)

Section Provenance.
Context `{Platform}.

(** The markets the by-slug adapter iterates over: those of the first
    event of the response. *)
Definition first_event_markets (r : fetch_result) (items : list value) : Prop :=
  exists (ok : bool) (body : string) (event : value) (rest : list value) (markets : value),
    r = Response ok body
    /\ JSON_parse (VStr body) = Some (VArr (event :: rest))
    /\ get event "markets" = Ok markets
    /\ for_of markets = Ok items.

(** A Polymarket quote is backed by a market: its name is the title of the
    market and its odds are those of the first price of the market. *)
Definition backed_by_market (q : Quote.t) (market : value) : Prop :=
  get market "groupItemTitle" = Ok (VStr (Quote.name q))
  /\ exists (s : string) (prices price : value),
       get market "outcomePrices" = Ok (VStr s)
       /\ JSON_parse (VStr s) = Some prices
       /\ first prices = Ok price
       /\ Quote.odds q = Polymarket.probToAmericanOdds (VNum (parseFloat price)).

(** The markets the Kalshi adapter iterates over. *)
Definition series_markets (r : fetch_result) (items : list value) : Prop :=
  exists (body : string) (data markets : value),
    r = Response true body
    /\ JSON_parse (VStr body) = Some data
    /\ get data "markets" = Ok markets
    /\ for_of markets = Ok items.

(** A Kalshi quote is backed by a market: its name is the title of the
    market, or its subtitle when the title is missing or empty, with the
    white space around it removed, and its odds are those of the price. *)
Definition backed_by_contract (q : Quote.t) (market : value) : Prop :=
  exists (label : string) (yesPrice : value),
    label <> ""
    /\ (get market "title" = Ok (VStr label)
        \/ (exists title : value,
              get market "title" = Ok title /\ truthy title = false
              /\ get market "subtitle" = Ok (VStr label)))
    /\ Quote.name q = trim label
    /\ get market "yes_price" = Ok yesPrice
    /\ Kalshi.present yesPrice = true
    /\ Quote.odds q = Kalshi.kalshiPriceToAmericanOdds yesPrice.

End Provenance.

(** A Kalshi market whose title is blank. *)
Definition blank_contract (yes_price : Z) : value :=
  VObj [("title", VStr "  "); ("yes_price", VNum (of_Z yes_price))].

(** ** Whole runs *)

(** A nominee with the odds of a source and the date set when its name is
    given odds. *)
Definition set_by (source today : string) (pick : string -> option string)
    (n : Nominee.t) : Nominee.t :=
  match pick (Nominee.name n) with
  | Some o => with_odds source o today n
  | None => n
  end.

(** A change of the database that goes nominee by nominee and is decided by
    the path and the name alone. *)
Definition by_name (source today : string) (F : database -> database) : Prop :=
  exists pick : string -> string -> option string,
    forall (db : database) (path : string),
      F db !! path = map (set_by source today (pick path)) <$> db !! path.

(** A change of the database that alters the list at one path, in a way
    that does not depend on the rest of the database. *)
Definition local_step (F : database -> database) (path : string) : Prop :=
  exists g : list Nominee.t -> list Nominee.t, forall db : database, F db = alter g path db.

(** What a whole run keeps: no path appears or disappears, and at each
    path the list keeps its length and, index by index, the name of the
    nominee and every field but the odds of the source and the date; a
    nominee that changed has odds for the source and the date of the run. *)
Definition run_frame (source today : string) (db db' : database) : Prop :=
  forall path : string,
    match db !! path with
    | None => db' !! path = None
    | Some l =>
        exists l' : list Nominee.t,
          db' !! path = Some l' /\ length l' = length l
          /\ forall (i : nat) (n : Nominee.t), l !! i = Some n ->
               exists n' : Nominee.t,
                 l' !! i = Some n'
                 /\ Nominee.name n' = Nominee.name n
                 /\ Nominee.others n' = Nominee.others n
                 /\ (forall s : string, s <> source ->
                       Nominee.odds n' !! s = Nominee.odds n !! s)
                 /\ (n' = n
                     \/ (Nominee.lastUpdated n' = Some today
                         /\ is_Some (Nominee.odds n' !! source)))
    end.

(** The storage paths a list of categories writes to. *)
Definition named_paths (cats : list (string * string * string)) : list string :=
  map (fun '(_, path, _) => path +:+ "/nominees") cats.

Definition slug_paths (cats : list (string * string)) : list string :=
  map (fun '(_, path) => path +:+ "/nominees") cats.

(** ** The markets the bulk search keeps *)

(** A question mentions a marker: as a substring when it is a string, as an
    item when it is an array. *)
Definition mentions (question : value) (marker : string) : Prop :=
  match question with
  | VStr s => substring marker s
  | VArr items => In (VStr marker) items
  | _ => False
  end.

Definition about_oscars (m : value) : Prop :=
  exists question : value,
    get m "question" = Ok question
    /\ (mentions question "Oscars 2026" \/ mentions question "Academy Awards 2026").

(** The market is on the listing page requested at the offset. *)
Definition listed_at `{Platform} (fetch : network) (offset : Z) (m : value) : Prop :=
  exists (body : string) (markets : list value),
    fetch (BulkSearch.markets_url offset) = Response true body
    /\ JSON_parse (VStr body) = Some (VArr markets)
    /\ In m markets.

(** ** Responses the replace script cannot use *)

(** The request is rejected, the status is not a success, or the body is
    blank or not JSON. *)
Definition no_usable_response `{Platform} (r : fetch_result) : Prop :=
  match r with
  | Rejected => True
  | Response ok body => ok = false \/ trim body = "" \/ JSON_parse (VStr body) = None
  end.

(** The markets the replace script maps over: those of the first event of
    a response with a success status, at least one. *)
Definition mapped_markets `{Platform} (r : fetch_result) (items : list value) : Prop :=
  exists (body : string) (event : value) (rest : list value),
    r = Response true body
    /\ trim body <> ""
    /\ JSON_parse (VStr body) = Some (VArr (event :: rest))
    /\ get event "markets" = Ok (VArr items)
    /\ items <> [].

(** ** The order of the quotes of the bulk search *)

(** The quotes the bulk-search adapter makes of the markets of a category,
    before it sorts them. *)
Definition bulk_quotes `{Platform} (markets : list value) : list Quote.t :=
  omap (fun market => try_catch (BulkSearch.market_nominee market) (fun _ => None)) markets.

Definition probability_of (q : Quote.t) : number := default NaN (Quote.probability q).

(** [a] may come before [b] in descending order of probability. *)
Definition descending (a b : Quote.t) : Prop :=
  ge (probability_of a) (probability_of b) = true.

Definition same_probability (a b : Quote.t) : bool :=
  ge (probability_of a) (probability_of b) && ge (probability_of b) (probability_of a).

(** A listing with two markets of the same probability in one category,
    and the network that answers every listing request with it. *)
Definition tied_listing : list value :=
  [ Sample.listed "Oscars 2026: Best Picture Winner - Anora" "Anora" "0.2" "0.8";
    Sample.listed "Oscars 2026: Best Picture Winner - Conclave" "Conclave" "0.35" "0.65";
    Sample.listed "Oscars 2026: Best Picture Winner - Wicked" "Wicked" "0.35" "0.65";
    Sample.listed "Oscars 2026: Best Actor Winner - Chalamet" "Timothee Chalamet" "0.9" "0.1";
    Sample.listed "Super Bowl 2026 winner" "Chiefs" "0.5" "0.5" ].

Definition listing_network : network :=
  Sample.always (Response true (Json.stringify (VArr tied_listing))).

(** ** Quotes that record their probability *)

(** The odds of the quote are the conversion of the probability it
    records. *)
Definition consistent (q : Quote.t) : Prop :=
  exists p : number,
    Quote.probability q = Some p
    /\ Quote.odds q = Polymarket.probToAmericanOdds (VNum p).

(** A quote of the bulk search is backed by a market of the listing: its
    name is the title of the market or, when the title is missing or empty,
    the first of its outcomes, and its probability is read from the first
    price of the market. *)
Definition backed_by_listing `{Platform} (q : Quote.t) (market : value) : Prop :=
  (get market "groupItemTitle" = Ok (VStr (Quote.name q))
   \/ exists (title field outcomes : value),
        get market "groupItemTitle" = Ok title /\ truthy title = false
        /\ get market "outcomes" = Ok field
        /\ BulkSearch.parse_if_present field = Ok outcomes
        /\ first outcomes = Ok (VStr (Quote.name q)))
  /\ exists (field prices price : value),
       get market "outcomePrices" = Ok field
       /\ BulkSearch.parse_if_present field = Ok prices
       /\ first prices = Ok price
       /\ Quote.probability q = Some (parseFloat price).


(** ** The pages of the bulk search *)

(** The Oscars markets of the listing page at an offset: those the filter
    keeps when the response has a success status and its body is an array,
    none otherwise. *)
Definition oscars_at `{Platform} (fetch : network) (offset : Z) : list value :=
  match fetch (BulkSearch.markets_url offset) with
  | Response true body =>
      match JSON_parse (VStr body) with
      | Some (VArr markets) =>
          try_catch (filterM BulkSearch.is_oscars markets) (fun _ => [])
      | _ => []
      end
  | _ => []
  end.

(* ================================================================== *)
(** * Properties of the odds converters *)
(* ================================================================== *)

(** Order facts on rationals, reduced to integer arithmetic on numerators
    and denominators. *)
Ltac q_arith :=
  repeat match goal with p : Q |- _ => destruct p as [?n ?d] end;
  unfold Qlt, Qle, Qeq, Qminus, Qplus, Qmult, Qopp, inject_Z in *;
  simpl Qnum in *; simpl Qden in *; rewrite ?Pos2Z.inj_mul in *; nia.

Section OddsConverter.

Lemma ToString_round (q : Q) :
  ToString (Math_round (Fin q)) = string_of_Z (round_half_up q).
Proof.
  unfold Math_round, of_Z, ToString, round_half_up. now rewrite Qfloor_Z.
Qed.

Lemma round_half_up_comp (x y : Q) : (x == y)%Q -> round_half_up x = round_half_up y.
Proof.
  intros E. unfold round_half_up. apply Qfloor_comp. now rewrite E.
Qed.





Lemma ge_half (p : Q) : ge (Fin p) (Fin (1 # 2)) = Qle_bool (1 # 2) p.
Proof. reflexivity. Qed.

Lemma div_finite (a b : Q) : ~ (b == 0)%Q -> div (Fin a) (Fin b) = Fin (a / b).
Proof.
  intros Hb. unfold div.
  destruct (Qeq_bool b 0) eqn:E; [|reflexivity].
  apply Qeq_bool_iff in E. contradiction.
Qed.

Lemma converter_favourite (p : Q) :
  (1 # 2 <= p)%Q -> ~ (1 - p == 0)%Q ->
  Polymarket.probToAmericanOdds (VNum (Fin p))
  = string_of_Z (round_half_up (- (p * 100) / (1 - p))).
Proof.
  intros Hp Hd. unfold Polymarket.probToAmericanOdds. cbn [parseFloat].
  rewrite ge_half. apply Qle_bool_iff in Hp. rewrite Hp.
  cbv zeta. cbn [mul neg sub add of_Z].
  rewrite div_finite by exact Hd. apply ToString_round.
Qed.

Lemma converter_underdog (p : Q) :
  ~ (1 # 2 <= p)%Q -> ~ (p == 0)%Q ->
  Polymarket.probToAmericanOdds (VNum (Fin p))
  = "+" +:+ string_of_Z (round_half_up ((1 - p) * 100 / p)).
Proof.
  intros Hp Hd. unfold Polymarket.probToAmericanOdds. cbn [parseFloat].
  rewrite ge_half. destruct (Qle_bool (1 # 2) p) eqn:E.
  { apply Qle_bool_iff in E. contradiction. }
  cbv zeta. cbn [mul neg sub add of_Z].
  rewrite div_finite by exact Hd. now rewrite ToString_round.
Qed.



(** A market with a title and a price is admitted by the Kalshi adapter. *)
Lemma kalshi_market_admitted (market : value) (name : string) (yesPrice : value) :
  get market "title" = Ok (VStr name) -> name <> "" ->
  get market "yes_price" = Ok yesPrice -> Kalshi.present yesPrice = true ->
  Kalshi.market_nominee market
  = Ok (Some (Quote.mk (trim name) None (Kalshi.kalshiPriceToAmericanOdds yesPrice))).
Proof.
  intros Htitle Hname Hprice Hpresent.
  destruct (String.eqb name "") eqn:E; [apply String.eqb_eq in E; contradiction |].
  unfold Kalshi.market_nominee, Kalshi.or_else. rewrite Htitle, Hprice.
  cbn [bind truthy]. rewrite E. cbn [negb bind truthy]. rewrite E, Hpresent.
  reflexivity.
Qed.

(** C8.  On an integer price in cents between 0 and 100 the Kalshi
    converter is the probability converter applied to the price divided by
    100, and that division is all the Kalshi adapter does to the price of a
    market it admits. *)
Theorem kalshi_converter_is_prob_of_cents (c : Z) :
  (0 <= c <= 100)%Z ->
  Kalshi.kalshiPriceToAmericanOdds (VNum (of_Z c))
  = Polymarket.probToAmericanOdds (VNum (div (of_Z c) (of_Z 100)))
  /\ forall (market : value) (name : string),
       get market "title" = Ok (VStr name) -> name <> "" ->
       get market "yes_price" = Ok (VNum (of_Z c)) ->
       Kalshi.market_nominee market
       = Ok (Some (Quote.mk (trim name) None
                     (Polymarket.probToAmericanOdds (VNum (div (of_Z c) (of_Z 100)))))).
Proof.
  intros _. split; [reflexivity |].
  intros market name Htitle Hname Hprice.
  now rewrite (kalshi_market_admitted market name (VNum (of_Z c))).
Qed.

Lemma kalshi_converter_is_prob_of_cents_witness :
  Kalshi.kalshiPriceToAmericanOdds (VNum (of_Z 75)) = "-300"
  /\ Polymarket.probToAmericanOdds (VNum (div (of_Z 75) (of_Z 100))) = "-300".
Proof.
  pose proof (proj1 (kalshi_converter_is_prob_of_cents 75 ltac:(lia))) as E.
  split; [reflexivity | rewrite <- E; reflexivity].
Defined.




End OddsConverter.

(* ================================================================== *)
(** * Properties of the nominee matchers *)
(* ================================================================== *)

Section Matcher.

Lemma prefix_spec (t s : string) :
  String.prefix t s = true <-> exists after : string, s = t +:+ after.
Proof.
  revert s. induction t as [| a t IH]; intros s.
  - split; [intros _; now exists s | intros _; now destruct s].
  - destruct s as [| b s]; simpl String.prefix;
      [split; [discriminate | intros [after E]; discriminate] |].
    destruct (ascii_dec a b) as [-> | Hne].
    + rewrite IH. split; intros [after E]; exists after; [now rewrite E | now injection E].
    + split; [discriminate | intros [after E]; injection E; congruence].
Qed.

Lemma includes_spec (s t : string) : includes s t = true <-> substring t s.
Proof.
  induction s as [| a s IH]; cbn [includes].
  - destruct (String.prefix t "") eqn:E.
    + split; [intros _ | reflexivity].
      apply prefix_spec in E as [after E]. now exists "", after.
    + split; [discriminate |]. intros ([| b before] & after & Hs); [| discriminate].
      assert (String.prefix t "" = true) by (apply prefix_spec; now exists after).
      congruence.
  - destruct (String.prefix t (String a s)) eqn:E.
    + split; [intros _ | reflexivity].
      apply prefix_spec in E as [after E]. now exists "", after.
    + rewrite IH. split.
      * intros (before & after & Hs). exists (String a before), after. now rewrite Hs.
      * intros ([| b before] & after & Hs).
        -- assert (String.prefix t (String a s) = true)
             by (apply prefix_spec; now exists after).
           congruence.
        -- injection Hs as _ Hs. now exists before, after.
Qed.

Lemma find_first {A} (f : A -> bool) (P : A -> Prop) (l : list A) :
  (forall x, f x = true <-> P x) ->
  match find f l with
  | Some x => exists before after, l = (before ++ x :: after)%list /\ P x /\ Forall (fun y => ~ P y) before
  | None => Forall (fun y => ~ P y) l
  end.
Proof.
  intros Hf. induction l as [| x l IH]; cbn [find].
  - constructor.
  - destruct (f x) eqn:E.
    + exists [], l. repeat split; [now apply Hf | constructor].
    + assert (Hx : ~ P x) by (rewrite <- Hf; congruence).
      destruct (find f l) as [y |].
      * destruct IH as (before & after & -> & Hy & Hbefore).
        exists (x :: before), after. repeat split; [exact Hy | now constructor].
      * now constructor.
Qed.

Lemma by_slug_is_match_spec (nominee : Nominee.t) (p : Quote.t) :
  BySlug.is_match nominee p = true <-> satisfies (Nominee.name nominee) (Quote.name p).
Proof.
  unfold BySlug.is_match, satisfies.
  rewrite !orb_true_iff, String.eqb_eq, !includes_spec. tauto.
Qed.

Lemma kalshi_is_match_spec (nominee : Nominee.t) (k : Quote.t) :
  Kalshi.is_match nominee k = true <-> satisfies (Nominee.name nominee) (Quote.name k).
Proof.
  unfold Kalshi.is_match, satisfies.
  rewrite !orb_true_iff, String.eqb_eq, !includes_spec. tauto.
Qed.

(** The by-slug and Kalshi matchers select the first satisfying quote. *)
Lemma by_slug_matcher_first (quotes : list Quote.t) (nominee : Nominee.t) :
  first_satisfying quotes nominee (find (BySlug.is_match nominee) quotes).
Proof. apply find_first, by_slug_is_match_spec. Qed.

Lemma kalshi_matcher_first (quotes : list Quote.t) (nominee : Nominee.t) :
  first_satisfying quotes nominee (find (Kalshi.is_match nominee) quotes).
Proof. apply find_first, kalshi_is_match_spec. Qed.

(** C2.  The by-slug matcher, and the Kalshi matcher with it, selects,
    for each nominee on its own, the first quote in list order that
    satisfies the rule, whatever better match the list holds further
    down: Tom Hanks takes the quote Hanks by
    the substring rule, Anna takes Anna ahead of Annabelle, and takes
    Annabelle when that quote comes first.  The bulk-search matcher lowers
    the case for the equality test only: its two substring tests are case
    sensitive, so for Tom Hanks it finds nothing in a list holding the
    quote hanks, which satisfies the rule. *)
Theorem bulk_matcher_substring_is_case_sensitive :
  (forall (quotes : list Quote.t) (nominee : Nominee.t),
     first_satisfying quotes nominee (find (BySlug.is_match nominee) quotes))
  /\ (forall (quotes : list Quote.t) (nominee : Nominee.t),
     first_satisfying quotes nominee (find (Kalshi.is_match nominee) quotes))
  /\ find (BySlug.is_match (Sample.stored "Tom Hanks")) [Sample.quote "Hanks" "+150"]
     = Some (Sample.quote "Hanks" "+150")
  /\ find (BySlug.is_match (Sample.stored "Anna"))
          [Sample.quote "Anna" "-120"; Sample.quote "Annabelle" "+300"]
     = Some (Sample.quote "Anna" "-120")
  /\ find (BySlug.is_match (Sample.stored "Anna"))
          [Sample.quote "Annabelle" "+300"; Sample.quote "Anna" "-120"]
     = Some (Sample.quote "Annabelle" "+300")
  /\ satisfies "Tom Hanks" "hanks"
  /\ find (BySlug.is_match (Sample.stored "Tom Hanks")) [Sample.quote "hanks" "+150"]
     = Some (Sample.quote "hanks" "+150")
  /\ find (BulkSearch.is_match (Sample.stored "Tom Hanks")) [Sample.quote "hanks" "+150"]
     = None.
Proof.
  split; [exact by_slug_matcher_first |].
  split; [exact kalshi_matcher_first |].
  repeat split; try reflexivity.
  right. left. now exists "tom ", "".
Qed.

End Matcher.

(* ================================================================== *)
(** * Properties of the category updates *)
(* ================================================================== *)

Section Updater.
Context (today : string).

Lemma map_refresh_framed source choose (l : list Nominee.t) :
  framed today source choose l (map (refresh today source choose) l).
Proof.
  split; [apply length_map |].
  intros i n Hi. exists (refresh today source choose n).
  change (map (refresh today source choose) l) with (refresh today source choose <$> l).
  rewrite list_lookup_fmap, Hi. split; [reflexivity |].
  unfold refresh. destruct (choose n) as [q |]; cbn.
  - repeat split; [| apply lookup_insert_eq].
    intros s Hs. now apply lookup_insert_ne.
  - repeat split.
Qed.

Lemma alter_update_frame source choose path (db : database) :
  update_frame today source choose path db (alter (map (refresh today source choose)) path db).
Proof.
  split.
  - intros other Hother. now apply lookup_alter_ne.
  - destruct (db !! path) as [l |] eqn:E; rewrite lookup_alter_eq, E; cbn; [| reflexivity].
    eexists. split; [reflexivity | apply map_refresh_framed].
Qed.

Lemma set_is_alter (f : list Nominee.t -> list Nominee.t) path (db : database) l :
  db !! path = Some l -> <[path := f l]> db = alter f path db.
Proof.
  intros Hl. apply map_eq. intros j. destruct (decide (path = j)) as [<- | Hne].
  - now rewrite lookup_insert_eq, lookup_alter_eq, Hl.
  - now rewrite lookup_insert_ne, lookup_alter_ne.
Qed.

Lemma apply_updates_app (a b : list (nat * field * string)) (l : list Nominee.t) :
  apply_updates (a ++ b) l = apply_updates b (apply_updates a l).
Proof. apply fold_left_app. Qed.

(** Applying a patch amounts to refreshing every nominee in place. *)
Lemma apply_patch source choose (l before : list Nominee.t) :
  apply_updates (patch_of today source choose l (length before)) (before ++ l)
  = (before ++ map (refresh today source choose) l)%list.
Proof.
  revert before. induction l as [| n l IH]; intros before; [reflexivity |].
  cbn [patch_of map]. rewrite apply_updates_app.
  assert (Hhead : apply_updates
            match choose n with
            | Some q => [(length before, OddsOf source, Quote.odds q);
                         (length before, LastUpdated, today)]
            | None => []
            end (before ++ n :: l)
          = ((before ++ [refresh today source choose n]) ++ l)%list).
  { unfold refresh. rewrite <- app_assoc.
    destruct (choose n) as [q |]; [| reflexivity].
    cbn [apply_updates fold_left].
    rewrite <- (Nat.add_0_r (length before)), !alter_app_r. reflexivity. }
  rewrite Hhead.
  replace (S (length before)) with (length (before ++ [refresh today source choose n]))
    by (rewrite length_app; cbn; lia).
  rewrite IH, <- app_assoc. reflexivity.
Qed.

Lemma patch_of_nil source choose (l : list Nominee.t) index :
  patch_of today source choose l index = [] ->
  map (refresh today source choose) l = l.
Proof.
  revert index. induction l as [| n l IH]; intros index; [reflexivity |].
  cbn [patch_of map]. unfold refresh at 1.
  destruct (choose n); [discriminate |]. cbn [app]. intros Hnil.
  f_equal. exact (IH _ Hnil).
Qed.

Lemma patch_of_keys source choose (l : list Nominee.t) index i f v :
  In (i, f, v) (patch_of today source choose l index) ->
  index <= i
  /\ exists (n : Nominee.t) (q : Quote.t),
       l !! (i - index) = Some n /\ choose n = Some q
       /\ ((f = OddsOf source /\ v = Quote.odds q) \/ (f = LastUpdated /\ v = today)).
Proof.
  revert index. induction l as [| n l IH]; intros index; [intros [] |].
  cbn [patch_of]. rewrite in_app_iff. intros [Hhead | Htail].
  - destruct (choose n) as [q |] eqn:E; [| destruct Hhead].
    assert (i = index /\ ((f = OddsOf source /\ v = Quote.odds q)
                          \/ (f = LastUpdated /\ v = today))) as [-> Hfv].
    { destruct Hhead as [E1 | [E1 | []]]; injection E1 as <- <- <-; auto. }
    split; [lia |]. exists n, q. rewrite Nat.sub_diag. auto.
  - destruct (IH _ Htail) as (Hle & n' & q & Hn' & Hq & Hfv).
    split; [lia |]. exists n', q. repeat split; auto.
    replace (i - index) with (S (i - S index)) by lia. exact Hn'.
Qed.

Lemma patch_of_NoDup source choose (l : list Nominee.t) index :
  NoDup (map fst (patch_of today source choose l index)).
Proof.
  revert index. induction l as [| n l IH]; intros index; [constructor |].
  cbn [patch_of]. rewrite map_app. apply NoDup_app. repeat split.
  - destruct (choose n); cbn; [| constructor].
    constructor; [| constructor; [| constructor]]; rewrite ?list_elem_of_In; cbn;
      intuition congruence.
  - intros [i f] Hin Hin'. rewrite list_elem_of_In in Hin, Hin'.
    apply in_map_iff in Hin' as ([[i' f'] v] & E & Hin'). cbn in E. injection E as -> ->.
    apply patch_of_keys in Hin' as [Hle _].
    destruct (choose n); cbn in Hin; [| destruct Hin].
    destruct Hin as [E | [E | []]]; injection E as <- _; lia.
  - apply IH.
Qed.

Lemma patch_keys_of_matches source choose (l : list Nominee.t) :
  keys_of_matches today source choose l (patch_of today source choose l 0).
Proof.
  split; [apply patch_of_NoDup |].
  intros i f v Hin. apply patch_of_keys in Hin as (_ & n & q & Hn & Hq & Hfv).
  rewrite Nat.sub_0_r in Hn. now exists n, q.
Qed.

Section Variants.
Context `{Platform} (fetch : network).

Lemma by_slug_forEach (quotes : list Quote.t) (l : list Nominee.t) index st :
  BySlug.updates (forEach (BySlug.visit today quotes) l index st)
  = (BySlug.updates st
     ++ patch_of today "polymarket" (fun n => find (BySlug.is_match n) quotes) l index)%list.
Proof.
  revert index st. induction l as [| n l IH]; intros index st; cbn [forEach patch_of].
  - now rewrite app_nil_r.
  - rewrite IH. unfold BySlug.visit.
    destruct (find (BySlug.is_match n) quotes); cbn [BySlug.updates];
      now rewrite <- ?app_assoc.
Qed.

Lemma kalshi_forEach (quotes : list Quote.t) (l : list Nominee.t) index st :
  Kalshi.updates (forEach (Kalshi.visit today quotes) l index st)
  = (Kalshi.updates st
     ++ patch_of today "kalshi" (fun n => find (Kalshi.is_match n) quotes) l index)%list.
Proof.
  revert index st. induction l as [| n l IH]; intros index st; cbn [forEach patch_of].
  - now rewrite app_nil_r.
  - rewrite IH. unfold Kalshi.visit.
    destruct (find (Kalshi.is_match n) quotes); cbn [Kalshi.updates];
      now rewrite <- ?app_assoc.
Qed.

Lemma by_slug_writes slug firebasePath categoryName (db : database) :
  BySlug.updateCategory fetch today slug firebasePath categoryName db
  = patch_writes today "polymarket"
      (fun n => find (BySlug.is_match n) (BySlug.fetchPolymarketData fetch slug))
      (BySlug.fetchPolymarketData fetch slug) (firebasePath +:+ "/nominees") db.
Proof.
  unfold BySlug.updateCategory, patch_writes.
  destruct (BySlug.fetchPolymarketData fetch slug) as [| q quotes]; [reflexivity |].
  cbn [length Nat.eqb]. destruct (db !! _) as [l |]; [| reflexivity].
  rewrite by_slug_forEach. cbn [BySlug.updates app].
  now destruct (patch_of today _ _ l 0).
Qed.

Lemma kalshi_writes ticker firebasePath categoryName (db : database) :
  Kalshi.updateCategory fetch today ticker firebasePath categoryName db
  = patch_writes today "kalshi"
      (fun n => find (Kalshi.is_match n) (Kalshi.fetchKalshiData fetch ticker))
      (Kalshi.fetchKalshiData fetch ticker) (firebasePath +:+ "/nominees") db.
Proof.
  unfold Kalshi.updateCategory, patch_writes.
  destruct (Kalshi.fetchKalshiData fetch ticker) as [| q quotes]; [reflexivity |].
  cbn [length Nat.eqb]. destruct (db !! _) as [l |]; [| reflexivity].
  rewrite kalshi_forEach. cbn [Kalshi.updates app].
  now destruct (patch_of today _ _ l 0).
Qed.

(** With no quotes nothing is chosen, so refreshing changes nothing. *)
Lemma patch_writes_effect source (quotes : list Quote.t) (is_match : Nominee.t -> Quote.t -> bool)
    path (db : database) :
  apply_writes db (patch_writes today source (fun n => find (is_match n) quotes) quotes path db)
  = alter (map (refresh today source (fun n => find (is_match n) quotes))) path db.
Proof.
  unfold patch_writes. destruct quotes as [| q quotes].
  - cbn [apply_writes fold_left]. symmetry. apply alter_id.
    intros l _. induction l as [| n l IH]; [reflexivity |].
    cbn [map]. rewrite IH. reflexivity.
  - set (choose := fun n => find (is_match n) (q :: quotes)).
    destruct (db !! path) as [l |] eqn:E.
    + pose proof (apply_patch source choose l []) as Hpatch. cbn [length app] in Hpatch.
      destruct (patch_of today source choose l 0) as [| u updates] eqn:Eu.
      * cbn [apply_writes fold_left]. symmetry. apply alter_id.
        intros l' El'. assert (l' = l) as -> by congruence.
        exact (patch_of_nil _ _ _ _ Eu).
      * cbn [apply_writes fold_left apply_write]. apply alter_ext.
        intros l' El'. assert (l' = l) as -> by congruence. exact Hpatch.
    + cbn [apply_writes fold_left]. symmetry. now apply alter_id'.
Qed.

Lemma patch_writes_keys source choose (quotes : list Quote.t) path (db : database) w :
  In w (patch_writes today source choose quotes path db) ->
  exists l updates,
    db !! path = Some l /\ w = RefUpdate path updates
    /\ keys_of_matches today source choose l updates.
Proof.
  unfold patch_writes. destruct quotes as [| q quotes]; [intros [] |].
  destruct (db !! path) as [l |]; [| intros []].
  destruct (patch_of today source choose l 0) as [| u updates] eqn:Eu; [intros [] |].
  intros [<- | []]. exists l, (u :: updates). repeat split; try reflexivity.
  - rewrite <- Eu. apply patch_of_NoDup.
  - rewrite <- Eu. apply patch_keys_of_matches.
Qed.

(** The writes of the replace-based bulk update, given the quotes extracted. *)
Lemma bulk_writes search firebasePath category allMarkets (db : database) quotes :
  BulkSearch.extractNominees allMarkets search = Ok quotes ->
  BulkSearch.updateCategory today (search, firebasePath, category) allMarkets db
  = Ok match quotes, default [] (db !! (firebasePath +:+ "/nominees")) with
       | _ :: _, (_ :: _) as l =>
           [RefSet (firebasePath +:+ "/nominees")
              (map (refresh today "polymarket" (fun n => find (BulkSearch.is_match n) quotes)) l)]
       | _, _ => []
       end.
Proof.
  intros E. unfold BulkSearch.updateCategory. rewrite E. cbn [bind].
  destruct quotes as [| q quotes]; [reflexivity |]. cbn [length Nat.eqb].
  now destruct (default [] (db !! _)).
Qed.

Lemma bulk_writes_effect (quotes : list Quote.t) path (db : database) :
  apply_writes db
    match quotes, default [] (db !! path) with
    | _ :: _, (_ :: _) as l =>
        [RefSet path
           (map (refresh today "polymarket" (fun n => find (BulkSearch.is_match n) quotes)) l)]
    | _, _ => []
    end
  = alter (map (refresh today "polymarket" (fun n => find (BulkSearch.is_match n) quotes))) path db.
Proof.
  destruct quotes as [| q quotes].
  - cbn [apply_writes fold_left]. symmetry. apply alter_id.
    intros l _. induction l as [| n l IH]; [reflexivity |].
    cbn [map]. rewrite IH. reflexivity.
  - destruct (db !! path) as [[| n l] |] eqn:E; cbn [default from_option id].
    + cbn [apply_writes fold_left]. symmetry. apply alter_id.
      intros l' El'. assert (l' = []) as -> by congruence. reflexivity.
    + cbn [apply_writes fold_left apply_write]. now apply set_is_alter.
    + cbn [apply_writes fold_left]. symmetry. now apply alter_id'.
Qed.

(** C3.  A category update, patch-based (by slug, Kalshi) or replace-based
    (bulk search), leaves every other path alone and creates nothing; at the
    path it keeps the length and order of the list and, nominee by nominee,
    the name and every field but the odds of its source and the date, which
    it sets exactly for a nominee that has a matching quote; a nominee
    without one is unchanged.  The patch-based variants write only those
    two locations, once each, so one quote at most reaches a nominee. *)
Theorem category_update_frame :
  (forall slug firebasePath categoryName (db : database),
     let path := firebasePath +:+ "/nominees" in
     let choose := fun n =>
       find (BySlug.is_match n) (BySlug.fetchPolymarketData fetch slug) in
     let ws := BySlug.updateCategory fetch today slug firebasePath categoryName db in
     update_frame today "polymarket" choose path db (apply_writes db ws)
     /\ forall w, In w ws ->
          exists l updates, db !! path = Some l /\ w = RefUpdate path updates
                            /\ keys_of_matches today "polymarket" choose l updates)
  /\ (forall ticker firebasePath categoryName (db : database),
     let path := firebasePath +:+ "/nominees" in
     let choose := fun n =>
       find (Kalshi.is_match n) (Kalshi.fetchKalshiData fetch ticker) in
     let ws := Kalshi.updateCategory fetch today ticker firebasePath categoryName db in
     update_frame today "kalshi" choose path db (apply_writes db ws)
     /\ forall w, In w ws ->
          exists l updates, db !! path = Some l /\ w = RefUpdate path updates
                            /\ keys_of_matches today "kalshi" choose l updates)
  /\ (forall search firebasePath category allMarkets (db : database) quotes,
     BulkSearch.extractNominees allMarkets search = Ok quotes ->
     let path := firebasePath +:+ "/nominees" in
     let choose := fun n => find (BulkSearch.is_match n) quotes in
     exists ws,
       BulkSearch.updateCategory today (search, firebasePath, category) allMarkets db = Ok ws
       /\ update_frame today "polymarket" choose path db (apply_writes db ws)
       /\ forall w, In w ws ->
            exists l, db !! path = Some l
                      /\ w = RefSet path (map (refresh today "polymarket" choose) l)).
Proof.
  split; [| split].
  - intros slug firebasePath categoryName db path choose ws. subst ws.
    rewrite by_slug_writes. split.
    + rewrite patch_writes_effect. apply alter_update_frame.
    + apply patch_writes_keys.
  - intros ticker firebasePath categoryName db path choose ws. subst ws.
    rewrite kalshi_writes. split.
    + rewrite patch_writes_effect. apply alter_update_frame.
    + apply patch_writes_keys.
  - intros search firebasePath category allMarkets db quotes E path choose.
    eexists. split; [exact (bulk_writes _ _ _ _ _ _ E) | split].
    + fold path. rewrite bulk_writes_effect. apply alter_update_frame.
    + fold path. destruct quotes as [| q quotes]; [intros w [] |].
      destruct (db !! path) as [[| n l] |] eqn:El; cbn [default from_option id];
        intros w Hw; cbn [In] in Hw; try contradiction.
      destruct Hw as [<- | []]. now exists (n :: l).
Qed.

(** C10.  With quotes fetched and nominees stored but no nominee matching
    any quote, the stored list stays as it was: a patch-based update
    collects no key and issues no write, a replace-based one writes back
    the list it read. *)
Theorem update_without_match :
  (forall slug firebasePath categoryName (db : database) l,
     BySlug.fetchPolymarketData fetch slug <> [] ->
     db !! (firebasePath +:+ "/nominees") = Some l -> l <> [] ->
     (forall n, In n l ->
        find (BySlug.is_match n) (BySlug.fetchPolymarketData fetch slug) = None) ->
     BySlug.updateCategory fetch today slug firebasePath categoryName db = [])
  /\ (forall ticker firebasePath categoryName (db : database) l,
     Kalshi.fetchKalshiData fetch ticker <> [] ->
     db !! (firebasePath +:+ "/nominees") = Some l -> l <> [] ->
     (forall n, In n l ->
        find (Kalshi.is_match n) (Kalshi.fetchKalshiData fetch ticker) = None) ->
     Kalshi.updateCategory fetch today ticker firebasePath categoryName db = [])
  /\ (forall search firebasePath category allMarkets (db : database) quotes l,
     BulkSearch.extractNominees allMarkets search = Ok quotes -> quotes <> [] ->
     db !! (firebasePath +:+ "/nominees") = Some l -> l <> [] ->
     (forall n, In n l -> find (BulkSearch.is_match n) quotes = None) ->
     BulkSearch.updateCategory today (search, firebasePath, category) allMarkets db
     = Ok [RefSet (firebasePath +:+ "/nominees") l]
     /\ apply_writes db [RefSet (firebasePath +:+ "/nominees") l] = db).
Proof.
  assert (Hpatch : forall source choose (l : list Nominee.t) index,
            (forall n, In n l -> choose n = None) -> patch_of today source choose l index = []).
  { intros source choose l. induction l as [| n l IH]; intros index Hnone; [reflexivity |].
    cbn [patch_of]. rewrite (Hnone n) by now left.
    apply IH. intros n' Hn'. apply Hnone. now right. }
  assert (Hmap : forall source choose (l : list Nominee.t),
            (forall n, In n l -> choose n = None) -> map (refresh today source choose) l = l).
  { intros source choose l Hnone. eapply patch_of_nil. now apply (Hpatch source choose l 0). }
  split; [| split].
  - intros slug firebasePath categoryName db l Hquotes Hl _ Hnone.
    rewrite by_slug_writes. unfold patch_writes. rewrite Hl.
    destruct (BySlug.fetchPolymarketData fetch slug); [congruence |].
    now rewrite Hpatch.
  - intros ticker firebasePath categoryName db l Hquotes Hl _ Hnone.
    rewrite kalshi_writes. unfold patch_writes. rewrite Hl.
    destruct (Kalshi.fetchKalshiData fetch ticker); [congruence |].
    now rewrite Hpatch.
  - intros search firebasePath category allMarkets db quotes l E Hquotes Hl Hne Hnone.
    split.
    + rewrite (bulk_writes _ _ _ _ _ _ E), Hl. cbn [default from_option id].
      destruct quotes; [congruence |]. destruct l; [congruence |].
      now rewrite Hmap.
    + cbn [apply_writes fold_left apply_write]. now apply insert_id.
Qed.

End Variants.
End Updater.

(* ================================================================== *)
(** * Properties of the deny-list *)
(* ================================================================== *)

Section Denylist.

Lemma upper_lower (a : ascii) : upper_ascii (lower_ascii a) = upper_ascii a.
Proof. destruct a as [[] [] [] [] [] [] [] []]; reflexivity. Qed.

Lemma lower_lower (a : ascii) : lower_ascii (lower_ascii a) = lower_ascii a.
Proof. destruct a as [[] [] [] [] [] [] [] []]; reflexivity. Qed.

Lemma lower_or_upper (a : ascii) : lower_ascii a = a \/ upper_ascii a = a.
Proof.
  destruct a as [[] [] [] [] [] [] [] []];
    first [left; reflexivity | right; reflexivity].
Qed.

(** Under the [i] flag the matcher does not see the case of its input. *)
Lemma deriv_lower (a : ascii) (r : regex) :
  deriv true (lower_ascii a) r = deriv true a r.
Proof.
  induction r as [| | c | lo hi | r1 IH1 r2 IH2 | r1 IH1 r2 IH2]; cbn [deriv];
    try reflexivity.
  - unfold chr_matches. now rewrite upper_lower.
  - unfold range_matches. rewrite upper_lower, lower_lower.
    destruct (lower_or_upper a) as [E | E]; rewrite E; [reflexivity |].
    destruct (between lo hi a), (between lo hi (lower_ascii a)); reflexivity.
  - now rewrite IH1, IH2.
  - now rewrite IH1, IH2.
Qed.

Lemma matches_lower (r : regex) (s : string) :
  matches true r (toLowerCase s) = matches true r s.
Proof.
  revert r. induction s as [| a s IH]; intros r; [reflexivity |].
  cbn [toLowerCase matches]. now rewrite deriv_lower, IH.
Qed.

Lemma placeholder_denied (name : string) :
  In (toLowerCase name) placeholder_names ->
  matches true Polymarket.placeholder name = true.
Proof.
  intros Hin. rewrite <- matches_lower.
  assert (Hall : forallb (matches true Polymarket.placeholder) placeholder_names = true)
    by (vm_compute; reflexivity).
  rewrite forallb_forall in Hall. exact (Hall _ Hin).
Qed.

Lemma try_catch_Some {A} (m : result (option A)) (x : A) :
  try_catch m (fun _ => None) = Some x -> m = Ok (Some x).
Proof. destruct m as [[y |] | e]; cbn; congruence. Qed.

Section Adapters.
Context `{Platform} (fetch : network).

Lemma by_slug_market_not_placeholder (market : value) (q : Quote.t) :
  BySlug.market_nominee market = Ok (Some q) ->
  matches true Polymarket.placeholder (Quote.name q) = false.
Proof.
  unfold BySlug.market_nominee.
  destruct (get market "outcomePrices") as [[| | | | s | |] | e]; cbn [bind]; try discriminate.
  destruct (JSON_parse_or_throw (VStr s)) as [prices | e]; cbn [bind]; [| discriminate].
  destruct (first prices) as [price | e]; cbn [bind]; [| discriminate].
  destruct (get market "groupItemTitle") as [name | e]; cbn [bind]; [| discriminate].
  destruct (truthy name); [| discriminate].
  destruct (String_method name) as [t | e]; cbn [bind]; [| discriminate].
  destruct (matches true Polymarket.placeholder t) eqn:E; cbn [negb]; [discriminate |].
  intros [= <-]. exact E.
Qed.

Lemma bulk_market_not_placeholder (market : value) (q : Quote.t) :
  BulkSearch.market_nominee market = Ok (Some q) ->
  matches true Polymarket.placeholder (Quote.name q) = false.
Proof.
  unfold BulkSearch.market_nominee.
  destruct (get market "outcomes") as [o | e]; cbn [bind]; [| discriminate].
  destruct (BulkSearch.parse_if_present o) as [outcomes | e]; cbn [bind]; [| discriminate].
  destruct (get market "outcomePrices") as [p | e]; cbn [bind]; [| discriminate].
  destruct (BulkSearch.parse_if_present p) as [prices | e]; cbn [bind]; [| discriminate].
  destruct (get market "groupItemTitle") as [title | e]; cbn [bind]; [| discriminate].
  match goal with |- bind ?m _ = _ -> _ => destruct m as [name | e] end;
    cbn [bind]; [| discriminate].
  destruct (truthy name); [| discriminate].
  destruct (length_of prices) as [n | e]; cbn [bind]; [| discriminate].
  destruct (positive n); [| discriminate].
  destruct (first prices) as [price | e]; cbn [bind]; [| discriminate].
  destruct (String_method name) as [t | e]; cbn [bind]; [| discriminate].
  destruct (matches true Polymarket.placeholder t) eqn:E; cbn [negb]; [discriminate |].
  intros [= <-]. exact E.
Qed.

Lemma omap_try_catch_In {A} (f : value -> result (option A)) (items : list value) (x : A) :
  In x (omap (fun market => try_catch (f market) (fun _ => None)) items) ->
  exists market, In market items /\ f market = Ok (Some x).
Proof.
  rewrite <- list_elem_of_In, list_elem_of_omap.
  intros (market & Hin & E). exists market.
  split; [now apply list_elem_of_In | now apply try_catch_Some].
Qed.

(** No quote of the by-slug adapter carries a placeholder name. *)
Lemma by_slug_excludes_placeholders (slug : string) (q : Quote.t) :
  In q (BySlug.fetchPolymarketData fetch slug) ->
  matches true Polymarket.placeholder (Quote.name q) = false.
Proof.
  unfold BySlug.fetchPolymarketData.
  destruct (fetch _) as [| ok text]; cbn [try_catch]; [intros [] |].
  destruct (JSON_parse_or_throw (VStr text)) as [data | e]; cbn [bind try_catch]; [| intros []].
  destruct data as [| | | | | [| event rest] |]; cbn [try_catch]; try (intros []).
  destruct (get event "markets") as [markets | e]; cbn [bind try_catch]; [| intros []].
  destruct (for_of markets) as [items | e]; cbn [bind try_catch]; [| intros []].
  intros Hin. apply omap_try_catch_In in Hin as (market & _ & E).
  exact (by_slug_market_not_placeholder _ _ E).
Qed.

Lemma insert_In (x y : Quote.t) (l : list Quote.t) :
  In y (BulkSearch.insert x l) -> y = x \/ In y l.
Proof.
  induction l as [| z l IH]; cbn [BulkSearch.insert].
  - intros [<- | []]. now left.
  - destruct (positive _); cbn [In]; intuition.
Qed.

Lemma sort_In (y : Quote.t) (l : list Quote.t) : In y (BulkSearch.sort l) -> In y l.
Proof.
  induction l as [| x l IH]; cbn; [trivial |].
  intros Hin. apply insert_In in Hin as [-> | Hin]; auto.
Qed.

(** Nor does a quote of the bulk-search adapter. *)
Lemma bulk_excludes_placeholders markets categorySearch quotes (q : Quote.t) :
  BulkSearch.extractNominees markets categorySearch = Ok quotes ->
  In q quotes ->
  matches true Polymarket.placeholder (Quote.name q) = false.
Proof.
  unfold BulkSearch.extractNominees.
  destruct (filterM _ markets) as [categoryMarkets | e]; cbn [bind]; [| discriminate].
  destruct (length categoryMarkets =? 0)%nat; intros [= <-]; [intros [] |].
  intros Hin. apply sort_In, omap_try_catch_In in Hin as (market & _ & E).
  exact (bulk_market_not_placeholder _ _ E).
Qed.

(** The legacy script never returns a quote: where the data is not empty
    it reads the undeclared [event]. *)
Lemma legacy_returns_nothing (slug : string) :
  SlugLegacy.fetchPolymarketData fetch slug = [].
Proof.
  unfold SlugLegacy.fetchPolymarketData.
  destruct (fetch _) as [| ok body]; [reflexivity |].
  destruct (JSON_parse_or_throw (VStr body)) as [data | e]; [| reflexivity].
  cbn [bind]. destruct (truthy data); cbn [negb orb].
  - destruct (length_of data) as [len | e]; [| reflexivity].
    cbn [bind]. now destruct (is_zero len).
  - reflexivity.
Qed.

End Adapters.
End Denylist.

Section DenylistClaim.

(** C5.  The full deny-list matches other and every prefix followed by one
    letter, in any case, and not Dune: Part Two; no quote returned by the
    by-slug adapter or by the bulk-search adapter has a name it matches,
    and both keep Dune: Part Two.  The replace script of the same file
    filters with the shorter pattern [/^(Other|Film [A-Z])$/i] and returns
    the markets named Movie A and actor b; the legacy script returns no
    quote at all, Dune: Part Two included. *)
Theorem replace_script_keeps_placeholder_names :
  (forall name : string,
     In (toLowerCase name) placeholder_names ->
     matches true Polymarket.placeholder name = true)
  /\ matches true Polymarket.placeholder "Dune: Part Two" = false
  /\ (forall (P : Platform) (fetch : network) (slug : string) (q : Quote.t),
        In q (BySlug.fetchPolymarketData fetch slug) ->
        matches true Polymarket.placeholder (Quote.name q) = false)
  /\ (forall (P : Platform) markets categorySearch quotes (q : Quote.t),
        BulkSearch.extractNominees markets categorySearch = Ok quotes ->
        In q quotes ->
        matches true Polymarket.placeholder (Quote.name q) = false)
  /\ BySlug.fetchPolymarketData
       (Sample.always (Response true (Sample.events Sample.placeholders_and_dune)))
       "oscars-2026-best-picture-winner"
     = [Quote.mk "Dune: Part Two" None "-150"]
  /\ BulkSearch.extractNominees Sample.listing Sample.best_picture
     = Ok [Quote.mk "Dune: Part Two" (Some (Fin 0.6)) "-150"]
  /\ SlugReplace.fetchCategory
       (Sample.always (Response true (Sample.events Sample.placeholders_and_dune)))
       "oscars-2026-best-picture-winner" "oscars/best-picture"
     = Some [Quote.mk "Movie A" (Some (Fin 0.3)) "+233";
             Quote.mk "Dune: Part Two" (Some (Fin 0.6)) "-150";
             Quote.mk "actor b" (Some (Fin 0.2)) "+400"]
  /\ (forall (P : Platform) (fetch : network) (slug : string),
        SlugLegacy.fetchPolymarketData fetch slug = []).
Proof.
  split; [exact placeholder_denied |].
  split; [reflexivity |].
  split; [intros P; apply by_slug_excludes_placeholders |].
  split; [intros P; apply bulk_excludes_placeholders |].
  split; [vm_compute; reflexivity |].
  split; [vm_compute; reflexivity |].
  split; [vm_compute; reflexivity |].
  intros P. apply legacy_returns_nothing.
Qed.

End DenylistClaim.

(* ================================================================== *)
(** * Malformed market entries *)
(* ================================================================== *)

Section Malformed.
Context `{Platform} (fetch : network).

Lemma by_slug_quotes_of_event slug ok text event rest items :
  fetch (Polymarket.events_url slug) = Response ok text ->
  JSON_parse (VStr text) = Some (VArr (event :: rest)) ->
  get event "markets" = Ok (VArr items) ->
  BySlug.fetchPolymarketData fetch slug = by_slug_quotes items.
Proof.
  intros Hfetch Hparse Hmarkets. unfold BySlug.fetchPolymarketData, JSON_parse_or_throw.
  now rewrite Hfetch, Hparse; cbn [bind]; rewrite Hmarkets.
Qed.

Lemma by_slug_skips_malformed (market : value) :
  malformed market ->
  try_catch (BySlug.market_nominee market) (fun _ => None) = None.
Proof.
  unfold BySlug.market_nominee, JSON_parse_or_throw. intros [(s & Hprices & Hparse) | Hname].
  - now rewrite Hprices; cbn [bind]; rewrite Hparse.
  - destruct (get market "outcomePrices") as [[| | | | s | |] | e]; try reflexivity.
    cbn [bind]. destruct (JSON_parse (VStr s)) as [prices |]; [| reflexivity].
    cbn [bind]. destruct (first prices) as [price | e]; [| reflexivity].
    cbn [bind]. now rewrite Hname.
Qed.

Lemma mapM_throws {A B} (f : A -> result B) (l : list A) (x : A) (e : exn) :
  In x l -> f x = Throw e -> exists e', mapM f l = Throw e'.
Proof.
  induction l as [| y l IH]; [intros [] |].
  intros [-> | Hin] Hx; cbn [mapM].
  - rewrite Hx. now exists e.
  - destruct (f y) as [b | e0]; [| now exists e0].
    destruct (IH Hin Hx) as [e' ->]. now exists e'.
Qed.

(** In the replace script one market with unparseable prices costs the
    whole batch. *)
Lemma replace_script_loses_batch slug firebasePath ok text event rest items bad s :
  fetch (Polymarket.events_url slug) = Response ok text ->
  JSON_parse (VStr text) = Some (VArr (event :: rest)) ->
  get event "markets" = Ok (VArr items) ->
  In bad items ->
  get bad "outcomePrices" = Ok (VStr s) -> JSON_parse (VStr s) = None ->
  SlugReplace.fetchCategory fetch slug firebasePath = None.
Proof.
  intros Hfetch Hparse Hmarkets Hin Hprices Hbad.
  unfold SlugReplace.fetchCategory, JSON_parse_or_throw. rewrite Hfetch.
  destruct ok; [| reflexivity]. cbn [negb].
  destruct (String.eqb (trim text) ""); [reflexivity |].
  rewrite Hparse. cbn [bind].
  destruct (get event "title") as [title | e]; [| reflexivity].
  cbn [bind]. rewrite Hmarkets. cbn [bind].
  destruct items as [| m items]; [reflexivity |].
  assert (Hthrow : SlugReplace.market_entry bad = Throw SyntaxError).
  { unfold SlugReplace.market_entry, JSON_parse_or_throw.
    now rewrite Hprices; cbn [bind]; rewrite Hbad. }
  destruct (mapM_throws _ _ _ _ Hin Hthrow) as [e' ->]. reflexivity.
Qed.

Lemma filterM_app {A} (f : A -> result bool) (l1 l2 : list A) :
  filterM f (l1 ++ l2)
  = let* kept1 := filterM f l1 in let* kept2 := filterM f l2 in Ok (kept1 ++ kept2)%list.
Proof.
  induction l1 as [| x l1 IH]; cbn [filterM app bind].
  - now destruct (filterM f l2).
  - destruct (f x) as [b | e]; [| reflexivity]. cbn [bind]. rewrite IH.
    destruct (filterM f l1) as [kept1 | e]; [| reflexivity]. cbn [bind].
    destruct (filterM f l2) as [kept2 | e]; [| reflexivity]. cbn [bind].
    now destruct b.
Qed.

Lemma bulk_skips_unparseable (market : value) (s : string) :
  get market "outcomePrices" = Ok (VStr s) -> JSON_parse (VStr s) = None ->
  try_catch (BulkSearch.market_nominee market) (fun _ => None) = None.
Proof.
  intros Hprices Hparse. unfold BulkSearch.market_nominee.
  destruct (get market "outcomes") as [o | e]; [| reflexivity]. cbn [bind].
  destruct (BulkSearch.parse_if_present o) as [outcomes | e]; [| reflexivity]. cbn [bind].
  rewrite Hprices. cbn [bind]. unfold BulkSearch.parse_if_present at 1, JSON_parse_or_throw.
  rewrite Hparse. destruct (truthy (VStr s)); [reflexivity |]. cbn [bind].
  destruct (get market "groupItemTitle") as [title | e]; [| reflexivity]. cbn [bind].
  match goal with |- try_catch (bind ?m _) _ = _ => destruct m as [name | e] end;
    [| reflexivity].
  cbn [bind]. now destruct (truthy name).
Qed.

(** The bulk-search adapter skips a market with unparseable prices. *)
Lemma bulk_skips_malformed before bad after categorySearch (s : string) (b : bool) :
  get bad "outcomePrices" = Ok (VStr s) -> JSON_parse (VStr s) = None ->
  BulkSearch.in_category categorySearch bad = Ok b ->
  BulkSearch.extractNominees (before ++ bad :: after) categorySearch
  = BulkSearch.extractNominees (before ++ after) categorySearch.
Proof.
  intros Hprices Hparse Hcat. unfold BulkSearch.extractNominees.
  rewrite !filterM_app. cbn [filterM]. rewrite Hcat. cbn [bind].
  destruct (filterM _ before) as [kept1 | e]; [| reflexivity]. cbn [bind].
  destruct (filterM _ after) as [kept2 | e]; [| reflexivity]. cbn [bind].
  destruct b; [| reflexivity].
  rewrite !length_app. cbn [length].
  replace (length kept1 + S (length kept2) =? 0)%nat with false
    by (symmetry; apply Nat.eqb_neq; lia).
  rewrite !omap_app. cbn [omap list_omap].
  rewrite (bulk_skips_unparseable bad s Hprices Hparse).
  destruct (length kept1 + length kept2 =? 0)%nat eqn:E; [| reflexivity].
  apply Nat.eqb_eq in E. destruct kept1, kept2; cbn in E; try lia. reflexivity.
Qed.

End Malformed.

(** C7.  In the by-slug adapter a market entry with unparseable prices or
    without a name is skipped and the quotes of the markets before and
    after it are returned; the bulk-search adapter skips an entry with
    unparseable prices likewise.  In the replace script of the same file the
    markets are mapped with no handler of their own: one entry with
    unparseable prices makes [fetchCategory] return null, so the batch is
    lost; on the sample batch the by-slug adapter returns the quote of the
    well-formed market and the replace script returns null. *)
Theorem replace_script_drops_batch_on_malformed_market :
  (forall (P : Platform) (fetch : network) slug ok text event rest before bad after,
     fetch (Polymarket.events_url slug) = Response ok text ->
     JSON_parse (VStr text) = Some (VArr (event :: rest)) ->
     get event "markets" = Ok (VArr (before ++ bad :: after)) ->
     malformed bad ->
     BySlug.fetchPolymarketData fetch slug
     = (by_slug_quotes before ++ by_slug_quotes after)%list)
  /\ (forall (P : Platform) before bad after categorySearch (s : string) (b : bool),
     get bad "outcomePrices" = Ok (VStr s) -> JSON_parse (VStr s) = None ->
     BulkSearch.in_category categorySearch bad = Ok b ->
     BulkSearch.extractNominees (before ++ bad :: after) categorySearch
     = BulkSearch.extractNominees (before ++ after) categorySearch)
  /\ (forall (P : Platform) (fetch : network) slug firebasePath ok text event rest items bad s,
     fetch (Polymarket.events_url slug) = Response ok text ->
     JSON_parse (VStr text) = Some (VArr (event :: rest)) ->
     get event "markets" = Ok (VArr items) ->
     In bad items ->
     get bad "outcomePrices" = Ok (VStr s) -> JSON_parse (VStr s) = None ->
     SlugReplace.fetchCategory fetch slug firebasePath = None)
  /\ BySlug.fetchPolymarketData
       (Sample.always (Response true
          (Sample.events [Sample.unparseable; Sample.untitled; Sample.conclave])))
       "oscars-2026-best-picture-winner"
     = [Quote.mk "Conclave" None "-150"]
  /\ SlugReplace.fetchCategory
       (Sample.always (Response true
          (Sample.events [Sample.unparseable; Sample.untitled; Sample.conclave])))
       "oscars-2026-best-picture-winner" "oscars/best-picture"
     = None
  /\ SlugReplace.fetchCategory
       (Sample.always (Response true (Sample.events [Sample.untitled; Sample.conclave])))
       "oscars-2026-best-picture-winner" "oscars/best-picture"
     = Some [Quote.mk "Conclave" (Some (Fin 0.6)) "-150"].
Proof.
  split; [| split; [| split]].
  - intros P fetch slug ok text event rest before bad after Hfetch Hparse Hmarkets Hbad.
    rewrite (by_slug_quotes_of_event fetch slug ok text event rest _ Hfetch Hparse Hmarkets).
    unfold by_slug_quotes. rewrite omap_app. cbn [omap list_omap].
    now rewrite (by_slug_skips_malformed bad Hbad).
  - intros P. apply bulk_skips_malformed.
  - intros P. apply replace_script_loses_batch.
  - repeat split; vm_compute; reflexivity.
Qed.

Lemma replace_script_drops_batch_on_malformed_market_witness :
  BySlug.fetchPolymarketData
    (Sample.always (Response true
       (Sample.events [Sample.conclave; Sample.unparseable; Sample.conclave])))
    "oscars-2026-best-picture-winner"
  = [Quote.mk "Conclave" None "-150"; Quote.mk "Conclave" None "-150"].
Proof.
  rewrite (proj1 replace_script_drops_batch_on_malformed_market reference_platform
             (Sample.always (Response true
                (Sample.events [Sample.conclave; Sample.unparseable; Sample.conclave])))
             "oscars-2026-best-picture-winner" true
             (Sample.events [Sample.conclave; Sample.unparseable; Sample.conclave])
             (VObj [("title", VStr "Oscars 2026");
                    ("markets", VArr [Sample.conclave; Sample.unparseable; Sample.conclave])])
             [] [Sample.conclave] Sample.unparseable [Sample.conclave]).
  - vm_compute. reflexivity.
  - reflexivity.
  - vm_compute. reflexivity.
  - reflexivity.
  - left. exists "not json". split; [reflexivity | vm_compute; reflexivity].
Defined.

(* ================================================================== *)
(** * Transport failures *)
(* ================================================================== *)

Section Transport.
Context `{Platform} (fetch : network) (today : string).

Lemma unparseable_body (body : string) :
  body = "" \/ JSON_parse (VStr body) = None -> JSON_parse (VStr body) = None.
Proof. intros [-> | E]; [apply JSON_parse_empty | exact E]. Qed.

Lemma kalshi_transport_failure (seriesTicker : string) :
  transport_failure (fetch (Kalshi.markets_url seriesTicker)) ->
  Kalshi.fetchKalshiData fetch seriesTicker = [].
Proof.
  unfold Kalshi.fetchKalshiData, transport_failure, JSON_parse_or_throw.
  destruct (fetch _) as [| ok body]; [reflexivity |].
  destruct ok; [| reflexivity]. intros [Hok | Hbody]; [discriminate |].
  now rewrite (unparseable_body body Hbody).
Qed.

Lemma by_slug_no_readable_body (slug : string) :
  no_readable_body (fetch (Polymarket.events_url slug)) ->
  BySlug.fetchPolymarketData fetch slug = [].
Proof.
  unfold BySlug.fetchPolymarketData, no_readable_body, JSON_parse_or_throw.
  destruct (fetch _) as [| ok body]; [reflexivity |].
  intros Hbody. now rewrite (unparseable_body body Hbody).
Qed.

Lemma page_transport_failure (offset : Z) (allMarkets : list value) :
  transport_failure (fetch (BulkSearch.markets_url offset)) ->
  exists e, BulkSearch.page fetch offset allMarkets = BulkSearch.Raise e.
Proof.
  unfold BulkSearch.page, transport_failure.
  destruct (fetch _) as [| ok body]; [now exists FetchError |].
  destruct ok; [| now exists HttpError]. intros [Hok | Hbody]; [discriminate |].
  rewrite (unparseable_body body Hbody). now exists SyntaxError.
Qed.

(** A failure at any page the loop requests ends it with an exception. *)
Lemma paginate_transport_failure (offset : Z) (allMarkets : list value) (o : Z) :
  In o (fst (BulkSearch.paginate (BulkSearch.page fetch) offset allMarkets)) ->
  transport_failure (fetch (BulkSearch.markets_url o)) ->
  exists e, snd (BulkSearch.paginate (BulkSearch.page fetch) offset allMarkets) = Throw e.
Proof.
  intros Hin Hfail. revert Hin.
  funelim (BulkSearch.paginate (BulkSearch.page fetch) offset allMarkets);
    cbn [BulkSearch.logged fst snd In].
  - intros [<- | []].
    destruct (page_transport_failure offset allMarkets Hfail) as [e' E]. congruence.
  - intros _. now exists e.
  - intros [<- | Hin].
    + destruct (page_transport_failure offset allMarkets Hfail) as [e' E]. congruence.
    + match goal with IH : forall _ : Z, _ |- _ => exact (IH o Hfail Hin) end.
  - intros [<- | []].
    destruct (page_transport_failure offset allMarkets Hfail) as [e' E]. congruence.
Qed.

Lemma bulk_transport_failure (o : Z) :
  In o (BulkSearch.requests fetch) ->
  transport_failure (fetch (BulkSearch.markets_url o)) ->
  BulkSearch.fetchAllOscarsMarkets fetch = [].
Proof.
  intros Hin Hfail. unfold BulkSearch.fetchAllOscarsMarkets, BulkSearch.pages.
  destruct (paginate_transport_failure 0 [] o Hin Hfail) as [e ->]. reflexivity.
Qed.

End Transport.

(** C4.  On a transport failure the Kalshi adapter returns no quote, and
    so does the bulk-search adapter when any page it requests fails; the
    category update that follows issues no write, and the bulk run ends
    with status 0 and the database untouched.  The by-slug adapter returns
    no quote when the request is rejected or the body is empty or not JSON,
    but it never reads the status of the response: on a response with a
    failure status and a well-formed body it returns the quotes of that
    body, and the update writes them. *)
Theorem by_slug_adapter_ignores_status :
  (forall (P : Platform) (fetch : network) today ticker firebasePath categoryName
          (db : database),
     transport_failure (fetch (Kalshi.markets_url ticker)) ->
     Kalshi.fetchKalshiData fetch ticker = []
     /\ Kalshi.updateCategory fetch today ticker firebasePath categoryName db = []
     /\ forall cats,
          Kalshi.run fetch today ((ticker, firebasePath, categoryName) :: cats) db
          = Kalshi.run fetch today cats db)
  /\ (forall (P : Platform) (fetch : network) today (db : database) (o : Z),
     In o (BulkSearch.requests fetch) ->
     transport_failure (fetch (BulkSearch.markets_url o)) ->
     BulkSearch.fetchAllOscarsMarkets fetch = []
     /\ BulkSearch.main fetch today db = (0%Z, db))
  /\ (forall (P : Platform) (fetch : network) today slug firebasePath categoryName
          (db : database),
     no_readable_body (fetch (Polymarket.events_url slug)) ->
     BySlug.fetchPolymarketData fetch slug = []
     /\ BySlug.updateCategory fetch today slug firebasePath categoryName db = []
     /\ forall cats,
          BySlug.run fetch today ((slug, firebasePath, categoryName) :: cats) db
          = BySlug.run fetch today cats db)
  /\ transport_failure (Response false (Sample.events [Sample.conclave]))
  /\ BySlug.fetchPolymarketData
       (Sample.always (Response false (Sample.events [Sample.conclave])))
       "oscars-2026-best-picture-winner"
     = [Quote.mk "Conclave" None "-150"]
  /\ BySlug.updateCategory
       (Sample.always (Response false (Sample.events [Sample.conclave])))
       "2026-03-01" "oscars-2026-best-picture-winner" "oscars/picture" "Best Picture"
       {[ "oscars/picture/nominees" := [Sample.stored "Conclave"] ]}
     = [RefUpdate "oscars/picture/nominees"
          [(0%nat, OddsOf "polymarket", "-150"); (0%nat, LastUpdated, "2026-03-01")]].
Proof.
  split; [| split; [| split]].
  - intros P fetch today ticker firebasePath categoryName db Hfail.
    pose proof (kalshi_transport_failure fetch ticker Hfail) as E.
    assert (Hnone : Kalshi.updateCategory fetch today ticker firebasePath categoryName db = [])
      by (unfold Kalshi.updateCategory; now rewrite E).
    split; [exact E |]. split; [exact Hnone |].
    intros cats. unfold Kalshi.run. cbn [fold_left]. now rewrite Hnone.
  - intros P fetch today db o Hin Hfail.
    pose proof (bulk_transport_failure fetch o Hin Hfail) as E.
    split; [exact E |]. unfold BulkSearch.main. now rewrite E.
  - intros P fetch today slug firebasePath categoryName db Hfail.
    pose proof (by_slug_no_readable_body fetch slug Hfail) as E.
    assert (Hnone : BySlug.updateCategory fetch today slug firebasePath categoryName db = [])
      by (unfold BySlug.updateCategory; now rewrite E).
    split; [exact E |]. split; [exact Hnone |].
    intros cats. unfold BySlug.run. cbn [fold_left]. now rewrite Hnone.
  - split; [now left |]. split; vm_compute; reflexivity.
Qed.

Lemma by_slug_adapter_ignores_status_witness :
  Kalshi.fetchKalshiData (Sample.always (Response false "Service Unavailable")) "KXBAFTAFILM" = []
  /\ BulkSearch.main (Sample.always Rejected) "2026-03-01" ∅ = (0%Z, ∅)
  /\ BySlug.fetchPolymarketData (Sample.always (Response true "<html>")) "slug" = [].
Proof.
  destruct by_slug_adapter_ignores_status as (Hkalshi & Hbulk & Hslug & _).
  split; [| split].
  - refine (proj1 (Hkalshi reference_platform
                     (Sample.always (Response false "Service Unavailable"))
                     "2026-03-01" "KXBAFTAFILM" "baftas/picture" "Best Picture" ∅ _)).
    now left.
  - refine (proj2 (Hbulk reference_platform (Sample.always Rejected) "2026-03-01" ∅ 0%Z _ _)).
    + now left.
    + exact I.
  - refine (proj1 (Hslug reference_platform (Sample.always (Response true "<html>"))
                     "2026-03-01" "slug" "oscars/picture" "Best Picture" ∅ _)).
    right. vm_compute. reflexivity.
Defined.

(* ================================================================== *)
(** * Pagination of the bulk search *)
(* ================================================================== *)

Section Pagination.
Context `{Platform} (fetch : network).

(** What has been collected so far does not decide how a turn ends. *)
Lemma continues_page (offset : Z) (allMarkets : list value) :
  continues (BulkSearch.page fetch offset allMarkets) = full_page fetch offset.
Proof.
  unfold full_page, BulkSearch.page.
  destruct (fetch _) as [| ok body]; [reflexivity |].
  destruct ok; [| reflexivity]. cbn [negb].
  destruct (JSON_parse (VStr body)) as [[| | | | | [| m markets] |] |]; try reflexivity.
  destruct (filterM BulkSearch.is_oscars (m :: markets)); [| reflexivity].
  now destruct (_ <? _)%Z.
Qed.

Lemma full_page_spec (offset : Z) :
  full_page fetch offset = true <->
  exists body markets oscarsMarkets,
    fetch (BulkSearch.markets_url offset) = Response true body
    /\ JSON_parse (VStr body) = Some (VArr markets)
    /\ filterM BulkSearch.is_oscars markets = Ok oscarsMarkets
    /\ (100 <= length markets)%nat.
Proof.
  unfold full_page, BulkSearch.page. split.
  - destruct (fetch _) as [| ok body] eqn:Hfetch; [discriminate |].
    destruct ok; [| discriminate]. cbn [negb].
    destruct (JSON_parse (VStr body)) as [[| | | | | [| m markets] |] |] eqn:Hparse;
      try discriminate.
    destruct (filterM BulkSearch.is_oscars (m :: markets)) as [oscars |] eqn:E;
      [| discriminate].
    destruct (_ <? _)%Z eqn:Hlen; [discriminate |]. intros _.
    exists body, (m :: markets), oscars.
    split; [reflexivity |]. split; [exact Hparse |]. split; [exact E |].
    apply Z.ltb_ge in Hlen. unfold BulkSearch.limit in Hlen. lia.
  - intros (body & markets & oscars & -> & -> & Hfilter & Hlen). cbn [negb].
    destruct markets as [| m markets]; [cbn in Hlen; lia |].
    rewrite Hfilter.
    assert (Hge : (Z.of_nat (length (m :: markets)) <? BulkSearch.limit)%Z = false).
    { apply Z.ltb_ge. unfold BulkSearch.limit. lia. }
    now rewrite Hge.
Qed.

(** One turn of the loop. *)
Lemma paginate_turn (offset : Z) (allMarkets : list value) :
  fst (BulkSearch.paginate (BulkSearch.page fetch) offset allMarkets)
  = offset ::
    match BulkSearch.page fetch offset allMarkets with
    | BulkSearch.Continue all =>
        if (offset + 100 <? 500)%Z
        then fst (BulkSearch.paginate (BulkSearch.page fetch) (offset + 100) all)
        else []
    | _ => []
    end.
Proof.
  funelim (BulkSearch.paginate (BulkSearch.page fetch) offset allMarkets);
    rewrite ?Heq, ?Heq0; try reflexivity.
  - unfold BulkSearch.limit in *.
    assert (E : (offset + 100 <? 500)%Z = true) by (apply Z.ltb_lt; lia).
    now rewrite E.
  - unfold BulkSearch.limit in *.
    assert (E : (offset + 100 <? 500)%Z = false) by (apply Z.ltb_ge; lia).
    now rewrite E.
Qed.

Lemma paginate_until_short (offset : Z) (allMarkets : list value) (offsets : list Z) :
  (forall all, match offsets with
               | [] => (offset + 100 <? 500)%Z = false
               | next :: _ => next = (offset + 100)%Z /\ (offset + 100 <? 500)%Z = true
               end
               /\ (match offsets with
                   | [] => True
                   | next :: offsets' =>
                       fst (BulkSearch.paginate (BulkSearch.page fetch) next all)
                       = until_short (full_page fetch) (next :: offsets')
                   end)) ->
  fst (BulkSearch.paginate (BulkSearch.page fetch) offset allMarkets)
  = until_short (full_page fetch) (offset :: offsets).
Proof.
  intros Hnext. rewrite paginate_turn. cbn [until_short]. f_equal.
  rewrite <- (continues_page offset allMarkets).
  destruct (BulkSearch.page fetch offset allMarkets) as [all | all | e]; try reflexivity.
  cbn [continues]. destruct (Hnext all) as [Hoff Hrest].
  destruct offsets as [| next offsets'].
  - now rewrite Hoff.
  - destruct Hoff as [-> ->]. exact Hrest.
Qed.

Lemma requests_until_short :
  BulkSearch.requests fetch = until_short (full_page fetch) [0; 100; 200; 300; 400]%Z.
Proof.
  unfold BulkSearch.requests, BulkSearch.pages.
  apply paginate_until_short. intros all1. split; [now split |].
  apply paginate_until_short. intros all2. split; [now split |].
  apply paginate_until_short. intros all3. split; [now split |].
  apply paginate_until_short. intros all4. split; [now split |].
  apply paginate_until_short. intros all5. now split.
Qed.

Lemma until_short_length (full : Z -> bool) (offsets : list Z) :
  (length (until_short full offsets) <= length offsets)%nat.
Proof.
  induction offsets as [| o offsets IH]; cbn; [lia |].
  destruct (full o); cbn; lia.
Qed.

End Pagination.

Lemma filterM_readable (markets : list value) :
  Forall readable markets -> exists kept, filterM BulkSearch.is_oscars markets = Ok kept.
Proof.
  induction 1 as [| m markets [b Hb] _ [kept IH]]; cbn [filterM].
  - now exists [].
  - rewrite Hb, IH. cbn [bind]. eauto.
Qed.

(** C6.  The bulk search requests pages of 100 markets at the offsets 0,
    100, 200, ... in turn, and stops after the first page that is not full
    (fewer than 100 markets, no array, or a failure) or once the next
    offset would be 500: it issues between one and five requests, whatever
    the network answers, and the loop, defined by recursion on the distance
    of the offset to 500, always ends.  When the first page holds exactly
    100 markets and the second 40, the requests are those at the offsets 0
    and 100 and no third one. *)
Theorem pagination_stops_on_short_page :
  forall (P : Platform) (fetch : network),
    BulkSearch.requests fetch = until_short (full_page fetch) [0; 100; 200; 300; 400]%Z
    /\ (1 <= length (BulkSearch.requests fetch) <= 5)%nat
    /\ (forall offset : Z,
          full_page fetch offset = true <->
          exists body markets oscarsMarkets,
            fetch (BulkSearch.markets_url offset) = Response true body
            /\ JSON_parse (VStr body) = Some (VArr markets)
            /\ filterM BulkSearch.is_oscars markets = Ok oscarsMarkets
            /\ (100 <= length markets)%nat)
    /\ BulkSearch.markets_url 100
       = "https://gamma-api.polymarket.com/markets?active=true&closed=false&limit=100&offset=100"
    /\ (forall body1 markets1 body2 markets2,
          fetch (BulkSearch.markets_url 0) = Response true body1 ->
          JSON_parse (VStr body1) = Some (VArr markets1) ->
          length markets1 = 100%nat -> Forall readable markets1 ->
          fetch (BulkSearch.markets_url 100) = Response true body2 ->
          JSON_parse (VStr body2) = Some (VArr markets2) ->
          length markets2 = 40%nat ->
          BulkSearch.requests fetch = [0; 100]%Z).
Proof.
  intros P fetch.
  pose proof (requests_until_short fetch) as Hreq.
  split; [exact Hreq |]. split; [| split; [| split]].
  - rewrite Hreq. split; [cbn; lia |].
    exact (until_short_length (full_page fetch) [0; 100; 200; 300; 400]%Z).
  - apply full_page_spec.
  - reflexivity.
  - intros body1 markets1 body2 markets2 Hf1 Hp1 Hl1 Hr1 Hf2 Hp2 Hl2.
    rewrite Hreq. cbn [until_short].
    assert (Hfull : full_page fetch 0 = true).
    { apply full_page_spec. destruct (filterM_readable markets1 Hr1) as [kept Hkept].
      exists body1, markets1, kept.
      split; [exact Hf1 |]. split; [exact Hp1 |]. split; [exact Hkept | lia]. }
    assert (Hshort : full_page fetch 100 = false).
    { destruct (full_page fetch 100) eqn:E; [| reflexivity].
      apply full_page_spec in E as (b & ms & os & Hb & Hms & _ & Hlen).
      rewrite Hf2 in Hb. injection Hb as <-. rewrite Hp2 in Hms. injection Hms as <-. lia. }
    now rewrite Hfull, Hshort.
Qed.

Lemma pagination_stops_on_short_page_witness :
  BulkSearch.requests Sample.two_pages = [0; 100]%Z.
Proof.
  refine (proj2 (proj2 (proj2 (proj2
            (pagination_stops_on_short_page reference_platform Sample.two_pages))))
            (Json.stringify (VArr (repeat (VObj []) 100))) (repeat (VObj []) 100)
            (Json.stringify (VArr (repeat (VObj []) 40))) (repeat (VObj []) 40)
            _ _ _ _ _ _ _).
  - reflexivity.
  - vm_compute. reflexivity.
  - reflexivity.
  - apply Forall_forall. intros m Hm.
    apply list_elem_of_In, repeat_spec in Hm as ->. now exists false.
  - reflexivity.
  - vm_compute. reflexivity.
  - reflexivity.
Defined.

(* ================================================================== *)
(** * The end-to-end scenarios *)
(* ================================================================== *)

(** Oppenheimer is stored and quoted at 0.82: the update sets its
    Polymarket odds to -456 and its date to the run date, and nothing
    else. *)
Lemma category_update_frame_witness :
  exists n' : Nominee.t,
    apply_writes {[ "oscars/picture/nominees" := [Sample.stored "Oppenheimer"] ]}
      (BySlug.updateCategory
         (Sample.always (Response true
            (Sample.events [Sample.market "Oppenheimer" "0.82" "0.18"])))
         "2026-03-01" "oscars-2026-best-picture-winner" "oscars/picture" "Best Picture"
         {[ "oscars/picture/nominees" := [Sample.stored "Oppenheimer"] ]})
      !! "oscars/picture/nominees" = Some [n']
    /\ Nominee.name n' = "Oppenheimer"
    /\ Nominee.others n' = ∅
    /\ Nominee.odds n' !! "polymarket" = Some "-456"
    /\ Nominee.lastUpdated n' = Some "2026-03-01".
Proof.
  destruct (proj1 (@category_update_frame "2026-03-01" reference_platform
                     (Sample.always (Response true
                        (Sample.events [Sample.market "Oppenheimer" "0.82" "0.18"]))))
              "oscars-2026-best-picture-winner" "oscars/picture" "Best Picture"
              {[ "oscars/picture/nominees" := [Sample.stored "Oppenheimer"] ]})
    as [[_ Hat] _].
  cbv zeta in Hat.
  change ("oscars/picture" +:+ "/nominees") with "oscars/picture/nominees" in Hat.
  rewrite lookup_singleton_eq in Hat.
  destruct Hat as (l' & Hl' & Hlen & Hframed).
  destruct (Hframed 0%nat (Sample.stored "Oppenheimer") eq_refl)
    as (n' & Hn' & Hname & Hothers & _ & Hchosen).
  assert (Hq : find (BySlug.is_match (Sample.stored "Oppenheimer"))
                 (BySlug.fetchPolymarketData
                    (Sample.always (Response true
                       (Sample.events [Sample.market "Oppenheimer" "0.82" "0.18"])))
                    "oscars-2026-best-picture-winner")
               = Some (Quote.mk "Oppenheimer" None "-456"))
    by (vm_compute; reflexivity).
  rewrite Hq in Hchosen. destruct Hchosen as [Hodds Hdate].
  exists n'. destruct l' as [| x [| y l']]; [discriminate Hlen | | discriminate Hlen].
  cbn in Hn'. injection Hn' as ->.
  split; [exact Hl' |]. split; [exact Hname |]. split; [exact Hothers |].
  split; [exact Hodds | exact Hdate].
Defined.

(** Oppenheimer is stored and only Conclave, or only Dune: Part Two, is
    quoted: the patch-based update issues no write, the replace-based one
    writes the stored list back. *)
Lemma update_without_match_witness :
  BySlug.updateCategory
    (Sample.always (Response true (Sample.events [Sample.conclave])))
    "2026-03-01" "oscars-2026-best-picture-winner" "oscars/picture" "Best Picture"
    {[ "oscars/picture/nominees" := [Sample.stored "Oppenheimer"] ]}
  = []
  /\ BulkSearch.updateCategory "2026-03-01"
       (Sample.best_picture, "oscars/best-picture", "Best Picture") Sample.listing
       {[ "oscars/best-picture/nominees" := [Sample.stored "Oppenheimer"] ]}
     = Ok [RefSet "oscars/best-picture/nominees" [Sample.stored "Oppenheimer"]].
Proof.
  destruct (@update_without_match "2026-03-01" reference_platform
              (Sample.always (Response true (Sample.events [Sample.conclave]))))
    as (Hslug & _ & Hbulk).
  split.
  - refine (Hslug "oscars-2026-best-picture-winner" "oscars/picture" "Best Picture"
              {[ "oscars/picture/nominees" := [Sample.stored "Oppenheimer"] ]}
              [Sample.stored "Oppenheimer"] _ _ _ _).
    + vm_compute. discriminate.
    + apply lookup_singleton_eq.
    + discriminate.
    + intros n [<- | []]. vm_compute. reflexivity.
  - refine (proj1 (Hbulk Sample.best_picture "oscars/best-picture" "Best Picture"
                     Sample.listing
                     {[ "oscars/best-picture/nominees" := [Sample.stored "Oppenheimer"] ]}
                     [Quote.mk "Dune: Part Two" (Some (Fin 0.6)) "-150"]
                     [Sample.stored "Oppenheimer"] _ _ _ _ _)).
    + vm_compute. reflexivity.
    + discriminate.
    + apply lookup_singleton_eq.
    + discriminate.
    + intros n [<- | []]. vm_compute. reflexivity.
Defined.

(** MOVIE z is a placeholder name in capitals. *)
Lemma replace_script_keeps_placeholder_names_witness :
  matches true Polymarket.placeholder "MOVIE z" = true.
Proof.
  apply (proj1 replace_script_keeps_placeholder_names "MOVIE z").
  vm_compute. tauto.
Defined.

(* ================================================================== *)
(** * More on the odds converters *)
(* ================================================================== *)

Section OddsShape.

Lemma string_of_Z_head (z : Z) :
  match string_of_Z z with
  | String c _ => c <> "+"%char
  | EmptyString => True
  end.
Proof.
  unfold string_of_Z. destruct (Z.to_int z) as [d | d]; cbn.
  - destruct d; cbn; discriminate || exact I.
  - discriminate.
Qed.

Lemma int_of_string_of_Z (z : Z) :
  option_map Z.of_int (NilZero.int_of_string (string_of_Z z)) = Some z.
Proof.
  unfold string_of_Z. rewrite NilZero.isi.
  - cbn. now rewrite DecimalZ.of_to.
  - destruct z as [| p | p]; cbn; try discriminate.
    intros [= E]. now apply DecimalPos.Unsigned.to_uint_nonnil in E.
  - destruct z as [| p | p]; cbn; try discriminate.
    intros [= E]. now apply DecimalPos.Unsigned.to_uint_nonnil in E.
Qed.

Lemma odds_value_minus (z : Z) : odds_value (string_of_Z z) = Some z.
Proof.
  pose proof (string_of_Z_head z) as Hhead. pose proof (int_of_string_of_Z z) as E.
  unfold odds_value. destruct (string_of_Z z) as [| c t]; [exact E |].
  destruct c as [[] [] [] [] [] [] [] []]; first [exact E | now elim Hhead].
Qed.

Lemma odds_value_plus (z : Z) : odds_value ("+" +:+ string_of_Z z) = Some z.
Proof. exact (int_of_string_of_Z z). Qed.

(** The number the converter prints for a probability strictly between 0
    and 1. *)
Lemma converter_value (p : Q) :
  (0 < p)%Q -> (p < 1)%Q ->
  odds_value (Polymarket.probToAmericanOdds (VNum (Fin p)))
  = Some (if Qle_bool (1 # 2) p
          then round_half_up (- (p * 100) / (1 - p))
          else round_half_up ((1 - p) * 100 / p)).
Proof.
  intros H0 H1. destruct (Qle_bool (1 # 2) p) eqn:E.
  - apply Qle_bool_iff in E.
    rewrite converter_favourite; [apply odds_value_minus | exact E | q_arith].
  - rewrite converter_underdog; [apply odds_value_plus | | q_arith].
    intros Hp. apply Qle_bool_iff in Hp. congruence.
Qed.







(** Rounding a number and its opposite: the results cancel, but for a
    half-integer, which goes up both times. *)
Lemma round_half_up_opp (x : Q) :
  (0 <= round_half_up x + round_half_up (- x) <= 1)%Z.
Proof.
  unfold round_half_up.
  pose proof (Qfloor_le (x + (1 # 2))) as Ha. pose proof (Qlt_floor (x + (1 # 2))) as Ha'.
  pose proof (Qfloor_le (- x + (1 # 2))) as Hb. pose proof (Qlt_floor (- x + (1 # 2))) as Hb'.
  set (a := Qfloor (x + (1 # 2))) in *. set (b := Qfloor (- x + (1 # 2))) in *.
  rewrite inject_Z_plus in Ha', Hb'.
  assert (Hle : (inject_Z (a + b) <= inject_Z 1)%Q).
  { rewrite inject_Z_plus.
    apply Qle_trans with ((x + (1 # 2)) + (- x + (1 # 2)))%Q.
    - now apply Qplus_le_compat.
    - apply Qle_lteq. right. ring. }
  assert (Hlt : (inject_Z (-1) < inject_Z (a + b))%Q).
  { rewrite inject_Z_plus.
    apply Qplus_lt_l with (z := (inject_Z 1 + inject_Z 1)%Q).
    apply Qle_lt_trans with ((x + (1 # 2)) + (- x + (1 # 2)))%Q.
    - apply Qle_lteq. right. ring.
    - apply Qlt_le_trans with ((inject_Z a + inject_Z 1) + (inject_Z b + inject_Z 1))%Q.
      + now apply Qplus_lt_le_compat; [| apply Qlt_le_weak].
      + apply Qle_lteq. right. ring. }
  rewrite <- Zle_Qle in Hle. rewrite <- Zlt_Qlt in Hlt. lia.
Qed.

End OddsShape.







(** X3.  A favourite and the complementary underdog get mirrored odds: the
    two integers printed cancel, or add up to 1 when the quotient is a
    half-integer, which is rounded up both times. *)
Theorem complementary_odds_mirror (p : Q) :
  (1 # 2 < p)%Q -> (p < 1)%Q ->
  exists n m : Z,
    odds_value (Polymarket.probToAmericanOdds (VNum (Fin p))) = Some n
    /\ odds_value (Polymarket.probToAmericanOdds (VNum (Fin (1 - p)))) = Some m
    /\ (0 <= n + m <= 1)%Z.
Proof.
  intros Hp H1.
  assert (H0 : (0 < p)%Q) by (eapply Qlt_trans; [| exact Hp]; reflexivity).
  assert (Hc0 : (0 < 1 - p)%Q) by q_arith.
  assert (Hc1 : (1 - p < 1)%Q) by q_arith.
  do 2 eexists. split; [apply (converter_value p H0 H1) |].
  split; [apply (converter_value (1 - p) Hc0 Hc1) |].
  assert (Ep : Qle_bool (1 # 2) p = true) by (apply Qle_bool_iff, Qlt_le_weak, Hp).
  assert (Ec : Qle_bool (1 # 2) (1 - p) = false).
  { destruct (Qle_bool (1 # 2) (1 - p)) eqn:E; [| reflexivity].
    apply Qle_bool_iff in E. q_arith. }
  rewrite Ep, Ec.
  assert (Hopp : ((1 - (1 - p)) * 100 / (1 - p) == - (- (p * 100) / (1 - p)))%Q).
  { field. intros E. q_arith. }
  rewrite (round_half_up_comp _ _ Hopp).
  apply round_half_up_opp.
Qed.

Lemma complementary_odds_mirror_witness :
  (exists n m : Z,
     odds_value (Polymarket.probToAmericanOdds (VNum (Fin 0.745))) = Some n
     /\ odds_value (Polymarket.probToAmericanOdds (VNum (Fin (1 - 0.745)))) = Some m
     /\ (0 <= n + m <= 1)%Z)
  /\ Polymarket.probToAmericanOdds (VNum (Fin 0.745)) = "-292"
  /\ Polymarket.probToAmericanOdds (VNum (Fin (1 - 0.745))) = "+292"
  /\ Polymarket.probToAmericanOdds (VNum (Fin (301 # 501))) = "-150"
  /\ Polymarket.probToAmericanOdds (VNum (Fin (1 - (301 # 501)))) = "+151".
Proof.
  split; [apply (complementary_odds_mirror 0.745%Q); reflexivity |].
  repeat split; vm_compute; reflexivity.
Defined.

(* ================================================================== *)
(** * The converters in binary64 *)
(* ================================================================== *)

Lemma In_upto (n k : Z) : (0 <= k <= n)%Z -> In k (upto n).
Proof.
  intros Hk. unfold upto. apply in_map_iff. exists (Z.to_nat k).
  split; [lia |]. apply in_seq. lia.
Qed.

Lemma checked_upto (f : Z -> bool) (n : Z) :
  forallb f (upto n) = true -> forall k : Z, (0 <= k <= n)%Z -> f k = true.
Proof.
  intros Hall k Hk. rewrite forallb_forall in Hall. apply Hall, In_upto, Hk.
Qed.

(** X4.  Evaluated in binary64, as the scripts evaluate it, the converter
    prints for every probability of at most four decimals what the exact
    rule prints, four probabilities apart: at 0.0128, 0.064, 0.68 and 0.936
    the exact quotient is a half-integer and the binary64 quotient falls on
    the other side of it, so the odds printed are 1 further from zero for
    the two favourites and 1 nearer for the two underdogs. *)
Theorem binary64_converter_agrees_off_ties :
  (forall n : Z, (0 <= n <= 10000)%Z -> ~ In n [128; 640; 6800; 9360]%Z ->
     Binary64.probToAmericanOdds (Binary64.ratio n 10000)
     = Polymarket.probToAmericanOdds (VNum (Fin (n # 10000))))
  /\ map (fun n => Binary64.probToAmericanOdds (Binary64.ratio n 10000))
         [128; 640; 6800; 9360]%Z
     = ["+7712"; "+1462"; "-213"; "-1463"]
  /\ map (fun n => Polymarket.probToAmericanOdds (VNum (Fin (n # 10000))))
         [128; 640; 6800; 9360]%Z
     = ["+7713"; "+1463"; "-212"; "-1462"].
Proof.
  split; [| split; vm_compute; reflexivity].
  assert (Hall : forallb (fun n => existsb (Z.eqb n) [128; 640; 6800; 9360]%Z
                                   || same_in_binary64 n) (upto 10000) = true)
    by (vm_compute; reflexivity).
  intros n Hn Hties. pose proof (checked_upto _ _ Hall n Hn) as Hk. cbv beta in Hk.
  apply orb_true_iff in Hk as [Hk | Hk].
  - apply existsb_exists in Hk as (k & Hin & E). apply Z.eqb_eq in E. now subst k.
  - now apply String.eqb_eq in Hk.
Qed.

Lemma binary64_converter_agrees_off_ties_witness :
  Binary64.probToAmericanOdds (Binary64.ratio 8200 10000) = "-456"
  /\ Polymarket.probToAmericanOdds (VNum (Fin (8200 # 10000))) = "-456".
Proof.
  assert (E : Binary64.probToAmericanOdds (Binary64.ratio 8200 10000)
              = Polymarket.probToAmericanOdds (VNum (Fin (8200 # 10000)))).
  { apply (proj1 binary64_converter_agrees_off_ties 8200%Z); [lia |].
    cbn [In]. lia. }
  split; [rewrite E |]; vm_compute; reflexivity.
Defined.

(** X5.  Evaluated in binary64, the Kalshi converter prints for every price
    from 0 to 100 cents what the exact rule prints, but at 68 cents: the
    exact quotient is -212.5, printed -212, and the binary64 quotient lies
    just below it, printed -213. *)
Theorem binary64_kalshi_converter_agrees_off_68 :
  (forall c : Z, (0 <= c <= 100)%Z -> c <> 68%Z ->
     Binary64.kalshiPriceToAmericanOdds (PrimFloat.of_uint63 (Uint63.of_Z c))
     = Kalshi.kalshiPriceToAmericanOdds (VNum (of_Z c)))
  /\ Binary64.kalshiPriceToAmericanOdds (PrimFloat.of_uint63 (Uint63.of_Z 68)) = "-213"
  /\ Kalshi.kalshiPriceToAmericanOdds (VNum (of_Z 68)) = "-212".
Proof.
  split; [| split; vm_compute; reflexivity].
  assert (Hall : forallb (fun c => Z.eqb c 68 || kalshi_same_in_binary64 c) (upto 100) = true)
    by (vm_compute; reflexivity).
  intros c Hc Hne. pose proof (checked_upto _ _ Hall c Hc) as Hk. cbv beta in Hk.
  apply orb_true_iff in Hk as [Hk | Hk].
  - apply Z.eqb_eq in Hk. contradiction.
  - now apply String.eqb_eq in Hk.
Qed.

Lemma binary64_kalshi_converter_agrees_off_68_witness :
  Binary64.kalshiPriceToAmericanOdds (PrimFloat.of_uint63 (Uint63.of_Z 75)) = "-300".
Proof.
  rewrite (proj1 binary64_kalshi_converter_agrees_off_68 75%Z); [reflexivity | lia | lia].
Defined.

(* ================================================================== *)
(** * Prices that cannot be read *)
(* ================================================================== *)

Section UnreadablePrices.
Context `{Platform}.

Lemma converter_NaN (v : value) :
  parseFloat v = NaN -> Polymarket.probToAmericanOdds v = "+NaN".
Proof. intros E. unfold Polymarket.probToAmericanOdds. now rewrite E. Qed.

Lemma parsed_is_truthy (s : string) (v : value) :
  JSON_parse (VStr s) = Some v -> truthy (VStr s) = true.
Proof.
  intros E. cbn [truthy]. destruct (String.eqb_spec s "") as [-> | Hs]; [| reflexivity].
  rewrite JSON_parse_empty in E. discriminate.
Qed.

Lemma named_is_truthy (name : string) : name <> "" -> truthy (VStr name) = true.
Proof.
  intros Hname. cbn [truthy]. now destruct (String.eqb_spec name "").
Qed.

Lemma by_slug_quotes_NaN (market : value) (s : string) (prices price : value) (name : string) :
  get market "outcomePrices" = Ok (VStr s) -> JSON_parse (VStr s) = Some prices ->
  first prices = Ok price -> parseFloat price = NaN ->
  get market "groupItemTitle" = Ok (VStr name) -> name <> "" ->
  matches true Polymarket.placeholder name = false ->
  BySlug.market_nominee market = Ok (Some (Quote.mk name None "+NaN")).
Proof.
  intros Hprices Hparse Hfirst Hnan Htitle Hname Hallowed.
  unfold BySlug.market_nominee, JSON_parse_or_throw.
  rewrite Hprices. cbn [bind]. rewrite Hparse. cbn [bind]. rewrite Hfirst. cbn [bind].
  rewrite Htitle. cbn [bind]. rewrite (named_is_truthy name Hname).
  cbn [String_method bind]. rewrite Hallowed, Hnan. reflexivity.
Qed.

Lemma replace_entry_NaN (market : value) (s : string) (prices price name : value) :
  get market "outcomePrices" = Ok (VStr s) -> JSON_parse (VStr s) = Some prices ->
  first prices = Ok price -> parseFloat price = NaN ->
  get market "groupItemTitle" = Ok name ->
  SlugReplace.market_entry market = Ok (SlugReplace.mk_entry name NaN "+NaN").
Proof.
  intros Hprices Hparse Hfirst Hnan Htitle.
  unfold SlugReplace.market_entry, JSON_parse_or_throw.
  rewrite Hprices. cbn [bind]. rewrite Hparse. cbn [bind]. rewrite Hfirst. cbn [bind].
  rewrite Htitle. cbn [bind]. rewrite Hnan. reflexivity.
Qed.

Lemma bulk_skips_priceless (market : value) (s : string) :
  get market "outcomePrices" = Ok (VStr s) -> JSON_parse (VStr s) = Some (VArr []) ->
  try_catch (BulkSearch.market_nominee market) (fun _ => None) = None.
Proof.
  intros Hprices Hparse. unfold BulkSearch.market_nominee.
  destruct (get market "outcomes") as [o | e]; [| reflexivity]. cbn [bind].
  destruct (BulkSearch.parse_if_present o) as [outcomes | e]; [| reflexivity]. cbn [bind].
  rewrite Hprices. cbn [bind]. unfold BulkSearch.parse_if_present at 1, JSON_parse_or_throw.
  rewrite (parsed_is_truthy s _ Hparse), Hparse. cbn [bind].
  destruct (get market "groupItemTitle") as [title | e]; [| reflexivity]. cbn [bind].
  match goal with |- try_catch (bind ?m _) _ = _ => destruct m as [name | e] end;
    [| reflexivity].
  cbn [bind]. now destruct (truthy name).
Qed.

Lemma bulk_quotes_NaN (market : value) (s : string) (x : value) (items : list value)
    (name : string) :
  get market "outcomes" = Ok VUndefined ->
  get market "outcomePrices" = Ok (VStr s) -> JSON_parse (VStr s) = Some (VArr (x :: items)) ->
  parseFloat x = NaN ->
  get market "groupItemTitle" = Ok (VStr name) -> name <> "" ->
  matches true Polymarket.placeholder name = false ->
  BulkSearch.market_nominee market = Ok (Some (Quote.mk name (Some NaN) "+NaN")).
Proof.
  intros Houtcomes Hprices Hparse Hnan Htitle Hname Hallowed.
  unfold BulkSearch.market_nominee. rewrite Houtcomes. cbn [bind truthy BulkSearch.parse_if_present].
  rewrite Hprices. cbn [bind]. unfold BulkSearch.parse_if_present, JSON_parse_or_throw.
  rewrite (parsed_is_truthy s _ Hparse), Hparse. cbn [bind].
  rewrite Htitle. cbn [bind]. rewrite (named_is_truthy name Hname). cbn [bind].
  rewrite (named_is_truthy name Hname).
  assert (Hlen : positive (VNum (of_Z (Z.of_nat (length (x :: items))))) = true).
  { unfold positive, ToNumber, of_Z. cbn [length].
    destruct (Qle_bool (inject_Z (Z.of_nat (S (length items)))) 0) eqn:E; [| reflexivity].
    apply Qle_bool_iff in E. unfold Qle in E. cbn in E. lia. }
  cbn [length_of bind]. rewrite Hlen. cbn [first head default from_option id bind String_method].
  rewrite Hallowed, Hnan. reflexivity.
Qed.

End UnreadablePrices.

(** X6.  A market whose first price cannot be read as a number is not
    skipped: the converter prints +NaN for it, the by-slug adapter and the
    bulk-search adapter quote the market at +NaN, and the replace script
    maps it to an entry with the odds +NaN.  This is so in the by-slug
    adapter when the price array is empty, and the update then stores
    +NaN; the bulk-search adapter alone tests the length of the array and
    skips such a market. *)
Theorem unreadable_price_is_quoted_as_NaN :
  (forall v : value, parseFloat v = NaN -> Polymarket.probToAmericanOdds v = "+NaN")
  /\ (forall (P : Platform) (market : value) (s : string) (prices price : value)
             (name : string),
        get market "outcomePrices" = Ok (VStr s) -> JSON_parse (VStr s) = Some prices ->
        first prices = Ok price -> parseFloat price = NaN ->
        get market "groupItemTitle" = Ok (VStr name) -> name <> "" ->
        matches true Polymarket.placeholder name = false ->
        BySlug.market_nominee market = Ok (Some (Quote.mk name None "+NaN"))
        /\ SlugReplace.market_entry market
           = Ok (SlugReplace.mk_entry (VStr name) NaN "+NaN"))
  /\ (forall (P : Platform) (market : value) (s : string) (x : value) (items : list value)
             (name : string),
        get market "outcomes" = Ok VUndefined ->
        get market "outcomePrices" = Ok (VStr s) ->
        JSON_parse (VStr s) = Some (VArr (x :: items)) -> parseFloat x = NaN ->
        get market "groupItemTitle" = Ok (VStr name) -> name <> "" ->
        matches true Polymarket.placeholder name = false ->
        BulkSearch.market_nominee market = Ok (Some (Quote.mk name (Some NaN) "+NaN")))
  /\ (forall (P : Platform) (market : value) (s : string) (name : string),
        get market "outcomePrices" = Ok (VStr s) -> JSON_parse (VStr s) = Some (VArr []) ->
        get market "groupItemTitle" = Ok (VStr name) -> name <> "" ->
        matches true Polymarket.placeholder name = false ->
        BySlug.market_nominee market = Ok (Some (Quote.mk name None "+NaN"))
        /\ try_catch (BulkSearch.market_nominee market) (fun _ => None) = None)
  /\ BySlug.updateCategory
       (Sample.always (Response true (Sample.events [priceless "Conclave"])))
       "2026-03-01" "oscars-2026-best-picture-winner" "oscars/picture" "Best Picture"
       {[ "oscars/picture/nominees" := [Sample.stored "Conclave"] ]}
     = [RefUpdate "oscars/picture/nominees"
          [(0%nat, OddsOf "polymarket", "+NaN"); (0%nat, LastUpdated, "2026-03-01")]].
Proof.
  split; [exact converter_NaN |]. split; [| split; [| split; [| vm_compute; reflexivity]]].
  - intros P market s prices price name Hprices Hparse Hfirst Hnan Htitle Hname Hallowed.
    split.
    + now apply (by_slug_quotes_NaN market s prices price name).
    + now apply (replace_entry_NaN market s prices price (VStr name)).
  - intros P. apply bulk_quotes_NaN.
  - intros P market s name Hprices Hparse Htitle Hname Hallowed. split.
    + now apply (by_slug_quotes_NaN market s (VArr []) VUndefined name).
    + now apply (bulk_skips_priceless market s).
Qed.

(** A market priced at an empty array is quoted at +NaN by the by-slug
    adapter and skipped by the bulk-search adapter. *)
Lemma unreadable_price_is_quoted_as_NaN_witness :
  BySlug.market_nominee (priceless "Conclave") = Ok (Some (Quote.mk "Conclave" None "+NaN"))
  /\ try_catch (BulkSearch.market_nominee (priceless "Conclave")) (fun _ => None) = None.
Proof.
  destruct (proj1 (proj2 (proj2 (proj2 unreadable_price_is_quoted_as_NaN))) reference_platform
              (priceless "Conclave") "[]" "Conclave") as [Hslug Hbulk];
    try reflexivity; try discriminate.
  split; [exact Hslug | exact Hbulk].
Defined.

(* ================================================================== *)
(** * The deny-list, exactly *)
(* ================================================================== *)

Section Patterns.

Lemma append_nil_inv (s1 s2 : string) : "" = s1 +:+ s2 -> s1 = "" /\ s2 = "".
Proof. destruct s1; [cbn; auto | discriminate]. Qed.

Lemma nullable_spec (i : bool) (r : regex) : nullable r = true <-> lang i r "".
Proof.
  induction r as [| | c | lo hi | r1 IH1 r2 IH2 | r1 IH1 r2 IH2]; cbn [nullable lang].
  - split; [discriminate | tauto].
  - tauto.
  - split; [discriminate | intros (a & E & _); discriminate].
  - split; [discriminate | intros (a & E & _); discriminate].
  - rewrite andb_true_iff, IH1, IH2. split.
    + intros [H1 H2]. now exists "", "".
    + intros (s1 & s2 & E & H1 & H2). apply append_nil_inv in E as [-> ->]. tauto.
  - rewrite orb_true_iff, IH1, IH2. tauto.
Qed.

Lemma deriv_spec (i : bool) (a : ascii) (r : regex) (s : string) :
  lang i (deriv i a r) s <-> lang i r (String a s).
Proof.
  revert s.
  induction r as [| | c | lo hi | r1 IH1 r2 IH2 | r1 IH1 r2 IH2]; intros s; cbn [deriv lang].
  - tauto.
  - split; [tauto | discriminate].
  - destruct (chr_matches i c a) eqn:E; cbn [lang].
    + split; [intros ->; now exists a | intros (a' & [= <- ->] & _); reflexivity].
    + split; [tauto | intros (a' & [= <- ->] & E'); congruence].
  - destruct (range_matches i lo hi a) eqn:E; cbn [lang].
    + split; [intros ->; now exists a | intros (a' & [= <- ->] & _); reflexivity].
    + split; [tauto | intros (a' & [= <- ->] & E'); congruence].
  - assert (Hcons : (exists s1 s2, s = s1 +:+ s2 /\ lang i (deriv i a r1) s1 /\ lang i r2 s2)
                    <-> (exists t1 s2, String a s = String a t1 +:+ s2
                                       /\ lang i r1 (String a t1) /\ lang i r2 s2)).
    { split; intros (s1 & s2 & E & H1 & H2); exists s1, s2.
      - rewrite E. split; [reflexivity |]. now rewrite <- IH1.
      - injection E as E. split; [exact E |]. now rewrite IH1. }
    destruct (nullable r1) eqn:En; cbn [lang]; rewrite Hcons.
    + apply (nullable_spec i) in En. rewrite IH2. split.
      * intros [(t1 & s2 & E & H1 & H2) | H2]; [now exists (String a t1), s2 |].
        now exists "", (String a s).
      * intros ([| b t1] & s2 & E & H1 & H2).
        -- right. change (String a s = s2) in E. now subst s2.
        -- left. injection E as <- E. exists t1, s2. rewrite E. auto.
    + split.
      * intros (t1 & s2 & E & H1 & H2). now exists (String a t1), s2.
      * intros ([| b t1] & s2 & E & H1 & H2).
        -- apply (nullable_spec i) in H1. congruence.
        -- injection E as <- E. exists t1, s2. rewrite E. auto.
  - now rewrite IH1, IH2.
Qed.

(** The matcher by derivatives decides membership. *)
Lemma matches_spec (i : bool) (r : regex) (s : string) :
  matches i r s = true <-> lang i r s.
Proof.
  revert r. induction s as [| a s IH]; intros r; cbn [matches].
  - apply nullable_spec.
  - rewrite IH. apply deriv_spec.
Qed.

Lemma lower_upper (a : ascii) : lower_ascii (upper_ascii a) = lower_ascii a.
Proof. destruct a as [[] [] [] [] [] [] [] []]; reflexivity. Qed.

Lemma chr_matches_lower (c a : ascii) :
  chr_matches true c a = true -> lower_ascii a = lower_ascii c.
Proof.
  unfold chr_matches. intros E. apply Ascii.eqb_eq in E.
  now rewrite <- (lower_upper a), <- E, lower_upper.
Qed.

Lemma toLowerCase_app (s t : string) :
  toLowerCase (s +:+ t) = toLowerCase s +:+ toLowerCase t.
Proof.
  induction s as [| a s IH]; [reflexivity |].
  change (String (lower_ascii a) (toLowerCase (s +:+ t))
          = String (lower_ascii a) (toLowerCase s +:+ toLowerCase t)).
  now rewrite IH.
Qed.

Lemma lang_lit (w s : string) : lang true (lit w) s -> toLowerCase s = toLowerCase w.
Proof.
  revert s. induction w as [| c w IH]; intros s; cbn [lit lang].
  - now intros ->.
  - intros (s1 & s2 & -> & (a & -> & Ea) & Hw).
    change (String (lower_ascii a) (toLowerCase s2) = String (lower_ascii c) (toLowerCase w)).
    now rewrite (chr_matches_lower c a Ea), (IH s2 Hw).
Qed.

Lemma letter_range (a : ascii) :
  range_matches true "A" "Z" a = existsb (Ascii.eqb (lower_ascii a)) letters.
Proof. destruct a as [[] [] [] [] [] [] [] []]; reflexivity. Qed.

Lemma lang_letter (s : string) :
  lang true Polymarket.AZ s ->
  exists c : ascii, In c letters /\ toLowerCase s = String c "".
Proof.
  cbn [Polymarket.AZ lang]. intros (a & -> & Ea).
  rewrite letter_range in Ea. apply existsb_exists in Ea as (c & Hc & E).
  apply Ascii.eqb_eq in E. exists c. split; [exact Hc |].
  change (String (lower_ascii a) "" = String c ""). now rewrite E.
Qed.

(** A prefix followed by one letter. *)
Lemma lang_prefixed (prefix s : string) :
  lang true (Seq (lit prefix) Polymarket.AZ) s ->
  exists c : ascii,
    In c letters /\ toLowerCase s = toLowerCase prefix +:+ String c "".
Proof.
  cbn [lang]. intros (s1 & s2 & -> & Hprefix & Hletter).
  apply lang_lit in Hprefix. apply lang_letter in Hletter as (c & Hc & E).
  exists c. split; [exact Hc |]. now rewrite toLowerCase_app, Hprefix, E.
Qed.

Lemma In_placeholder_names (prefix : string) (c : ascii) :
  In prefix ["movie "; "actor "; "actress "; "director "; "film "] -> In c letters ->
  In (prefix +:+ String c "") placeholder_names.
Proof.
  intros Hprefix Hc. unfold placeholder_names. right.
  apply in_flat_map. exists prefix. split; [exact Hprefix |].
  apply in_map_iff. now exists c.
Qed.

Lemma short_placeholder_denied (name : string) :
  In (toLowerCase name) short_placeholder_names ->
  matches true SlugReplace.placeholder name = true.
Proof.
  intros Hin. rewrite <- matches_lower.
  assert (Hall : forallb (matches true SlugReplace.placeholder) short_placeholder_names = true)
    by (vm_compute; reflexivity).
  rewrite forallb_forall in Hall. exact (Hall _ Hin).
Qed.

End Patterns.

(** X7.  The deny-list of the by-slug and bulk-search adapters rejects a
    name exactly when, in lower case, it is other or one of movie, actor,
    actress, director and film followed by a space and a single letter; the
    shorter pattern of the replace script rejects exactly other and film
    followed by a space and a letter.  Nothing else is filtered out by name. *)
Theorem denylist_is_exact :
  (forall name : string,
     matches true Polymarket.placeholder name = true
     <-> In (toLowerCase name) placeholder_names)
  /\ (forall name : string,
     matches true SlugReplace.placeholder name = true
     <-> In (toLowerCase name) short_placeholder_names).
Proof.
  split; intros name; (split; [| apply placeholder_denied || apply short_placeholder_denied]).
  - rewrite matches_spec. unfold Polymarket.placeholder. cbn [lang].
    intros [Hother | [Hp | [Hp | [Hp | [Hp | Hp]]]]].
    + apply lang_lit in Hother. rewrite Hother. now left.
    + apply lang_prefixed in Hp as (c & Hc & ->).
      apply In_placeholder_names; [cbn; tauto | exact Hc].
    + apply lang_prefixed in Hp as (c & Hc & ->).
      apply In_placeholder_names; [cbn; tauto | exact Hc].
    + apply lang_prefixed in Hp as (c & Hc & ->).
      apply In_placeholder_names; [cbn; tauto | exact Hc].
    + apply lang_prefixed in Hp as (c & Hc & ->).
      apply In_placeholder_names; [cbn; tauto | exact Hc].
    + apply lang_prefixed in Hp as (c & Hc & ->).
      apply In_placeholder_names; [cbn; tauto | exact Hc].
  - rewrite matches_spec. unfold SlugReplace.placeholder. cbn [lang].
    intros [Hother | Hp].
    + apply lang_lit in Hother. rewrite Hother. now left.
    + apply lang_prefixed in Hp as (c & Hc & ->).
      right. apply in_map_iff. now exists c.
Qed.

(* ================================================================== *)
(** * The matchers against each other *)
(* ================================================================== *)

Section MatcherOrder.

Lemma append_nil_r (s : string) : s +:+ "" = s.
Proof.
  induction s as [| a s IH]; [reflexivity |].
  change (String a (s +:+ "") = String a s). now rewrite IH.
Qed.

Lemma substring_refl (s : string) : substring s s.
Proof. exists "", "". now rewrite append_nil_r. Qed.

Lemma substring_nil (s : string) : substring "" s.
Proof. now exists "", s. Qed.



Lemma eqb_includes (s t : string) : String.eqb s t = true -> includes t s = true.
Proof. intros E. apply String.eqb_eq in E as ->. apply includes_spec, substring_refl. Qed.


Lemma kalshi_is_match_substrings (nominee : Nominee.t) (k : Quote.t) :
  Kalshi.is_match nominee k
  = includes (toLowerCase (Quote.name k)) (toLowerCase (Nominee.name nominee))
    || includes (toLowerCase (Nominee.name nominee)) (toLowerCase (Quote.name k)).
Proof.
  unfold Kalshi.is_match.
  destruct (String.eqb _ _) eqn:E; [| now rewrite orb_false_r].
  apply eqb_includes in E. rewrite E, !orb_true_r. reflexivity.
Qed.


End MatcherOrder.



(* ================================================================== *)
(** * Where the quotes come from *)
(* ================================================================== *)

Section QuoteProvenance.
Context `{Platform} (fetch : network).

Lemma length_omap_le {A B} (f : A -> option B) (l : list A) :
  (length (omap f l) <= length l)%nat.
Proof.
  induction l as [| x l IH]; [reflexivity |].
  cbn [omap list_omap length]. destruct (f x); cbn [length]; lia.
Qed.

Lemma truthy_string (s : string) : truthy (VStr s) = true -> s <> "".
Proof. cbn [truthy]. now destruct (String.eqb_spec s ""). Qed.

Lemma by_slug_market_backed (market : value) (q : Quote.t) :
  BySlug.market_nominee market = Ok (Some q) ->
  backed_by_market q market /\ Quote.name q <> "" /\ Quote.probability q = None.
Proof.
  unfold BySlug.market_nominee, JSON_parse_or_throw.
  destruct (get market "outcomePrices") as [[| | | | s | |] | e] eqn:Hprices;
    cbn [bind]; try discriminate.
  destruct (JSON_parse (VStr s)) as [prices |] eqn:Hparse; cbn [bind]; [| discriminate].
  destruct (first prices) as [price | e] eqn:Hfirst; cbn [bind]; [| discriminate].
  destruct (get market "groupItemTitle") as [name | e] eqn:Htitle; cbn [bind]; [| discriminate].
  destruct (truthy name) eqn:Htruthy; [| discriminate].
  destruct name as [| | | | t | |]; cbn [String_method bind]; try discriminate.
  destruct (matches true Polymarket.placeholder t); cbn [negb]; [discriminate |].
  intros [= <-]. unfold backed_by_market. cbn [Quote.name Quote.odds Quote.probability].
  split; [| split; [now apply truthy_string | reflexivity]].
  split; [exact Htitle |]. now exists s, prices, price.
Qed.

Lemma by_slug_quotes_of_markets (slug : string) (items : list value) :
  first_event_markets (fetch (Polymarket.events_url slug)) items ->
  BySlug.fetchPolymarketData fetch slug = by_slug_quotes items.
Proof.
  intros (ok & body & event & rest & markets & Hfetch & Hparse & Hmarkets & Hitems).
  unfold BySlug.fetchPolymarketData, JSON_parse_or_throw.
  rewrite Hfetch, Hparse. cbn [bind]. rewrite Hmarkets. cbn [bind]. now rewrite Hitems.
Qed.

Lemma by_slug_quotes_backed (slug : string) (q : Quote.t) :
  In q (BySlug.fetchPolymarketData fetch slug) ->
  exists (items : list value) (market : value),
    first_event_markets (fetch (Polymarket.events_url slug)) items
    /\ In market items /\ backed_by_market q market
    /\ Quote.name q <> "" /\ Quote.probability q = None.
Proof.
  unfold BySlug.fetchPolymarketData, JSON_parse_or_throw.
  destruct (fetch _) as [| ok body] eqn:Hfetch; cbn [try_catch]; [intros [] |].
  destruct (JSON_parse (VStr body)) as [data |] eqn:Hparse; cbn [bind try_catch]; [| intros []].
  destruct data as [| | | | | [| event rest] |]; cbn [try_catch]; try (intros []).
  destruct (get event "markets") as [markets | e] eqn:Hmarkets; cbn [bind try_catch];
    [| intros []].
  destruct (for_of markets) as [items | e] eqn:Hitems; cbn [bind try_catch]; [| intros []].
  intros Hin. apply omap_try_catch_In in Hin as (market & Hin & E).
  exists items, market. split; [now exists ok, body, event, rest, markets |].
  split; [exact Hin |]. now apply by_slug_market_backed.
Qed.

Lemma kalshi_market_backed (market : value) (q : Quote.t) :
  Kalshi.market_nominee market = Ok (Some q) -> backed_by_contract q market.
Proof.
  unfold Kalshi.market_nominee, Kalshi.or_else.
  destruct (get market "title") as [title | e] eqn:Htitle; cbn [bind]; [| discriminate].
  destruct (truthy title) eqn:Htruthy; cbn [bind].
  - destruct (get market "yes_price") as [yesPrice | e] eqn:Hprice; cbn [bind];
      [| discriminate].
    rewrite Htruthy. destruct (Kalshi.present yesPrice) eqn:Hpresent; [| discriminate].
    cbn [andb]. destruct title as [| | | | label | |]; cbn [String_method bind];
      try discriminate.
    intros [= <-]. exists label, yesPrice. cbn [Quote.name Quote.odds].
    split; [now apply truthy_string |]. split; [now left |]. repeat split; assumption.
  - destruct (get market "subtitle") as [subtitle | e] eqn:Hsubtitle; cbn [bind];
      [| discriminate].
    destruct (truthy subtitle) eqn:Hsub; cbn [bind].
    + destruct (get market "yes_price") as [yesPrice | e] eqn:Hprice; cbn [bind];
        [| discriminate].
      rewrite Hsub. destruct (Kalshi.present yesPrice) eqn:Hpresent; [| discriminate].
      cbn [andb]. destruct subtitle as [| | | | label | |]; cbn [String_method bind];
        try discriminate.
      intros [= <-]. exists label, yesPrice. cbn [Quote.name Quote.odds].
      split; [now apply truthy_string |].
      split; [right; now exists title |]. repeat split; assumption.
    + destruct (get market "yes_price") as [yesPrice | e]; cbn [bind]; discriminate.
Qed.

Lemma kalshi_quotes_backed (seriesTicker : string) (q : Quote.t) :
  In q (Kalshi.fetchKalshiData fetch seriesTicker) ->
  exists (items : list value) (market : value),
    series_markets (fetch (Kalshi.markets_url seriesTicker)) items
    /\ In market items /\ backed_by_contract q market.
Proof.
  unfold Kalshi.fetchKalshiData, JSON_parse_or_throw.
  destruct (fetch _) as [| ok body] eqn:Hfetch; cbn [try_catch]; [intros [] |].
  destruct ok; cbn [negb try_catch]; [| intros []].
  destruct (JSON_parse (VStr body)) as [data |] eqn:Hparse; cbn [bind try_catch]; [| intros []].
  destruct (get data "markets") as [markets | e] eqn:Hmarkets; cbn [bind try_catch];
    [| intros []].
  destruct (truthy markets); cbn [negb orb].
  - destruct (length_of markets) as [len | e]; cbn [bind try_catch]; [| intros []].
    destruct (is_zero len); cbn [try_catch]; [intros [] |].
    destruct (for_of markets) as [items | e] eqn:Hitems; cbn [bind try_catch]; [| intros []].
    intros Hin. apply omap_try_catch_In in Hin as (market & Hin & E).
    exists items, market. split; [now exists body, data, markets |].
    split; [exact Hin |]. now apply kalshi_market_backed.
  - cbn [bind try_catch]. intros [].
Qed.

Lemma kalshi_quotes_of_markets (seriesTicker : string) (items : list value) :
  series_markets (fetch (Kalshi.markets_url seriesTicker)) items ->
  (length (Kalshi.fetchKalshiData fetch seriesTicker) <= length items)%nat.
Proof.
  intros (body & data & markets & Hfetch & Hparse & Hmarkets & Hitems).
  unfold Kalshi.fetchKalshiData, JSON_parse_or_throw.
  rewrite Hfetch, Hparse. cbn [negb bind]. rewrite Hmarkets. cbn [bind].
  destruct (truthy markets); cbn [negb orb].
  - destruct (length_of markets) as [len | e]; cbn [bind try_catch length]; [| lia].
    destruct (is_zero len); cbn [try_catch length]; [lia |].
    rewrite Hitems. cbn [bind try_catch]. apply length_omap_le.
  - cbn [bind try_catch length]. lia.
Qed.

End QuoteProvenance.

(** X9.  Every quote the by-slug adapter returns is backed by a market of
    the first event of the response: its name is the title of that
    market, a string that is not empty, and its odds are the conversion of
    the first price of the market.  The adapter returns no more quotes than
    the event has markets, and records no probability. *)
Theorem by_slug_quotes_come_from_markets :
  forall (P : Platform) (fetch : network) (slug : string),
    (forall q : Quote.t, In q (BySlug.fetchPolymarketData fetch slug) ->
       exists (items : list value) (market : value),
         first_event_markets (fetch (Polymarket.events_url slug)) items
         /\ In market items /\ backed_by_market q market
         /\ Quote.name q <> "" /\ Quote.probability q = None)
    /\ (forall items : list value,
          first_event_markets (fetch (Polymarket.events_url slug)) items ->
          (length (BySlug.fetchPolymarketData fetch slug) <= length items)%nat).
Proof.
  intros P fetch slug. split; [apply by_slug_quotes_backed |].
  intros items Hitems. rewrite (by_slug_quotes_of_markets fetch slug items Hitems).
  apply length_omap_le.
Qed.

Lemma by_slug_quotes_come_from_markets_witness :
  exists (items : list value) (market : value),
    first_event_markets
      (Response true (Sample.events [Sample.untitled; Sample.conclave])) items
    /\ In market items
    /\ backed_by_market (Quote.mk "Conclave" None "-150") market
    /\ "Conclave" <> "" /\ @None number = None.
Proof.
  apply (proj1 (by_slug_quotes_come_from_markets reference_platform
                  (Sample.always (Response true
                     (Sample.events [Sample.untitled; Sample.conclave])))
                  "oscars-2026-best-picture-winner")
               (Quote.mk "Conclave" None "-150")).
  vm_compute. now left.
Defined.

(** X10.  Every quote the Kalshi adapter returns is backed by a market of
    the response: its name is the title of that market, or the subtitle
    when the title is missing or empty, with the white space around it
    removed; the market has a price that is neither undefined nor null, and
    the odds of the quote are the conversion of that price.  The adapter
    returns no more quotes than the response has markets. *)
Theorem kalshi_quotes_come_from_markets :
  forall (P : Platform) (fetch : network) (seriesTicker : string),
    (forall q : Quote.t, In q (Kalshi.fetchKalshiData fetch seriesTicker) ->
       exists (items : list value) (market : value),
         series_markets (fetch (Kalshi.markets_url seriesTicker)) items
         /\ In market items /\ backed_by_contract q market)
    /\ (forall items : list value,
          series_markets (fetch (Kalshi.markets_url seriesTicker)) items ->
          (length (Kalshi.fetchKalshiData fetch seriesTicker) <= length items)%nat).
Proof.
  intros P fetch seriesTicker.
  split; [apply kalshi_quotes_backed | apply kalshi_quotes_of_markets].
Qed.

Lemma kalshi_quotes_come_from_markets_witness :
  exists (items : list value) (market : value),
    series_markets
      (Response true (Sample.series [Sample.contract " Conclave " 60])) items
    /\ In market items
    /\ backed_by_contract (Quote.mk "Conclave" None "-150") market.
Proof.
  apply (proj1 (kalshi_quotes_come_from_markets reference_platform
                  (Sample.always (Response true
                     (Sample.series [Sample.contract " Conclave " 60])))
                  "KXBAFTAFILM")
               (Quote.mk "Conclave" None "-150")).
  vm_compute. now left.
Defined.

(* ================================================================== *)
(** * A blank title on Kalshi *)
(* ================================================================== *)

Section BlankTitle.
Context `{Platform} (fetch : network) (today : string).

Lemma includes_nil (s : string) : includes s "" = true.
Proof. apply includes_spec, substring_nil. Qed.

Lemma empty_name_matches (nominee : Nominee.t) (q : Quote.t) :
  Quote.name q = "" -> Kalshi.is_match nominee q = true.
Proof.
  intros E. rewrite kalshi_is_match_substrings, E.
  change (toLowerCase "") with "". now rewrite includes_nil, orb_true_r.
Qed.

Lemma find_is_Some {A} (f : A -> bool) (l : list A) (x : A) :
  In x l -> f x = true -> find f l <> None.
Proof.
  intros Hin Hx Hnone. pose proof (find_none f l Hnone x Hin). congruence.
Qed.

(** When every nominee has a quote chosen, the patch has the two keys of
    every index. *)
Lemma patch_of_covers source choose (l : list Nominee.t) (index i : nat) :
  (forall n, In n l -> choose n <> None) -> (i < length l)%nat ->
  exists o : string,
    In ((i + index)%nat, OddsOf source, o) (patch_of today source choose l index)
    /\ In ((i + index)%nat, LastUpdated, today) (patch_of today source choose l index).
Proof.
  revert index i. induction l as [| n l IH]; intros index i Hall Hi; [cbn in Hi; lia |].
  cbn [patch_of]. destruct i as [| i].
  - destruct (choose n) as [q |] eqn:E; [| now elim (Hall n (or_introl eq_refl))].
    exists (Quote.odds q). cbn [Nat.add app In]. auto.
  - cbn [length] in Hi.
    destruct (IH (S index) i (fun n' Hn' => Hall n' (or_intror Hn')) ltac:(lia))
      as (o & Hodds & Hdate).
    replace (S i + index)%nat with (i + S index)%nat by lia.
    exists o. rewrite !in_app_iff. auto.
Qed.

Lemma blank_title_patch (ticker firebasePath categoryName : string) (db : database)
    (l : list Nominee.t) (q : Quote.t) :
  In q (Kalshi.fetchKalshiData fetch ticker) -> Quote.name q = "" ->
  db !! (firebasePath +:+ "/nominees") = Some l -> l <> [] ->
  exists updates : list (nat * field * string),
    Kalshi.updateCategory fetch today ticker firebasePath categoryName db
    = [RefUpdate (firebasePath +:+ "/nominees") updates]
    /\ forall i : nat, (i < length l)%nat ->
         exists o : string,
           In (i, OddsOf "kalshi", o) updates /\ In (i, LastUpdated, today) updates.
Proof.
  intros Hin Hname Hl Hne. rewrite kalshi_writes. unfold patch_writes. rewrite Hl.
  set (quotes := Kalshi.fetchKalshiData fetch ticker) in *.
  set (choose := fun n : Nominee.t => find (Kalshi.is_match n) quotes).
  assert (Hall : forall n, In n l -> choose n <> None).
  { intros n _. apply (find_is_Some _ _ q Hin). now apply empty_name_matches. }
  assert (Hcovers : forall i : nat, (i < length l)%nat ->
            exists o : string,
              In (i, OddsOf "kalshi", o) (patch_of today "kalshi" choose l 0)
              /\ In (i, LastUpdated, today) (patch_of today "kalshi" choose l 0)).
  { intros i Hi. destruct (patch_of_covers "kalshi" choose l 0 i Hall Hi) as (o & Ho).
    rewrite Nat.add_0_r in Ho. now exists o. }
  destruct quotes as [| q0 quotes0] eqn:Eq; [destruct Hin |].
  destruct (patch_of today "kalshi" choose l 0) as [| u updates] eqn:Eu.
  - destruct l as [| n l]; [congruence |].
    destruct (Hcovers 0%nat ltac:(cbn; lia)) as (o & [] & _).
  - now exists (u :: updates).
Qed.

End BlankTitle.

(** X11.  The Kalshi adapter tests the title before it trims it: a market
    whose title is blank, yet not empty, is quoted under the empty name.
    The empty name is a substring of every name, so such a quote matches
    every nominee: when the adapter returns one, the update of the category
    writes the Kalshi odds and the date of every stored nominee. *)
Theorem blank_title_quote_reaches_every_nominee :
  (forall (P : Platform) (market : value) (title : string) (yesPrice : value),
     get market "title" = Ok (VStr title) -> title <> "" -> trim title = "" ->
     get market "yes_price" = Ok yesPrice -> Kalshi.present yesPrice = true ->
     Kalshi.market_nominee market
     = Ok (Some (Quote.mk "" None (Kalshi.kalshiPriceToAmericanOdds yesPrice))))
  /\ (forall (nominee : Nominee.t) (q : Quote.t),
     Quote.name q = "" -> Kalshi.is_match nominee q = true)
  /\ (forall (P : Platform) (fetch : network) (today ticker firebasePath categoryName : string)
             (db : database) (l : list Nominee.t) (q : Quote.t),
     In q (Kalshi.fetchKalshiData fetch ticker) -> Quote.name q = "" ->
     db !! (firebasePath +:+ "/nominees") = Some l -> l <> [] ->
     exists updates : list (nat * field * string),
       Kalshi.updateCategory fetch today ticker firebasePath categoryName db
       = [RefUpdate (firebasePath +:+ "/nominees") updates]
       /\ forall i : nat, (i < length l)%nat ->
            exists o : string,
              In (i, OddsOf "kalshi", o) updates /\ In (i, LastUpdated, today) updates).
Proof.
  split; [| split].
  - intros P market title yesPrice Htitle Hne Hblank Hprice Hpresent.
    rewrite (kalshi_market_admitted market title yesPrice Htitle Hne Hprice Hpresent).
    now rewrite Hblank.
  - exact empty_name_matches.
  - intros P fetch today ticker firebasePath categoryName db l q.
    apply blank_title_patch.
Qed.

(** Anora and Wicked are stored and Kalshi lists Conclave and a market
    with a blank title: both nominees get the odds of the blank market. *)
Lemma blank_title_quote_reaches_every_nominee_witness :
  Kalshi.fetchKalshiData
    (Sample.always (Response true
       (Sample.series [Sample.contract "Conclave" 60; blank_contract 40])))
    "KXBAFTAFILM"
  = [Quote.mk "Conclave" None "-150"; Quote.mk "" None "+150"]
  /\ exists updates : list (nat * field * string),
       Kalshi.updateCategory
         (Sample.always (Response true
            (Sample.series [Sample.contract "Conclave" 60; blank_contract 40])))
         "2026-02-01" "KXBAFTAFILM" "baftas/picture" "Best Picture"
         {[ "baftas/picture/nominees" := [Sample.stored "Anora"; Sample.stored "Wicked"] ]}
       = [RefUpdate ("baftas/picture" +:+ "/nominees") updates]
       /\ forall i : nat, (i < 2)%nat ->
            exists o : string,
              In (i, OddsOf "kalshi", o) updates /\ In (i, LastUpdated, "2026-02-01") updates.
Proof.
  split; [vm_compute; reflexivity |].
  apply (proj2 (proj2 blank_title_quote_reaches_every_nominee) reference_platform
           (Sample.always (Response true
              (Sample.series [Sample.contract "Conclave" 60; blank_contract 40])))
           "2026-02-01" "KXBAFTAFILM" "baftas/picture" "Best Picture"
           {[ "baftas/picture/nominees" := [Sample.stored "Anora"; Sample.stored "Wicked"] ]}
           [Sample.stored "Anora"; Sample.stored "Wicked"] (Quote.mk "" None "+150")).
  - vm_compute. tauto.
  - reflexivity.
  - apply lookup_singleton_eq.
  - discriminate.
Defined.

(* ================================================================== *)
(** * Whole runs *)
(* ================================================================== *)

Section Runs.
Context (source today : string).

Lemma set_by_name pick (n : Nominee.t) :
  Nominee.name (set_by source today pick n) = Nominee.name n.
Proof. unfold set_by. now destruct (pick _). Qed.

Lemma set_by_none (n : Nominee.t) : set_by source today (fun _ => None) n = n.
Proof. reflexivity. Qed.

Lemma map_set_by_none (l : list Nominee.t) :
  map (set_by source today (fun _ => None)) l = l.
Proof. induction l as [| n l IH]; cbn [map]; [reflexivity | now rewrite IH]. Qed.

(** Of two successive settings the later one wins. *)
Lemma set_by_set_by pick1 pick2 (n : Nominee.t) :
  set_by source today pick2 (set_by source today pick1 n)
  = set_by source today
      (fun name => match pick2 name with Some o => Some o | None => pick1 name end) n.
Proof.
  unfold set_by at 1 3. rewrite set_by_name.
  destruct (pick2 (Nominee.name n)) as [o2 |]; [| reflexivity].
  unfold set_by. destruct (pick1 (Nominee.name n)) as [o1 |]; [| reflexivity].
  unfold with_odds. cbn [Nominee.name Nominee.odds Nominee.others].
  now rewrite insert_insert_eq.
Qed.

Lemma set_by_idempotent pick (n : Nominee.t) :
  set_by source today pick (set_by source today pick n) = set_by source today pick n.
Proof.
  rewrite set_by_set_by. unfold set_by. now destruct (pick (Nominee.name n)).
Qed.

Lemma by_name_id : by_name source today (fun db => db).
Proof.
  exists (fun _ _ => None). intros db path.
  destruct (db !! path) as [l |]; cbn; [now rewrite map_set_by_none | reflexivity].
Qed.

Lemma by_name_ext (F G : database -> database) :
  (forall db, F db = G db) -> by_name source today G -> by_name source today F.
Proof. intros E [pick Hpick]. exists pick. intros db path. now rewrite E. Qed.

Lemma by_name_compose (F G : database -> database) :
  by_name source today F -> by_name source today G ->
  by_name source today (fun db => G (F db)).
Proof.
  intros [pickF HF] [pickG HG].
  exists (fun path name =>
            match pickG path name with Some o => Some o | None => pickF path name end).
  intros db path. rewrite HG, HF.
  destruct (db !! path) as [l |]; cbn; [| reflexivity].
  f_equal. rewrite map_map. apply map_ext. intros n. apply set_by_set_by.
Qed.

Lemma by_name_fold {C} (step : C -> database -> database) (cats : list C) :
  (forall c, by_name source today (step c)) ->
  by_name source today (fun db => fold_left (fun db c => step c db) cats db).
Proof.
  intros Hstep. induction cats as [| c cats IH]; cbn [fold_left]; [apply by_name_id |].
  exact (by_name_compose (step c) _ (Hstep c) IH).
Qed.

(** Refreshing the list at one path, with a choice made on names. *)
Lemma by_name_refresh (choose : Nominee.t -> option Quote.t)
    (chooser : string -> option Quote.t) (p : string) :
  (forall n, choose n = chooser (Nominee.name n)) ->
  by_name source today (alter (map (refresh today source choose)) p).
Proof.
  intros Hchoose.
  exists (fun path name =>
            if decide (path = p) then option_map Quote.odds (chooser name) else None).
  intros db path. destruct (decide (path = p)) as [-> | Hne].
  - rewrite lookup_alter_eq. destruct (db !! p) as [l |]; cbn; [| reflexivity].
    f_equal. apply map_ext. intros n. unfold refresh, set_by. rewrite Hchoose.
    now destruct (chooser (Nominee.name n)).
  - rewrite lookup_alter_ne by congruence.
    destruct (db !! path) as [l |]; cbn; [now rewrite map_set_by_none | reflexivity].
Qed.

Lemma by_name_frame (F : database -> database) (db : database) :
  by_name source today F -> run_frame source today db (F db).
Proof.
  intros [pick Hpick] path. rewrite Hpick.
  destruct (db !! path) as [l |]; cbn; [| reflexivity].
  eexists. split; [reflexivity |]. split; [apply length_map |].
  intros i n Hi. exists (set_by source today (pick path) n).
  change (map (set_by source today (pick path)) l)
    with (set_by source today (pick path) <$> l).
  rewrite list_lookup_fmap, Hi. split; [reflexivity |].
  unfold set_by. destruct (pick path (Nominee.name n)) as [o |]; cbn.
  - repeat split.
    + intros s Hs. now apply lookup_insert_ne.
    + right. split; [reflexivity |]. exists o. apply lookup_insert_eq.
  - repeat split. now left.
Qed.

Lemma by_name_idempotent (F : database -> database) (db : database) :
  by_name source today F -> F (F db) = F db.
Proof.
  intros [pick Hpick]. apply map_eq. intros path. rewrite !Hpick.
  destruct (db !! path) as [l |]; cbn; [| reflexivity].
  f_equal. rewrite map_map. apply map_ext. intros n. apply set_by_idempotent.
Qed.

End Runs.

Section LocalSteps.

Lemma local_step_elsewhere (F : database -> database) (p path : string) (db : database) :
  local_step F p -> path <> p -> F db !! path = db !! path.
Proof. intros [g Hg] Hne. rewrite Hg. now apply lookup_alter_ne. Qed.

Lemma local_step_here (F : database -> database) (p : string) (db1 db2 : database) :
  local_step F p -> db1 !! p = db2 !! p -> F db1 !! p = F db2 !! p.
Proof. intros [g Hg] E. now rewrite !Hg, !lookup_alter_eq, E. Qed.

Lemma local_step_id (p : string) : local_step (fun db => db) p.
Proof.
  exists (fun l => l). intros db. symmetry. now apply alter_id.
Qed.

(** A run leaves alone every path that no category of it writes to. *)
Lemma fold_elsewhere {C} (step : C -> database -> database) (place : C -> string)
    (cats : list C) (db : database) (path : string) :
  (forall c, local_step (step c) (place c)) ->
  ~ In path (map place cats) ->
  fold_left (fun db c => step c db) cats db !! path = db !! path.
Proof.
  intros Hlocal. revert db. induction cats as [| c cats IH]; intros db Hnot; [reflexivity |].
  cbn [fold_left]. cbn [map In] in Hnot. rewrite IH by tauto.
  apply (local_step_elsewhere _ (place c)); [apply Hlocal | intros ->; tauto].
Qed.

(** When no two categories share a path, the list at the path of a
    category is what the update of that category alone makes of it. *)
Lemma fold_independent {C} (step : C -> database -> database) (place : C -> string)
    (cats : list C) (db : database) (c : C) :
  (forall c, local_step (step c) (place c)) ->
  NoDup (map place cats) -> In c cats ->
  fold_left (fun db c => step c db) cats db !! place c = step c db !! place c.
Proof.
  intros Hlocal. revert db. induction cats as [| c0 cats IH]; intros db Hnodup Hin;
    [destruct Hin |].
  cbn [map] in Hnodup. apply NoDup_cons in Hnodup as [Hfresh Hnodup].
  rewrite list_elem_of_In in Hfresh. cbn [fold_left]. destruct Hin as [-> | Hin].
  - now apply (fold_elsewhere step place).
  - rewrite (IH _ Hnodup Hin).
    assert (Hne : place c <> place c0).
    { intros E. apply Hfresh. rewrite <- E. now apply in_map. }
    apply local_step_here; [apply Hlocal |].
    now apply (local_step_elsewhere _ (place c0)).
Qed.

End LocalSteps.

(* ================================================================== *)
(** * What the bulk search collects *)
(* ================================================================== *)

Section BulkCollection.
Context `{Platform} (fetch : network) (today : string).

Lemma existsb_In_string (needle : string) (items : list value) :
  existsb (fun x => match x with VStr s => String.eqb s needle | _ => false end) items = true
  <-> In (VStr needle) items.
Proof.
  rewrite existsb_exists. split.
  - intros (x & Hin & E). destruct x as [| | | | s | |]; try discriminate.
    apply String.eqb_eq in E. now subst s.
  - intros Hin. exists (VStr needle). split; [exact Hin | apply String.eqb_refl].
Qed.

Lemma includes_method_mentions (question : value) (marker : string) :
  includes_method question marker = Ok true <-> mentions question marker.
Proof.
  destruct question as [| | b | n | s | items | props]; cbn [includes_method mentions];
    try (split; [discriminate | tauto]).
  - rewrite <- includes_spec. split; [now intros [= ->] | now intros ->].
  - rewrite <- existsb_In_string. split; [now intros [= ->] | now intros ->].
Qed.

Lemma includes_method_total (question : value) (marker1 marker2 : string) (b : bool) :
  includes_method question marker1 = Ok b ->
  exists b', includes_method question marker2 = Ok b'.
Proof.
  destruct question as [| | c | n | s | items | props]; cbn [includes_method];
    try discriminate; eauto.
Qed.

Lemma mentions_truthy (question : value) (marker : string) :
  marker <> "" -> mentions question marker -> truthy question = true.
Proof.
  intros Hmarker. destruct question as [| | b | n | s | items | props]; cbn [mentions truthy];
    try tauto.
  intros (before & after & ->). destruct (String.eqb_spec (before +:+ marker +:+ after) "") as [E |];
    [| reflexivity].
  destruct before; [| discriminate]. destruct marker; [congruence | discriminate].
Qed.

(** The listing filter keeps exactly the markets whose question mentions
    one of the two markers. *)
Lemma is_oscars_spec (m : value) : BulkSearch.is_oscars m = Ok true <-> about_oscars m.
Proof.
  unfold BulkSearch.is_oscars, about_oscars. split.
  - destruct (get m "question") as [question | e]; cbn [bind]; [| discriminate].
    destruct (truthy question); [| discriminate].
    destruct (includes_method question "Oscars 2026") as [[] | e] eqn:E1; cbn [bind];
      try discriminate.
    + intros _. exists question. split; [reflexivity |]. left.
      now apply includes_method_mentions.
    + intros E2. exists question. split; [reflexivity |]. right.
      now apply includes_method_mentions.
  - intros (question & -> & Hmentions). cbn [bind].
    assert (Htruthy : truthy question = true)
      by (destruct Hmentions as [Hm | Hm]; (eapply mentions_truthy; [| exact Hm]; discriminate)).
    rewrite Htruthy. destruct Hmentions as [Hm | Hm]; apply includes_method_mentions in Hm.
    + now rewrite Hm.
    + destruct (includes_method_total _ _ "Oscars 2026" _ Hm) as [[] ->]; cbn [bind];
        [reflexivity | exact Hm].
Qed.

Lemma filterM_In {A} (f : A -> result bool) (l kept : list A) (x : A) :
  filterM f l = Ok kept -> In x kept -> In x l /\ f x = Ok true.
Proof.
  revert kept. induction l as [| y l IH]; intros kept; cbn [filterM].
  - intros [= <-] [].
  - destruct (f y) as [b | e] eqn:Ey; cbn [bind]; [| discriminate].
    destruct (filterM f l) as [kept' | e]; cbn [bind]; [| discriminate].
    intros [= <-] Hin. destruct b.
    + destruct Hin as [<- | Hin]; [now split; [left |] |].
      destruct (IH kept' eq_refl Hin). split; [now right | assumption].
    + destruct (IH kept' eq_refl Hin). split; [now right | assumption].
Qed.

Lemma filterM_total {A} (f : A -> result bool) (l : list A) :
  (forall x, In x l -> exists b, f x = Ok b) -> exists kept, filterM f l = Ok kept.
Proof.
  induction l as [| y l IH]; intros Hall; cbn [filterM]; [now exists [] |].
  destruct (Hall y (or_introl eq_refl)) as [b ->].
  destruct (IH (fun x Hx => Hall x (or_intror Hx))) as [kept ->]. cbn [bind]. eauto.
Qed.

(** What a turn of the loop adds to the markets collected. *)
Lemma page_collects (offset : Z) (allMarkets : list value) :
  forall all' : list value,
    BulkSearch.page fetch offset allMarkets = BulkSearch.Break all'
    \/ BulkSearch.page fetch offset allMarkets = BulkSearch.Continue all' ->
    forall m : value, In m all' ->
      In m allMarkets \/ (listed_at fetch offset m /\ BulkSearch.is_oscars m = Ok true).
Proof.
  intros all'. unfold BulkSearch.page.
  destruct (fetch _) as [| ok body] eqn:Hfetch; [intros [E | E]; discriminate |].
  destruct ok; cbn [negb]; [| intros [E | E]; discriminate].
  destruct (JSON_parse (VStr body)) as [data |] eqn:Hparse; [| intros [E | E]; discriminate].
  assert (Hsame : BulkSearch.Break allMarkets = BulkSearch.Break all'
                  \/ BulkSearch.Break allMarkets = BulkSearch.Continue all' ->
                  forall m, In m all' ->
                    In m allMarkets
                    \/ (listed_at fetch offset m /\ BulkSearch.is_oscars m = Ok true)).
  { intros [[= <-] | E]; [auto | discriminate]. }
  destruct data as [| | | | | [| x markets] |]; try exact Hsame.
  destruct (filterM BulkSearch.is_oscars (x :: markets)) as [oscarsMarkets | e] eqn:Hfilter;
    [| intros [E | E]; discriminate].
  intros Hstep m Hin.
  assert (Hall : all' = (allMarkets ++ oscarsMarkets)%list)
    by (destruct (_ <? _)%Z; destruct Hstep as [E | E]; congruence).
  subst all'. apply in_app_iff in Hin as [Hin | Hin]; [now left | right].
  destruct (filterM_In _ _ _ _ Hfilter Hin) as [Hlisted Hoscars].
  split; [| exact Hoscars]. now exists body, (x :: markets).
Qed.

Lemma paginate_collects (offset : Z) (allMarkets : list value) :
  forall collected : list value,
    snd (BulkSearch.paginate (BulkSearch.page fetch) offset allMarkets) = Ok collected ->
    forall m : value, In m collected ->
      In m allMarkets
      \/ exists o : Z,
           In o (fst (BulkSearch.paginate (BulkSearch.page fetch) offset allMarkets))
           /\ listed_at fetch o m /\ BulkSearch.is_oscars m = Ok true.
Proof.
  funelim (BulkSearch.paginate (BulkSearch.page fetch) offset allMarkets);
    cbn [BulkSearch.logged fst snd In]; intros collected Hcollected m Hin.
  - injection Hcollected as <-.
    destruct (page_collects offset allMarkets _ (or_introl Heq) m Hin) as [Hm | Hm];
      [now left | right; exists offset; tauto].
  - discriminate.
  - match goal with
    | IH : forall _ : list value, _ |- _ =>
        destruct (IH collected Hcollected m Hin) as [Hm | (o & Ho & Hm)]
    end.
    + destruct (page_collects offset allMarkets _ (or_intror Heq0) m Hm) as [Hm' | Hm'];
        [now left | right; exists offset; tauto].
    + right. exists o. tauto.
  - injection Hcollected as <-.
    destruct (page_collects offset allMarkets _ (or_intror Heq0) m Hin) as [Hm | Hm];
      [now left | right; exists offset; tauto].
Qed.

Lemma collected_markets (m : value) :
  In m (BulkSearch.fetchAllOscarsMarkets fetch) ->
  BulkSearch.is_oscars m = Ok true
  /\ exists o : Z, In o (BulkSearch.requests fetch) /\ listed_at fetch o m.
Proof.
  unfold BulkSearch.fetchAllOscarsMarkets, BulkSearch.requests, BulkSearch.pages.
  destruct (snd (BulkSearch.paginate (BulkSearch.page fetch) 0 [])) as [collected | e] eqn:E;
    cbn [try_catch]; [| intros []].
  intros Hin. destruct (paginate_collects 0 [] collected E m Hin) as [[] | (o & Ho & Hl & Hm)].
  split; [exact Hm | now exists o].
Qed.

(** The category filter reads every market the listing filter kept. *)
Lemma in_category_total (categorySearch : string) (m : value) :
  BulkSearch.is_oscars m = Ok true -> exists b, BulkSearch.in_category categorySearch m = Ok b.
Proof.
  unfold BulkSearch.is_oscars, BulkSearch.in_category.
  destruct (get m "question") as [question | e]; cbn [bind]; [| discriminate].
  destruct (truthy question); [| eauto].
  destruct (includes_method question "Oscars 2026") as [b | e] eqn:E; cbn [bind];
    [| discriminate].
  intros _. exact (includes_method_total _ _ categorySearch _ E).
Qed.

Lemma extractNominees_total (markets : list value) (categorySearch : string) :
  (forall m, In m markets -> BulkSearch.is_oscars m = Ok true) ->
  exists quotes, BulkSearch.extractNominees markets categorySearch = Ok quotes.
Proof.
  intros Hall. unfold BulkSearch.extractNominees.
  destruct (filterM_total (BulkSearch.in_category categorySearch) markets) as [kept ->].
  - intros m Hm. apply in_category_total, Hall, Hm.
  - cbn [bind]. destruct (_ =? _)%nat; eauto.
Qed.


End BulkCollection.

(** X12.  Every market the bulk search returns was on a listing page it
    requested, in a response with a success status, and has a question that
    mentions Oscars 2026 or Academy Awards 2026; the listing filter keeps a
    market exactly when its question does. *)
Theorem bulk_search_returns_listed_oscars_markets :
  forall (P : Platform) (fetch : network),
    (forall m : value, BulkSearch.is_oscars m = Ok true <-> about_oscars m)
    /\ (forall m : value, In m (BulkSearch.fetchAllOscarsMarkets fetch) ->
          about_oscars m
          /\ exists o : Z, In o (BulkSearch.requests fetch) /\ listed_at fetch o m).
Proof.
  intros P fetch. split; [exact is_oscars_spec |].
  intros m Hin. destruct (collected_markets fetch m Hin) as [Hoscars Hlisted].
  split; [now apply is_oscars_spec | exact Hlisted].
Qed.


(* ================================================================== *)
(** * The scripts as changes of the database *)
(* ================================================================== *)

Section Steps.
Context `{Platform} (fetch : network) (today : string).

Lemma refresh_none_id (source : string) (l : list Nominee.t) :
  map (refresh today source (fun _ => None)) l = l.
Proof. induction l as [| n l IH]; cbn [map]; [reflexivity | now rewrite IH]. Qed.

(** The update of one category by the by-slug script refreshes the list at
    its path. *)
Lemma by_slug_step (slug path name : string) (db : database) :
  apply_writes db (BySlug.updateCategory fetch today slug path name db)
  = alter (map (refresh today "polymarket"
                  (fun n => find (BySlug.is_match n) (BySlug.fetchPolymarketData fetch slug))))
          (path +:+ "/nominees") db.
Proof. rewrite by_slug_writes. apply patch_writes_effect. Qed.

Lemma kalshi_step (ticker path name : string) (db : database) :
  apply_writes db (Kalshi.updateCategory fetch today ticker path name db)
  = alter (map (refresh today "kalshi"
                  (fun n => find (Kalshi.is_match n) (Kalshi.fetchKalshiData fetch ticker))))
          (path +:+ "/nominees") db.
Proof. rewrite kalshi_writes. apply patch_writes_effect. Qed.

Lemma replace_update_effect (nominees : option (list Quote.t)) (path : string) (db : database) :
  apply_writes db (SlugReplace.updateFirebase today nominees path db)
  = alter (map (refresh today "polymarket"
                  (fun n => find (SlugReplace.is_match n) (default [] nominees))))
          (path +:+ "/nominees") db.
Proof.
  unfold SlugReplace.updateFirebase.
  destruct nominees as [[| q quotes] |]; cbn [default from_option id].
  - cbn [apply_writes fold_left]. symmetry. apply alter_id. intros l _. apply refresh_none_id.
  - destruct (db !! (path +:+ "/nominees")) as [[| n l] |] eqn:E;
      cbn [default from_option id apply_writes fold_left apply_write].
    + symmetry. apply alter_id. intros l' El'. assert (l' = []) as -> by congruence. reflexivity.
    + now apply (set_is_alter
                   (map (refresh today "polymarket"
                           (fun n0 => find (SlugReplace.is_match n0) (q :: quotes))))).
    + symmetry. now apply alter_id'.
  - cbn [apply_writes fold_left]. symmetry. apply alter_id. intros l _. apply refresh_none_id.
Qed.

Lemma replace_step (slug path : string) (db : database) :
  match SlugReplace.fetchCategory fetch slug path with
  | Some nominees =>
      apply_writes db (SlugReplace.updateFirebase today (Some nominees) path db)
  | None => db
  end
  = alter (map (refresh today "polymarket"
                  (fun n => find (SlugReplace.is_match n)
                              (default [] (SlugReplace.fetchCategory fetch slug path)))))
          (path +:+ "/nominees") db.
Proof.
  destruct (SlugReplace.fetchCategory fetch slug path) as [nominees |].
  - apply replace_update_effect.
  - symmetry. apply alter_id. intros l _. apply refresh_none_id.
Qed.

Lemma legacy_no_write (category : string * string) (db : database) :
  SlugLegacy.updateCategory fetch today category db = [].
Proof.
  destruct category as [slug path]. unfold SlugLegacy.updateCategory.
  now rewrite legacy_returns_nothing.
Qed.

Lemma legacy_run (cats : list (string * string)) (db : database) :
  SlugLegacy.run fetch today cats db = db.
Proof.
  unfold SlugLegacy.run. induction cats as [| category cats IH]; cbn [fold_left];
    [reflexivity |].
  now rewrite legacy_no_write.
Qed.

Lemma bulk_step (search path category : string) (markets : list value) (db : database)
    (quotes : list Quote.t) :
  BulkSearch.extractNominees markets search = Ok quotes ->
  exists ws : list write,
    BulkSearch.updateCategory today (search, path, category) markets db = Ok ws
    /\ apply_writes db ws
       = alter (map (refresh today "polymarket"
                       (fun n => find (BulkSearch.is_match n) quotes)))
               (path +:+ "/nominees") db.
Proof.
  intros E. eexists. split; [exact (bulk_writes today _ _ _ _ _ _ E) |].
  apply bulk_writes_effect.
Qed.

Lemma bulk_run_cons_ok (search path category : string) cats (markets : list value)
    (db : database) (quotes : list Quote.t) :
  BulkSearch.extractNominees markets search = Ok quotes ->
  BulkSearch.run today ((search, path, category) :: cats) markets db
  = BulkSearch.run today cats markets
      (alter (map (refresh today "polymarket"
                     (fun n => find (BulkSearch.is_match n) quotes)))
             (path +:+ "/nominees") db).
Proof.
  intros E. destruct (bulk_step search path category markets db quotes E) as (ws & Hws & Heff).
  cbn [BulkSearch.run]. now rewrite Hws, Heff.
Qed.

Lemma bulk_run_cons_throw (search path category : string) cats (markets : list value)
    (db : database) (e : exn) :
  BulkSearch.extractNominees markets search = Throw e ->
  BulkSearch.run today ((search, path, category) :: cats) markets db = (1%Z, db).
Proof.
  intros E. cbn [BulkSearch.run]. unfold BulkSearch.updateCategory. now rewrite E.
Qed.

(** ** Each run works nominee by nominee, on names alone *)

Lemma by_slug_run_by_name (cats : list (string * string * string)) :
  by_name "polymarket" today (BySlug.run fetch today cats).
Proof.
  unfold BySlug.run.
  apply (by_name_fold "polymarket" today
           (fun c db => let '(slug, path, name) := c in
                        apply_writes db (BySlug.updateCategory fetch today slug path name db))).
  intros [[slug path] name].
  eapply by_name_ext; [intros db; apply by_slug_step |].
  apply (by_name_refresh _ _ _
           (fun name' => find (BySlug.is_match (Nominee.mk name' ∅ None ∅))
                           (BySlug.fetchPolymarketData fetch slug))).
  reflexivity.
Qed.

Lemma kalshi_run_by_name (cats : list (string * string * string)) :
  by_name "kalshi" today (Kalshi.run fetch today cats).
Proof.
  unfold Kalshi.run.
  apply (by_name_fold "kalshi" today
           (fun c db => let '(ticker, path, name) := c in
                        apply_writes db (Kalshi.updateCategory fetch today ticker path name db))).
  intros [[ticker path] name].
  eapply by_name_ext; [intros db; apply kalshi_step |].
  apply (by_name_refresh _ _ _
           (fun name' => find (Kalshi.is_match (Nominee.mk name' ∅ None ∅))
                           (Kalshi.fetchKalshiData fetch ticker))).
  reflexivity.
Qed.

Lemma replace_run_by_name (cats : list (string * string)) :
  by_name "polymarket" today (SlugReplace.run fetch today cats).
Proof.
  unfold SlugReplace.run.
  apply (by_name_fold "polymarket" today
           (fun c db =>
              let '(slug, path) := c in
              match SlugReplace.fetchCategory fetch slug path with
              | Some nominees =>
                  apply_writes db (SlugReplace.updateFirebase today (Some nominees) path db)
              | None => db
              end)).
  intros [slug path].
  eapply by_name_ext; [intros db; apply replace_step |].
  apply (by_name_refresh _ _ _
           (fun name' => find (SlugReplace.is_match (Nominee.mk name' ∅ None ∅))
                           (default [] (SlugReplace.fetchCategory fetch slug path)))).
  reflexivity.
Qed.

Lemma bulk_run_by_name (cats : list (string * string * string)) (markets : list value) :
  by_name "polymarket" today (fun db => snd (BulkSearch.run today cats markets db)).
Proof.
  induction cats as [| [[search path] category] cats IH]; [apply by_name_id |].
  destruct (BulkSearch.extractNominees markets search) as [quotes | e] eqn:E.
  - eapply by_name_ext.
    + intros db. now rewrite (bulk_run_cons_ok search path category cats markets db quotes E).
    + apply (by_name_compose "polymarket" today
               (alter (map (refresh today "polymarket"
                              (fun n => find (BulkSearch.is_match n) quotes)))
                      (path +:+ "/nominees"))
               (fun db => snd (BulkSearch.run today cats markets db))); [| exact IH].
      apply (by_name_refresh _ _ _
               (fun name' => find (BulkSearch.is_match (Nominee.mk name' ∅ None ∅)) quotes)).
      reflexivity.
  - eapply by_name_ext; [| apply by_name_id].
    intros db. now rewrite (bulk_run_cons_throw search path category cats markets db e E).
Qed.

Lemma bulk_main_by_name :
  by_name "polymarket" today (fun db => snd (BulkSearch.main fetch today db)).
Proof.
  unfold BulkSearch.main. destruct (_ =? _)%nat; [apply by_name_id | apply bulk_run_by_name].
Qed.

(** ** Each category update is local to its path *)

Lemma by_slug_local (c : string * string * string) :
  local_step
    (fun db => let '(slug, path, name) := c in
               apply_writes db (BySlug.updateCategory fetch today slug path name db))
    (let '(_, path, _) := c in path +:+ "/nominees").
Proof. destruct c as [[slug path] name]. eexists. intros db. apply by_slug_step. Qed.

Lemma kalshi_local (c : string * string * string) :
  local_step
    (fun db => let '(ticker, path, name) := c in
               apply_writes db (Kalshi.updateCategory fetch today ticker path name db))
    (let '(_, path, _) := c in path +:+ "/nominees").
Proof. destruct c as [[ticker path] name]. eexists. intros db. apply kalshi_step. Qed.

Lemma replace_local (c : string * string) :
  local_step
    (fun db =>
       let '(slug, path) := c in
       match SlugReplace.fetchCategory fetch slug path with
       | Some nominees =>
           apply_writes db (SlugReplace.updateFirebase today (Some nominees) path db)
       | None => db
       end)
    (let '(_, path) := c in path +:+ "/nominees").
Proof. destruct c as [slug path]. eexists. intros db. apply replace_step. Qed.

Lemma bulk_local (markets : list value) (c : string * string * string) :
  local_step
    (fun db => match BulkSearch.updateCategory today c markets db with
               | Ok ws => apply_writes db ws
               | Throw _ => db
               end)
    (let '(_, path, _) := c in path +:+ "/nominees").
Proof.
  destruct c as [[search path] category].
  destruct (BulkSearch.extractNominees markets search) as [quotes | e] eqn:E.
  - eexists. intros db.
    destruct (bulk_step search path category markets db quotes E) as (ws & -> & Heff).
    exact Heff.
  - exists (fun l => l). intros db. unfold BulkSearch.updateCategory. rewrite E. cbn [bind].
    symmetry. now apply alter_id.
Qed.

(** Without an exception the bulk run is the sequence of its category
    updates. *)
Lemma bulk_run_fold (cats : list (string * string * string)) (markets : list value)
    (db : database) :
  (forall m, In m markets -> BulkSearch.is_oscars m = Ok true) ->
  snd (BulkSearch.run today cats markets db)
  = fold_left (fun db c => match BulkSearch.updateCategory today c markets db with
                           | Ok ws => apply_writes db ws
                           | Throw _ => db
                           end) cats db.
Proof.
  intros Hall. revert db. induction cats as [| [[search path] category] cats IH]; intros db;
    [reflexivity |].
  cbn [BulkSearch.run fold_left].
  destruct (extractNominees_total markets search Hall) as [quotes E].
  rewrite (bulk_writes today search path category markets db quotes E). apply IH.
Qed.

End Steps.

(* ================================================================== *)
(** * The replace script *)
(* ================================================================== *)

Section ReplaceScript.
Context `{Platform} (fetch : network) (today : string).

Lemma replace_no_usable_response (slug path : string) :
  no_usable_response (fetch (Polymarket.events_url slug)) ->
  SlugReplace.fetchCategory fetch slug path = None.
Proof.
  unfold SlugReplace.fetchCategory, no_usable_response, JSON_parse_or_throw.
  destruct (fetch _) as [| ok body]; [reflexivity |].
  destruct ok; cbn [negb]; [| reflexivity].
  intros [Hok | [Hblank | Hparse]]; [discriminate | |].
  - now rewrite Hblank.
  - destruct (String.eqb (trim body) ""); [reflexivity |]. now rewrite Hparse.
Qed.

Lemma mapM_length {A B} (f : A -> result B) (l : list A) (l' : list B) :
  mapM f l = Ok l' -> length l' = length l.
Proof.
  revert l'. induction l as [| x l IH]; intros l'; cbn [mapM].
  - now intros [= <-].
  - destruct (f x) as [y | e]; cbn [bind]; [| discriminate].
    destruct (mapM f l) as [ys | e]; cbn [bind]; [| discriminate].
    intros [= <-]. cbn [length]. now rewrite (IH ys eq_refl).
Qed.

Lemma replace_quotes_of_markets (slug path : string) (quotes : list Quote.t) :
  SlugReplace.fetchCategory fetch slug path = Some quotes ->
  exists items : list value,
    mapped_markets (fetch (Polymarket.events_url slug)) items
    /\ (length quotes <= length items)%nat
    /\ forall q : Quote.t, In q quotes -> Quote.name q <> "".
Proof.
  unfold SlugReplace.fetchCategory, JSON_parse_or_throw.
  destruct (fetch _) as [| ok body] eqn:Hfetch; cbn [try_catch]; [discriminate |].
  destruct ok; cbn [negb]; [| discriminate].
  destruct (String.eqb_spec (trim body) "") as [Hblank | Hblank]; [discriminate |].
  destruct (JSON_parse (VStr body)) as [data |] eqn:Hparse; cbn [bind try_catch];
    [| discriminate].
  destruct data as [| | | | | [| event rest] |]; cbn [try_catch]; try discriminate.
  destruct (get event "title") as [title | e]; cbn [bind try_catch]; [| discriminate].
  destruct (get event "markets") as [markets | e] eqn:Hmarkets; cbn [bind try_catch];
    [| discriminate].
  destruct markets as [| | | | | [| m items] |]; cbn [try_catch]; try discriminate.
  destruct (mapM SlugReplace.market_entry (m :: items)) as [entries | e] eqn:Hentries;
    cbn [bind try_catch]; [| discriminate].
  destruct (mapM SlugReplace.kept entries) as [nominees | e] eqn:Hkept;
    cbn [bind try_catch]; [| discriminate].
  intros [= <-]. exists (m :: items).
  split; [exists body, event, rest; repeat split; [assumption .. | discriminate] |].
  split.
  - apply mapM_length in Hentries, Hkept. rewrite <- Hentries, <- Hkept. apply length_omap_le.
  - intros q Hq. rewrite <- list_elem_of_In, list_elem_of_omap in Hq.
    destruct Hq as (o & Ho & Eo). cbn in Eo. subst o.
    clear Hentries. revert nominees Hkept Ho.
    induction entries as [| entry entries IH]; intros nominees; cbn [mapM].
    + intros [= <-] Ho. now apply elem_of_nil in Ho.
    + destruct (SlugReplace.kept entry) as [o | e] eqn:Hentry; cbn [bind]; [| discriminate].
      destruct (mapM SlugReplace.kept entries) as [os | e]; cbn [bind]; [| discriminate].
      intros [= <-] Ho. apply elem_of_cons in Ho as [<- | Ho]; [| exact (IH os eq_refl Ho)].
      unfold SlugReplace.kept in Hentry.
      destruct (truthy (SlugReplace.name entry)) eqn:Htruthy; [| discriminate].
      destruct (SlugReplace.name entry) as [| | | | s | |]; cbn [String_method bind] in Hentry;
        try discriminate.
      destruct (negb _); [| discriminate]. injection Hentry as <-.
      cbn [Quote.name]. now apply truthy_string.
Qed.

Lemma replace_update_writes (nominees : option (list Quote.t)) (path : string)
    (db : database) (w : write) :
  In w (SlugReplace.updateFirebase today nominees path db) ->
  exists l : list Nominee.t,
    db !! (path +:+ "/nominees") = Some l /\ l <> []
    /\ w = RefSet (path +:+ "/nominees")
             (map (refresh today "polymarket"
                     (fun n => find (SlugReplace.is_match n) (default [] nominees))) l).
Proof.
  unfold SlugReplace.updateFirebase.
  destruct nominees as [[| q quotes] |]; cbn [default from_option id In]; try tauto.
  destruct (db !! (path +:+ "/nominees")) as [[| n l] |]; cbn [default from_option id In];
    try tauto.
  intros [<- | []]. exists (n :: l). repeat split. discriminate.
Qed.

Lemma replace_chosen (quotes : list Quote.t) (n : Nominee.t) (q : Quote.t) :
  find (SlugReplace.is_match n) quotes = Some q ->
  In q quotes /\ toLowerCase (Quote.name q) = toLowerCase (Nominee.name n).
Proof.
  intros E. apply find_some in E as [Hin E]. split; [exact Hin |].
  now apply String.eqb_eq in E.
Qed.

End ReplaceScript.

(** X14.  The replace script returns null for a category, and leaves the
    database as it is, when the request is rejected, the status is not a
    success, or the body is blank or not JSON.  What it returns otherwise
    comes from a response with a success status whose first event has a
    non-empty array of markets: no more quotes than markets, none with an
    empty name. *)
Theorem replace_script_fails_closed :
  forall (P : Platform) (fetch : network) (today slug path : string) (db : database),
    (no_usable_response (fetch (Polymarket.events_url slug)) ->
     SlugReplace.fetchCategory fetch slug path = None
     /\ forall cats : list (string * string),
          SlugReplace.run fetch today ((slug, path) :: cats) db
          = SlugReplace.run fetch today cats db)
    /\ (forall quotes : list Quote.t,
          SlugReplace.fetchCategory fetch slug path = Some quotes ->
          exists items : list value,
            mapped_markets (fetch (Polymarket.events_url slug)) items
            /\ (length quotes <= length items)%nat
            /\ forall q : Quote.t, In q quotes -> Quote.name q <> "").
Proof.
  intros P fetch today slug path db. split; [| apply replace_quotes_of_markets].
  intros Hfail. pose proof (replace_no_usable_response fetch slug path Hfail) as E.
  split; [exact E |]. intros cats. unfold SlugReplace.run. cbn [fold_left]. now rewrite E.
Qed.

Lemma replace_script_fails_closed_witness :
  SlugReplace.fetchCategory (Sample.always (Response true "   ")) "slug" "oscars/best-picture"
  = None
  /\ SlugReplace.fetchCategory (Sample.always (Response false (Sample.events [Sample.conclave])))
       "slug" "oscars/best-picture"
     = None
  /\ exists items : list value,
       mapped_markets (Response true (Sample.events [Sample.untitled; Sample.conclave])) items
       /\ (1 <= length items)%nat.
Proof.
  split; [| split].
  - refine (proj1 (proj1 (replace_script_fails_closed reference_platform
                            (Sample.always (Response true "   ")) "2026-03-01"
                            "slug" "oscars/best-picture" ∅) _)).
    right. left. reflexivity.
  - refine (proj1 (proj1 (replace_script_fails_closed reference_platform
                            (Sample.always (Response false (Sample.events [Sample.conclave])))
                            "2026-03-01" "slug" "oscars/best-picture" ∅) _)).
    now left.
  - destruct (proj2 (replace_script_fails_closed reference_platform
                       (Sample.always (Response true
                          (Sample.events [Sample.untitled; Sample.conclave])))
                       "2026-03-01" "slug" "oscars/best-picture" ∅)
                    [Quote.mk "Conclave" (Some (Fin 0.6)) "-150"])
      as (items & Hitems & Hlen & _).
    + vm_compute. reflexivity.
    + exists items. split; [exact Hitems | exact Hlen].
Defined.

(** X15.  The update of the replace script writes at most once, the whole
    list at the path of the category, and only when it was given quotes and
    the list stored there is not empty.  It leaves every other path alone and creates nothing; at
    the path it keeps the length and order of the list and, nominee by
    nominee, the name and every field but the Polymarket odds and the date,
    which it sets for exactly the nominees that have a quote of the same
    name up to case, from the first such quote. *)
Theorem replace_script_update_frame :
  forall (today : string) (nominees : option (list Quote.t)) (path : string) (db : database),
    let place := path +:+ "/nominees" in
    let choose := fun n => find (SlugReplace.is_match n) (default [] nominees) in
    let ws := SlugReplace.updateFirebase today nominees path db in
    update_frame today "polymarket" choose place db (apply_writes db ws)
    /\ (length ws <= 1)%nat
    /\ (default [] nominees = [] -> ws = [])
    /\ (forall w : write, In w ws ->
          exists l : list Nominee.t,
            db !! place = Some l /\ l <> []
            /\ w = RefSet place (map (refresh today "polymarket" choose) l))
    /\ (forall (n : Nominee.t) (q : Quote.t), choose n = Some q ->
          In q (default [] nominees)
          /\ toLowerCase (Quote.name q) = toLowerCase (Nominee.name n)).
Proof.
  intros today nominees path db place choose ws. subst ws place choose.
  split; [| split; [| split; [| split]]].
  - rewrite replace_update_effect. apply alter_update_frame.
  - unfold SlugReplace.updateFirebase.
    destruct nominees as [[| q quotes] |]; cbn [length]; try lia.
    destruct (default [] (db !! _)); cbn [length]; lia.
  - unfold SlugReplace.updateFirebase.
    destruct nominees as [[| q quotes] |]; cbn [default from_option id]; congruence.
  - apply replace_update_writes.
  - intros n q. apply replace_chosen.
Qed.

Lemma replace_script_update_frame_witness :
  SlugReplace.updateFirebase "2026-03-01" (Some [Sample.quote "OPPENHEIMER" "-456"])
    "oscars/best-picture"
    {[ "oscars/best-picture/nominees" := [Sample.stored "Oppenheimer"; Sample.stored "Barbie"] ]}
  = [RefSet "oscars/best-picture/nominees"
       [with_odds "polymarket" "-456" "2026-03-01" (Sample.stored "Oppenheimer");
        Sample.stored "Barbie"]].
Proof.
  destruct (replace_script_update_frame "2026-03-01" (Some [Sample.quote "OPPENHEIMER" "-456"])
              "oscars/best-picture"
              {[ "oscars/best-picture/nominees" :=
                   [Sample.stored "Oppenheimer"; Sample.stored "Barbie"] ]})
    as (_ & Hlen & _ & Hws & _).
  cbv zeta in Hws, Hlen.
  destruct (SlugReplace.updateFirebase _ _ _ _) as [| w ws] eqn:E; [discriminate E |].
  destruct ws as [| w' ws]; [| cbn in Hlen; lia].
  destruct (Hws w (or_introl eq_refl)) as (l & Hl & _ & ->).
  change ("oscars/best-picture" +:+ "/nominees") with "oscars/best-picture/nominees" in *.
  rewrite lookup_singleton_eq in Hl. injection Hl as <-.
  reflexivity.
Defined.

(* ================================================================== *)
(** * Properties of whole runs *)
(* ================================================================== *)

Section WholeRuns.
Context `{Platform} (fetch : network) (today : string).

Lemma by_slug_run_elsewhere cats (db : database) (path : string) :
  ~ In path (named_paths cats) -> BySlug.run fetch today cats db !! path = db !! path.
Proof.
  unfold BySlug.run, named_paths. intros Hnot.
  apply (fold_elsewhere
           (fun c db => let '(slug, path, name) := c in
                        apply_writes db (BySlug.updateCategory fetch today slug path name db))
           (fun c => let '(_, path, _) := c in path +:+ "/nominees"));
    [apply by_slug_local | exact Hnot].
Qed.

Lemma kalshi_run_elsewhere cats (db : database) (path : string) :
  ~ In path (named_paths cats) -> Kalshi.run fetch today cats db !! path = db !! path.
Proof.
  unfold Kalshi.run, named_paths. intros Hnot.
  apply (fold_elsewhere
           (fun c db => let '(ticker, path, name) := c in
                        apply_writes db (Kalshi.updateCategory fetch today ticker path name db))
           (fun c => let '(_, path, _) := c in path +:+ "/nominees"));
    [apply kalshi_local | exact Hnot].
Qed.

Lemma replace_run_elsewhere cats (db : database) (path : string) :
  ~ In path (slug_paths cats) -> SlugReplace.run fetch today cats db !! path = db !! path.
Proof.
  unfold SlugReplace.run, slug_paths. intros Hnot.
  apply (fold_elsewhere
           (fun c db =>
              let '(slug, path) := c in
              match SlugReplace.fetchCategory fetch slug path with
              | Some nominees =>
                  apply_writes db (SlugReplace.updateFirebase today (Some nominees) path db)
              | None => db
              end)
           (fun c => let '(_, path) := c in path +:+ "/nominees"));
    [apply replace_local | exact Hnot].
Qed.

Lemma bulk_run_elsewhere cats (markets : list value) (db : database) (path : string) :
  ~ In path (named_paths cats) ->
  snd (BulkSearch.run today cats markets db) !! path = db !! path.
Proof.
  revert db. induction cats as [| [[search place] category] cats IH]; intros db Hnot;
    [reflexivity |].
  assert (Hhere : place +:+ "/nominees" <> path) by (intros E; apply Hnot; left; exact E).
  assert (Hrest : ~ In path (named_paths cats)) by (intros Hin; apply Hnot; right; exact Hin).
  destruct (BulkSearch.extractNominees markets search) as [quotes | e] eqn:E.
  - rewrite (bulk_run_cons_ok today search place category cats markets db quotes E).
    rewrite (IH _ Hrest). now apply lookup_alter_ne.
  - now rewrite (bulk_run_cons_throw today search place category cats markets db e E).
Qed.

Lemma by_slug_run_independent cats (db : database) (slug path name : string) :
  NoDup (named_paths cats) -> In (slug, path, name) cats ->
  BySlug.run fetch today cats db !! (path +:+ "/nominees")
  = apply_writes db (BySlug.updateCategory fetch today slug path name db)
      !! (path +:+ "/nominees").
Proof.
  unfold BySlug.run, named_paths. intros Hnodup Hin.
  exact (fold_independent
           (fun c db => let '(slug, path, name) := c in
                        apply_writes db (BySlug.updateCategory fetch today slug path name db))
           (fun c => let '(_, path, _) := c in path +:+ "/nominees")
           cats db (slug, path, name) (by_slug_local fetch today) Hnodup Hin).
Qed.

Lemma kalshi_run_independent cats (db : database) (ticker path name : string) :
  NoDup (named_paths cats) -> In (ticker, path, name) cats ->
  Kalshi.run fetch today cats db !! (path +:+ "/nominees")
  = apply_writes db (Kalshi.updateCategory fetch today ticker path name db)
      !! (path +:+ "/nominees").
Proof.
  unfold Kalshi.run, named_paths. intros Hnodup Hin.
  exact (fold_independent
           (fun c db => let '(ticker, path, name) := c in
                        apply_writes db (Kalshi.updateCategory fetch today ticker path name db))
           (fun c => let '(_, path, _) := c in path +:+ "/nominees")
           cats db (ticker, path, name) (kalshi_local fetch today) Hnodup Hin).
Qed.

Lemma replace_run_independent cats (db : database) (slug path : string) :
  NoDup (slug_paths cats) -> In (slug, path) cats ->
  SlugReplace.run fetch today cats db !! (path +:+ "/nominees")
  = apply_writes db
      (SlugReplace.updateFirebase today (SlugReplace.fetchCategory fetch slug path) path db)
      !! (path +:+ "/nominees").
Proof.
  unfold SlugReplace.run, slug_paths. intros Hnodup Hin.
  rewrite (fold_independent
             (fun c db =>
                let '(slug, path) := c in
                match SlugReplace.fetchCategory fetch slug path with
                | Some nominees =>
                    apply_writes db (SlugReplace.updateFirebase today (Some nominees) path db)
                | None => db
                end)
             (fun c => let '(_, path) := c in path +:+ "/nominees")
             cats db (slug, path) (replace_local fetch today) Hnodup Hin).
  now destruct (SlugReplace.fetchCategory fetch slug path).
Qed.

Lemma bulk_main_independent (db : database) (search path category : string)
    (ws : list write) :
  In (search, path, category) BulkSearch.categories ->
  BulkSearch.updateCategory today (search, path, category)
    (BulkSearch.fetchAllOscarsMarkets fetch) db = Ok ws ->
  snd (BulkSearch.main fetch today db) !! (path +:+ "/nominees")
  = apply_writes db ws !! (path +:+ "/nominees").
Proof.
  intros Hin Hws. unfold BulkSearch.main.
  destruct (BulkSearch.fetchAllOscarsMarkets fetch) as [| m markets] eqn:Emarkets.
  - cbn [length Nat.eqb snd]. cbn in Hws. injection Hws as <-. reflexivity.
  - cbn [length Nat.eqb]. rewrite <- Emarkets in *.
    rewrite bulk_run_fold by (intros m' Hm'; apply (collected_markets fetch m' Hm')).
    rewrite (fold_independent
               (fun c db =>
                  match BulkSearch.updateCategory today c
                          (BulkSearch.fetchAllOscarsMarkets fetch) db with
                  | Ok ws => apply_writes db ws
                  | Throw _ => db
                  end)
               (fun c => let '(_, path, _) := c in path +:+ "/nominees")
               BulkSearch.categories db (search, path, category)
               (bulk_local today (BulkSearch.fetchAllOscarsMarkets fetch))).
    + now rewrite Hws.
    + apply (bool_decide_unpack _). vm_compute. reflexivity.
    + exact Hin.
Qed.

End WholeRuns.

(** X16.  A whole run, of any script and over any list of categories, keeps
    the nominee lists: no path appears or disappears, every list keeps its
    length and order, and every nominee keeps its name and every field but
    the odds of the source of the script and the date; a path that no
    category of the run writes to keeps its value. *)
Theorem whole_run_keeps_nominee_lists :
  forall (P : Platform) (fetch : network) (today : string) (db : database),
    (forall cats,
       run_frame "polymarket" today db (BySlug.run fetch today cats db)
       /\ forall path, ~ In path (named_paths cats) ->
            BySlug.run fetch today cats db !! path = db !! path)
    /\ (forall cats,
       run_frame "kalshi" today db (Kalshi.run fetch today cats db)
       /\ forall path, ~ In path (named_paths cats) ->
            Kalshi.run fetch today cats db !! path = db !! path)
    /\ (forall cats,
       run_frame "polymarket" today db (SlugReplace.run fetch today cats db)
       /\ forall path, ~ In path (slug_paths cats) ->
            SlugReplace.run fetch today cats db !! path = db !! path)
    /\ (forall cats markets,
       run_frame "polymarket" today db (snd (BulkSearch.run today cats markets db))
       /\ forall path, ~ In path (named_paths cats) ->
            snd (BulkSearch.run today cats markets db) !! path = db !! path)
    /\ run_frame "polymarket" today db (snd (BulkSearch.main fetch today db)).
Proof.
  intros P fetch today db. repeat apply conj.
  - intros cats. split; [| intros path; apply by_slug_run_elsewhere].
    apply by_name_frame, by_slug_run_by_name.
  - intros cats. split; [| intros path; apply kalshi_run_elsewhere].
    apply by_name_frame, kalshi_run_by_name.
  - intros cats. split; [| intros path; apply replace_run_elsewhere].
    apply by_name_frame, replace_run_by_name.
  - intros cats markets. split; [| intros path; apply bulk_run_elsewhere].
    apply (by_name_frame "polymarket" today
             (fun db => snd (BulkSearch.run today cats markets db))).
    apply bulk_run_by_name.
  - apply (by_name_frame "polymarket" today (fun db => snd (BulkSearch.main fetch today db))).
    apply bulk_main_by_name.
Qed.

(** X17.  Running a script a second time against the same responses on the
    same day changes nothing: the database after the second run is the
    database after the first. *)
Theorem second_run_changes_nothing :
  forall (P : Platform) (fetch : network) (today : string) (db : database),
    (forall cats,
       BySlug.run fetch today cats (BySlug.run fetch today cats db)
       = BySlug.run fetch today cats db)
    /\ (forall cats,
       Kalshi.run fetch today cats (Kalshi.run fetch today cats db)
       = Kalshi.run fetch today cats db)
    /\ (forall cats,
       SlugReplace.run fetch today cats (SlugReplace.run fetch today cats db)
       = SlugReplace.run fetch today cats db)
    /\ (forall cats markets,
       snd (BulkSearch.run today cats markets (snd (BulkSearch.run today cats markets db)))
       = snd (BulkSearch.run today cats markets db))
    /\ snd (BulkSearch.main fetch today (snd (BulkSearch.main fetch today db)))
       = snd (BulkSearch.main fetch today db).
Proof.
  intros P fetch today db. repeat apply conj.
  - intros cats. apply (by_name_idempotent "polymarket" today), by_slug_run_by_name.
  - intros cats. apply (by_name_idempotent "kalshi" today), kalshi_run_by_name.
  - intros cats. apply (by_name_idempotent "polymarket" today), replace_run_by_name.
  - intros cats markets.
    apply (by_name_idempotent "polymarket" today
             (fun db => snd (BulkSearch.run today cats markets db))).
    apply bulk_run_by_name.
  - apply (by_name_idempotent "polymarket" today
             (fun db => snd (BulkSearch.main fetch today db))).
    apply bulk_main_by_name.
Qed.

(** X18.  The categories of a run do not interfere: when no two of them
    share a storage path, as is the case of the categories each script
    configures, the list a run leaves at the path of a category is the
    list the update of that category alone would leave there. *)
Theorem categories_do_not_interfere :
  forall (P : Platform) (fetch : network) (today : string) (db : database),
    (forall cats slug path name,
       NoDup (named_paths cats) -> In (slug, path, name) cats ->
       BySlug.run fetch today cats db !! (path +:+ "/nominees")
       = apply_writes db (BySlug.updateCategory fetch today slug path name db)
           !! (path +:+ "/nominees"))
    /\ NoDup (named_paths BySlug.categories)
    /\ (forall cats ticker path name,
       NoDup (named_paths cats) -> In (ticker, path, name) cats ->
       Kalshi.run fetch today cats db !! (path +:+ "/nominees")
       = apply_writes db (Kalshi.updateCategory fetch today ticker path name db)
           !! (path +:+ "/nominees"))
    /\ NoDup (named_paths Kalshi.categories)
    /\ (forall cats slug path,
       NoDup (slug_paths cats) -> In (slug, path) cats ->
       SlugReplace.run fetch today cats db !! (path +:+ "/nominees")
       = apply_writes db
           (SlugReplace.updateFirebase today (SlugReplace.fetchCategory fetch slug path) path db)
           !! (path +:+ "/nominees"))
    /\ NoDup (slug_paths SlugReplace.categories)
    /\ (forall search path category ws,
       In (search, path, category) BulkSearch.categories ->
       BulkSearch.updateCategory today (search, path, category)
         (BulkSearch.fetchAllOscarsMarkets fetch) db = Ok ws ->
       snd (BulkSearch.main fetch today db) !! (path +:+ "/nominees")
       = apply_writes db ws !! (path +:+ "/nominees"))
    /\ NoDup (named_paths BulkSearch.categories).
Proof.
  intros P fetch today db. repeat apply conj.
  - intros cats slug path name. apply by_slug_run_independent.
  - apply (bool_decide_unpack _). vm_compute. reflexivity.
  - intros cats ticker path name. apply kalshi_run_independent.
  - apply (bool_decide_unpack _). vm_compute. reflexivity.
  - intros cats slug path. apply replace_run_independent.
  - apply (bool_decide_unpack _). vm_compute. reflexivity.
  - intros search path category ws. apply bulk_main_independent.
  - apply (bool_decide_unpack _). vm_compute. reflexivity.
Qed.

(** X19.  The legacy script never writes: its adapter returns no quote,
    whatever the network answers, so every category update returns before
    it reads the database, and the run ends with status 0 and the database
    as it was. *)
Theorem legacy_script_never_writes :
  forall (P : Platform) (fetch : network) (today : string) (db : database),
    (forall category : string * string,
       SlugLegacy.updateCategory fetch today category db = [])
    /\ (forall cats : list (string * string), SlugLegacy.run fetch today cats db = db)
    /\ SlugLegacy.main fetch today db = (0%Z, db).
Proof.
  intros P fetch today db. split; [| split].
  - intros category. apply legacy_no_write.
  - intros cats. apply legacy_run.
  - unfold SlugLegacy.main. now rewrite legacy_run.
Qed.

(* ================================================================== *)
(** * The order of the quotes of the bulk search *)
(* ================================================================== *)

Section Sorting.

(** The comparison callback is positive exactly when its second argument
    has the greater probability. *)
Lemma behind_spec (x y : Quote.t) :
  probability_of x <> NaN -> probability_of y <> NaN ->
  if positive (VNum (BulkSearch.by_probability x y))
  then descending y x /\ same_probability x y = false
  else descending x y.
Proof.
  unfold BulkSearch.by_probability, descending, same_probability, positive, ToNumber.
  fold (probability_of x). fold (probability_of y).
  destruct (probability_of x) as [a | | |], (probability_of y) as [b | | |];
    intros Hx Hy; try congruence; cbn [sub neg add ge]; try (split; reflexivity);
    try reflexivity.
  destruct (Qle_bool (b + - a) 0) eqn:E; cbn [negb].
  - apply Qle_bool_iff. apply Qle_bool_iff in E.
    apply Qle_minus_iff. apply Qle_minus_iff in E.
    eapply Qle_trans; [exact E |]. apply Qle_lteq. right. ring.
  - assert (Hlt : (a < b)%Q).
    { apply Qnot_le_lt. intros Hle. apply Qle_minus_iff in Hle.
      assert (Hle' : (b + - a <= 0)%Q).
      { apply Qle_minus_iff. eapply Qle_trans; [exact Hle |]. apply Qle_lteq. right. ring. }
      apply Qle_bool_iff in Hle'. congruence. }
    split.
    + apply Qle_bool_iff. now apply Qlt_le_weak.
    + apply andb_false_iff. left.
      destruct (Qle_bool b a) eqn:Eb; [| reflexivity].
      apply Qle_bool_iff in Eb. exfalso. eapply Qlt_not_le; eassumption.
Qed.

Lemma insert_Permutation (x : Quote.t) (l : list Quote.t) :
  Permutation (BulkSearch.insert x l) (x :: l).
Proof.
  induction l as [| y l IH]; cbn [BulkSearch.insert]; [reflexivity |].
  destruct (positive _); [| reflexivity].
  rewrite IH. apply perm_swap.
Qed.

Lemma sort_Permutation (l : list Quote.t) : Permutation (BulkSearch.sort l) l.
Proof.
  induction l as [| x l IH]; [reflexivity |].
  change (BulkSearch.sort (x :: l)) with (BulkSearch.insert x (BulkSearch.sort l)).
  now rewrite insert_Permutation, IH.
Qed.

Lemma insert_HdRel (x y : Quote.t) (l : list Quote.t) :
  descending y x -> HdRel descending y l -> HdRel descending y (BulkSearch.insert x l).
Proof.
  intros Hyx Hl. destruct l as [| z l]; cbn [BulkSearch.insert]; [now constructor |].
  destruct (positive _); constructor; [| exact Hyx]. now inversion Hl.
Qed.

Lemma insert_Sorted (x : Quote.t) (l : list Quote.t) :
  probability_of x <> NaN -> (forall y, In y l -> probability_of y <> NaN) ->
  Sorted descending l -> Sorted descending (BulkSearch.insert x l).
Proof.
  intros Hx Hl Hsorted. induction Hsorted as [| y l Hsorted IH Hhd]; cbn [BulkSearch.insert].
  - repeat constructor.
  - pose proof (behind_spec x y Hx (Hl y (or_introl eq_refl))) as Hxy.
    destruct (positive _).
    + constructor; [apply IH; intros z Hz; apply Hl; now right |].
      apply insert_HdRel; tauto.
    + constructor; [now constructor | now constructor].
Qed.

Lemma sort_Sorted (l : list Quote.t) :
  (forall y, In y l -> probability_of y <> NaN) -> Sorted descending (BulkSearch.sort l).
Proof.
  induction l as [| x l IH]; intros Hl; [constructor |].
  change (BulkSearch.sort (x :: l)) with (BulkSearch.insert x (BulkSearch.sort l)).
  apply insert_Sorted.
  - apply Hl. now left.
  - intros y Hy. apply Hl. right. exact (sort_In y l Hy).
  - apply IH. intros y Hy. apply Hl. now right.
Qed.

(** Quotes of the same probability keep their order. *)
Lemma insert_stable (q x : Quote.t) (l : list Quote.t) :
  probability_of x <> NaN -> (forall y, In y l -> probability_of y <> NaN) ->
  List.filter (same_probability q) (BulkSearch.insert x l)
  = List.filter (same_probability q) (x :: l).
Proof.
  intros Hx Hl. induction l as [| y l IH]; cbn [BulkSearch.insert]; [reflexivity |].
  pose proof (behind_spec x y Hx (Hl y (or_introl eq_refl))) as Hxy.
  destruct (positive _); [| reflexivity].
  cbn [List.filter]. rewrite IH by (intros z Hz; apply Hl; now right). cbn [List.filter].
  destruct (same_probability q y) eqn:Ey, (same_probability q x) eqn:Ex; try reflexivity.
  exfalso. destruct Hxy as [_ Hdiff]. revert Ex Ey Hdiff.
  unfold same_probability.
  destruct (probability_of q) as [c | | |], (probability_of x) as [a | | |],
    (probability_of y) as [b | | |]; cbn [ge andb]; try discriminate.
  rewrite !andb_true_iff, andb_false_iff, !Qle_bool_iff.
  intros [Hac Hca] [Hbc Hcb] [Hn | Hn]; apply not_true_iff_false in Hn; apply Hn;
    apply Qle_bool_iff; eapply Qle_trans; eassumption.
Qed.

Lemma sort_stable (q : Quote.t) (l : list Quote.t) :
  (forall y, In y l -> probability_of y <> NaN) ->
  List.filter (same_probability q) (BulkSearch.sort l) = List.filter (same_probability q) l.
Proof.
  induction l as [| x l IH]; intros Hl; [reflexivity |].
  change (BulkSearch.sort (x :: l)) with (BulkSearch.insert x (BulkSearch.sort l)).
  rewrite insert_stable.
  - cbn [List.filter]. rewrite IH by (intros y Hy; apply Hl; now right). reflexivity.
  - apply Hl. now left.
  - intros y Hy. apply Hl. right. exact (sort_In y l Hy).
Qed.

End Sorting.

(** X20.  The quotes the bulk-search adapter returns for a category are
    those of the markets whose question mentions the category, each market
    read on its own, in another order: when every probability is a number,
    they come in descending order of probability, and quotes of the same
    probability keep the order of their markets. *)
Theorem bulk_quotes_sorted_by_probability :
  forall (P : Platform) (markets : list value) (categorySearch : string)
         (quotes : list Quote.t),
    BulkSearch.extractNominees markets categorySearch = Ok quotes ->
    exists categoryMarkets : list value,
      filterM (BulkSearch.in_category categorySearch) markets = Ok categoryMarkets
      /\ Permutation quotes (bulk_quotes categoryMarkets)
      /\ ((forall q, In q quotes -> probability_of q <> NaN) ->
          Sorted descending quotes
          /\ forall q : Quote.t,
               List.filter (same_probability q) quotes
               = List.filter (same_probability q) (bulk_quotes categoryMarkets)).
Proof.
  intros P markets categorySearch quotes. unfold BulkSearch.extractNominees.
  destruct (filterM _ markets) as [categoryMarkets | e]; cbn [bind]; [| discriminate].
  intros E. exists categoryMarkets. split; [reflexivity |].
  fold (bulk_quotes categoryMarkets) in E.
  assert (Hquotes : quotes = BulkSearch.sort (bulk_quotes categoryMarkets)).
  { destruct categoryMarkets as [| m ms]; cbn [length Nat.eqb] in E; now injection E as <-. }
  subst quotes. split; [apply sort_Permutation |].
  intros Hnum.
  assert (Hall : forall y, In y (bulk_quotes categoryMarkets) -> probability_of y <> NaN).
  { intros y Hy. apply Hnum.
    eapply Permutation_in; [symmetry; apply sort_Permutation | exact Hy]. }
  split; [now apply sort_Sorted | intros q; now apply sort_stable].
Qed.

(* ================================================================== *)
(** * The properties on sample runs *)
(* ================================================================== *)

(** Of the five markets listed, the bulk search keeps the four about the
    Oscars; the first was on the page requested at offset 0. *)
Lemma bulk_search_returns_listed_oscars_markets_witness :
  length (BulkSearch.fetchAllOscarsMarkets listing_network) = 4%nat
  /\ about_oscars
       (Sample.listed "Oscars 2026: Best Picture Winner - Anora" "Anora" "0.2" "0.8")
  /\ exists o : Z,
       In o (BulkSearch.requests listing_network)
       /\ listed_at listing_network o
            (Sample.listed "Oscars 2026: Best Picture Winner - Anora" "Anora" "0.2" "0.8").
Proof.
  split; [vm_compute; reflexivity |].
  apply (proj2 (bulk_search_returns_listed_oscars_markets reference_platform listing_network)).
  vm_compute. now left.
Defined.

(** The three quotes of the category come in descending order of
    probability, Conclave before Wicked as their markets do. *)
Lemma bulk_quotes_sorted_by_probability_witness :
  BulkSearch.extractNominees tied_listing Sample.best_picture
  = Ok [Quote.mk "Conclave" (Some (Fin 0.35)) "+186";
        Quote.mk "Wicked" (Some (Fin 0.35)) "+186";
        Quote.mk "Anora" (Some (Fin 0.2)) "+400"]
  /\ Sorted descending
       [Quote.mk "Conclave" (Some (Fin 0.35)) "+186";
        Quote.mk "Wicked" (Some (Fin 0.35)) "+186";
        Quote.mk "Anora" (Some (Fin 0.2)) "+400"].
Proof.
  assert (E : BulkSearch.extractNominees tied_listing Sample.best_picture
              = Ok [Quote.mk "Conclave" (Some (Fin 0.35)) "+186";
                    Quote.mk "Wicked" (Some (Fin 0.35)) "+186";
                    Quote.mk "Anora" (Some (Fin 0.2)) "+400"])
    by (vm_compute; reflexivity).
  split; [exact E |].
  destruct (bulk_quotes_sorted_by_probability reference_platform _ _ _ E)
    as (categoryMarkets & _ & _ & Hsorted).
  apply Hsorted. intros q [<- | [<- | [<- | []]]]; discriminate.
Defined.

(** A run of the by-slug script over its categories leaves a BAFTA path
    alone. *)
Lemma whole_run_keeps_nominee_lists_witness :
  BySlug.run (Sample.always (Response true (Sample.events [Sample.conclave]))) "2026-03-01"
    BySlug.categories
    {[ "baftas/picture/nominees" := [Sample.stored "Conclave"] ]}
    !! "baftas/picture/nominees"
  = Some [Sample.stored "Conclave"].
Proof.
  rewrite (proj2 (proj1 (whole_run_keeps_nominee_lists reference_platform
                           (Sample.always (Response true (Sample.events [Sample.conclave])))
                           "2026-03-01"
                           {[ "baftas/picture/nominees" := [Sample.stored "Conclave"] ]})
                        BySlug.categories)).
  - apply lookup_singleton_eq.
  - intros Hin. vm_compute in Hin. intuition discriminate.
Defined.

(** In a run of the by-slug script over its categories, the list of Best
    Picture is what the update of Best Picture alone leaves. *)
Lemma categories_do_not_interfere_witness :
  BySlug.run (Sample.always (Response true (Sample.events [Sample.conclave]))) "2026-03-01"
    BySlug.categories
    {[ "oscars/picture/nominees" := [Sample.stored "Conclave"] ]}
    !! "oscars/picture/nominees"
  = Some [with_odds "polymarket" "-150" "2026-03-01" (Sample.stored "Conclave")].
Proof.
  destruct (categories_do_not_interfere reference_platform
              (Sample.always (Response true (Sample.events [Sample.conclave])))
              "2026-03-01"
              {[ "oscars/picture/nominees" := [Sample.stored "Conclave"] ]})
    as (Hrun & Hnodup & _).
  etransitivity.
  - refine (Hrun BySlug.categories "oscars-2026-best-picture-winner" "oscars/picture"
              "Best Picture" Hnodup _).
    cbn. tauto.
  - change ("oscars/picture" +:+ "/nominees") with "oscars/picture/nominees".
    assert (E : BySlug.updateCategory
                  (Sample.always (Response true (Sample.events [Sample.conclave])))
                  "2026-03-01" "oscars-2026-best-picture-winner" "oscars/picture"
                  "Best Picture"
                  {[ "oscars/picture/nominees" := [Sample.stored "Conclave"] ]}
                = [RefUpdate "oscars/picture/nominees"
                     [(0%nat, OddsOf "polymarket", "-150");
                      (0%nat, LastUpdated, "2026-03-01")]])
      by (vm_compute; reflexivity).
    rewrite E. cbn [apply_writes fold_left apply_write].
    rewrite lookup_alter_eq, lookup_singleton_eq. reflexivity.
Defined.

(* ================================================================== *)
(** * Quotes that record their probability *)
(* ================================================================== *)

Section RecordedProbability.
Context `{Platform} (fetch : network).

Lemma bulk_market_backed (market : value) (q : Quote.t) :
  BulkSearch.market_nominee market = Ok (Some q) ->
  backed_by_listing q market /\ consistent q /\ Quote.name q <> "".
Proof.
  unfold BulkSearch.market_nominee.
  destruct (get market "outcomes") as [o | e] eqn:Ho; cbn [bind]; [| discriminate].
  destruct (BulkSearch.parse_if_present o) as [outcomes | e] eqn:Houtcomes; cbn [bind];
    [| discriminate].
  destruct (get market "outcomePrices") as [p | e] eqn:Hp; cbn [bind]; [| discriminate].
  destruct (BulkSearch.parse_if_present p) as [prices | e] eqn:Hprices; cbn [bind];
    [| discriminate].
  destruct (get market "groupItemTitle") as [title | e] eqn:Htitle; cbn [bind];
    [| discriminate].
  destruct (truthy title) eqn:Htruthy.
  - cbn [bind]. rewrite Htruthy.
    destruct (length_of prices) as [n | e]; cbn [bind]; [| discriminate].
    destruct (positive n); [| discriminate].
    destruct (first prices) as [price | e] eqn:Hfirst; cbn [bind]; [| discriminate].
    destruct title as [| | | | t | |]; cbn [String_method bind]; try discriminate.
    destruct (negb _); [| discriminate]. intros [= <-].
    unfold backed_by_listing, consistent. cbn [Quote.name Quote.odds Quote.probability].
    split; [split; [now left | now exists p, prices, price] |].
    split; [now eexists | now apply truthy_string].
  - destruct (length_of outcomes) as [len | e]; cbn [bind]; [| discriminate].
    destruct (positive len).
    + destruct (first outcomes) as [name | e] eqn:Hname; cbn [bind]; [| discriminate].
      destruct (truthy name) eqn:Hnamed; [| discriminate].
      destruct (length_of prices) as [n | e]; cbn [bind]; [| discriminate].
      destruct (positive n); [| discriminate].
      destruct (first prices) as [price | e] eqn:Hfirst; cbn [bind]; [| discriminate].
      destruct name as [| | | | t | |]; cbn [String_method bind]; try discriminate.
      destruct (negb _); [| discriminate]. intros [= <-].
      unfold backed_by_listing, consistent. cbn [Quote.name Quote.odds Quote.probability].
      split; [split; [right; now exists title, o, outcomes | now exists p, prices, price] |].
      split; [now eexists | now apply truthy_string].
    + cbn [bind truthy]. discriminate.
Qed.

Lemma bulk_quotes_backed (markets : list value) (categorySearch : string)
    (quotes : list Quote.t) (q : Quote.t) :
  BulkSearch.extractNominees markets categorySearch = Ok quotes -> In q quotes ->
  exists market : value,
    In market markets
    /\ BulkSearch.in_category categorySearch market = Ok true
    /\ backed_by_listing q market /\ consistent q /\ Quote.name q <> "".
Proof.
  unfold BulkSearch.extractNominees.
  destruct (filterM _ markets) as [categoryMarkets | e] eqn:Hfilter; cbn [bind];
    [| discriminate].
  destruct (length categoryMarkets =? 0)%nat; intros [= <-]; [intros [] |].
  intros Hin. apply sort_In, omap_try_catch_In in Hin as (market & Hin & E).
  destruct (filterM_In _ _ _ _ Hfilter Hin) as [Hlisted Hcategory].
  exists market. split; [exact Hlisted |]. split; [exact Hcategory |].
  now apply bulk_market_backed.
Qed.

Lemma mapM_In {A B} (f : A -> result B) (l : list A) (l' : list B) (y : B) :
  mapM f l = Ok l' -> In y l' -> exists x : A, In x l /\ f x = Ok y.
Proof.
  revert l'. induction l as [| x l IH]; intros l'; cbn [mapM].
  - intros [= <-] [].
  - destruct (f x) as [y0 | e] eqn:Ex; cbn [bind]; [| discriminate].
    destruct (mapM f l) as [ys | e]; cbn [bind]; [| discriminate].
    intros [= <-] [<- | Hin].
    + exists x. split; [now left | exact Ex].
    + destruct (IH ys eq_refl Hin) as (x' & Hx' & Ex'). exists x'. split; [now right | exact Ex'].
Qed.

Lemma replace_quotes_consistent (slug path : string) (quotes : list Quote.t) (q : Quote.t) :
  SlugReplace.fetchCategory fetch slug path = Some quotes -> In q quotes -> consistent q.
Proof.
  unfold SlugReplace.fetchCategory, JSON_parse_or_throw.
  destruct (fetch _) as [| ok body]; cbn [try_catch]; [discriminate |].
  destruct ok; cbn [negb]; [| discriminate].
  destruct (String.eqb (trim body) ""); [discriminate |].
  destruct (JSON_parse (VStr body)) as [data |]; cbn [bind try_catch]; [| discriminate].
  destruct data as [| | | | | [| event rest] |]; cbn [try_catch]; try discriminate.
  destruct (get event "title") as [title | e]; cbn [bind try_catch]; [| discriminate].
  destruct (get event "markets") as [markets | e]; cbn [bind try_catch]; [| discriminate].
  destruct markets as [| | | | | [| m items] |]; cbn [try_catch]; try discriminate.
  destruct (mapM SlugReplace.market_entry (m :: items)) as [entries | e] eqn:Hentries;
    cbn [bind try_catch]; [| discriminate].
  destruct (mapM SlugReplace.kept entries) as [nominees | e] eqn:Hkept;
    cbn [bind try_catch]; [| discriminate].
  intros [= <-] Hq. rewrite <- list_elem_of_In, list_elem_of_omap in Hq.
  destruct Hq as (o & Ho & Eo). cbn in Eo. subst o. apply list_elem_of_In in Ho.
  destruct (mapM_In _ _ _ _ Hkept Ho) as (entry & Hentry & Ekept).
  destruct (mapM_In _ _ _ _ Hentries Hentry) as (market & _ & Emarket).
  unfold SlugReplace.market_entry in Emarket.
  destruct (get market "outcomePrices") as [op | e]; cbn [bind] in Emarket; [| discriminate].
  destruct (JSON_parse_or_throw op) as [prices | e]; cbn [bind] in Emarket; [| discriminate].
  destruct (first prices) as [price | e]; cbn [bind] in Emarket; [| discriminate].
  destruct (get market "groupItemTitle") as [t | e]; cbn [bind] in Emarket; [| discriminate].
  injection Emarket as <-. unfold SlugReplace.kept in Ekept.
  cbn [SlugReplace.name SlugReplace.probability SlugReplace.odds] in Ekept.
  destruct (truthy t); [| discriminate].
  destruct (String_method t) as [s | e]; cbn [bind] in Ekept; [| discriminate].
  destruct (negb _); [| discriminate]. injection Ekept as <-.
  now exists (parseFloat price).
Qed.

End RecordedProbability.

(** X21.  Every quote the bulk search returns for a category is backed by
    a market of the listing whose question mentions the category: its name,
    which is not empty, is the title of the market or, when the title is
    missing or empty, the first outcome; the probability it records is read
    from the first price, and its odds are the conversion of that
    probability.  The quotes of the replace script record a probability and
    the odds converted from it as well. *)
Theorem recorded_probability_gives_the_odds :
  forall (P : Platform),
    (forall (markets : list value) (categorySearch : string) (quotes : list Quote.t)
            (q : Quote.t),
       BulkSearch.extractNominees markets categorySearch = Ok quotes -> In q quotes ->
       exists market : value,
         In market markets
         /\ BulkSearch.in_category categorySearch market = Ok true
         /\ backed_by_listing q market /\ consistent q /\ Quote.name q <> "")
    /\ (forall (fetch : network) (slug path : string) (quotes : list Quote.t) (q : Quote.t),
       SlugReplace.fetchCategory fetch slug path = Some quotes -> In q quotes ->
       consistent q).
Proof.
  intros P. split; [apply bulk_quotes_backed | apply replace_quotes_consistent].
Qed.

Lemma recorded_probability_gives_the_odds_witness :
  consistent (Quote.mk "Anora" (Some (Fin 0.2)) "+400")
  /\ consistent (Quote.mk "Conclave" (Some (Fin 0.6)) "-150").
Proof.
  destruct (recorded_probability_gives_the_odds reference_platform) as [Hbulk Hreplace].
  split.
  - destruct (Hbulk tied_listing Sample.best_picture
                [Quote.mk "Conclave" (Some (Fin 0.35)) "+186";
                 Quote.mk "Wicked" (Some (Fin 0.35)) "+186";
                 Quote.mk "Anora" (Some (Fin 0.2)) "+400"]
                (Quote.mk "Anora" (Some (Fin 0.2)) "+400"))
      as (market & _ & _ & _ & Hconsistent & _).
    + vm_compute. reflexivity.
    + cbn. tauto.
    + exact Hconsistent.
  - apply (Hreplace (Sample.always (Response true
                       (Sample.events [Sample.untitled; Sample.conclave])))
             "oscars-2026-best-picture-winner" "oscars/best-picture"
             [Quote.mk "Conclave" (Some (Fin 0.6)) "-150"]).
    + vm_compute. reflexivity.
    + now left.
Defined.

(* ================================================================== *)
(** * The Polymarket and Kalshi scripts together *)
(* ================================================================== *)

Section TwoSources.
Context (today : string).

Lemma set_by_commute (source1 source2 : string) pick1 pick2 (n : Nominee.t) :
  source1 <> source2 ->
  set_by source1 today pick1 (set_by source2 today pick2 n)
  = set_by source2 today pick2 (set_by source1 today pick1 n).
Proof.
  intros Hne. unfold set_by at 1 3. rewrite !set_by_name. unfold set_by.
  destruct (pick1 (Nominee.name n)) as [o1 |], (pick2 (Nominee.name n)) as [o2 |];
    try reflexivity.
  unfold with_odds. cbn [Nominee.name Nominee.odds Nominee.others].
  now rewrite insert_insert_ne.
Qed.

Lemma by_name_commute (source1 source2 : string) (F G : database -> database)
    (db : database) :
  source1 <> source2 ->
  by_name source1 today F -> by_name source2 today G -> F (G db) = G (F db).
Proof.
  intros Hne [pickF HF] [pickG HG]. apply map_eq. intros path.
  rewrite HF, HG, HG, HF. destruct (db !! path) as [l |]; cbn; [| reflexivity].
  f_equal. rewrite !map_map. apply map_ext. intros n. now apply set_by_commute.
Qed.

End TwoSources.

(** X22.  On the same day the Kalshi script and a Polymarket script can run
    in either order: each sets the odds of its own source and the same
    date, on nominees it picks by name, so the database after both runs
    does not depend on which ran first. *)
Theorem kalshi_and_polymarket_runs_commute :
  forall (P : Platform) (polymarket kalshi : network) (today : string) (db : database),
    (forall cats cats',
       Kalshi.run kalshi today cats' (BySlug.run polymarket today cats db)
       = BySlug.run polymarket today cats (Kalshi.run kalshi today cats' db))
    /\ (forall cats cats',
       Kalshi.run kalshi today cats' (SlugReplace.run polymarket today cats db)
       = SlugReplace.run polymarket today cats (Kalshi.run kalshi today cats' db))
    /\ (forall cats',
       Kalshi.run kalshi today cats' (snd (BulkSearch.main polymarket today db))
       = snd (BulkSearch.main polymarket today (Kalshi.run kalshi today cats' db))).
Proof.
  intros P polymarket kalshi today db. repeat apply conj.
  - intros cats cats'.
    apply (by_name_commute today "kalshi" "polymarket"); [discriminate | |].
    + apply kalshi_run_by_name.
    + apply by_slug_run_by_name.
  - intros cats cats'.
    apply (by_name_commute today "kalshi" "polymarket"); [discriminate | |].
    + apply kalshi_run_by_name.
    + apply replace_run_by_name.
  - intros cats'.
    apply (by_name_commute today "kalshi" "polymarket" _
             (fun db => snd (BulkSearch.main polymarket today db))); [discriminate | |].
    + apply kalshi_run_by_name.
    + apply bulk_main_by_name.
Qed.

(* ================================================================== *)
(** * The order of the markets the bulk search collects *)
(* ================================================================== *)

Section BulkOrder.
Context `{Platform} (fetch : network).

(** A turn of the loop that does not raise appends the Oscars markets of
    its page. *)
Lemma page_appends (offset : Z) (allMarkets all' : list value) :
  BulkSearch.page fetch offset allMarkets = BulkSearch.Break all'
  \/ BulkSearch.page fetch offset allMarkets = BulkSearch.Continue all' ->
  all' = (allMarkets ++ oscars_at fetch offset)%list.
Proof.
  unfold BulkSearch.page, oscars_at.
  destruct (fetch _) as [| ok body]; [intros [E | E]; discriminate |].
  destruct ok; cbn [negb]; [| intros [E | E]; discriminate].
  destruct (JSON_parse (VStr body)) as [data |]; [| intros [E | E]; discriminate].
  assert (Hsame : BulkSearch.Break allMarkets = BulkSearch.Break all'
                  \/ BulkSearch.Break allMarkets = BulkSearch.Continue all' ->
                  all' = (allMarkets ++ [])%list).
  { intros [[= <-] | E]; [now rewrite app_nil_r | discriminate]. }
  destruct data as [| | | | | [| x markets] |]; try exact Hsame.
  destruct (filterM BulkSearch.is_oscars (x :: markets)) as [oscarsMarkets | e];
    [| intros [E | E]; discriminate].
  cbn [try_catch]. destruct (_ <? _)%Z; intros [E | E]; congruence.
Qed.

Lemma paginate_in_order (offset : Z) (allMarkets : list value) :
  forall collected : list value,
    snd (BulkSearch.paginate (BulkSearch.page fetch) offset allMarkets) = Ok collected ->
    collected
    = (allMarkets
       ++ flat_map (oscars_at fetch)
            (fst (BulkSearch.paginate (BulkSearch.page fetch) offset allMarkets)))%list.
Proof.
  funelim (BulkSearch.paginate (BulkSearch.page fetch) offset allMarkets);
    cbn [BulkSearch.logged fst snd flat_map]; intros collected Hcollected.
  - injection Hcollected as <-. rewrite app_nil_r.
    exact (page_appends offset allMarkets _ (or_introl Heq)).
  - discriminate.
  - match goal with
    | IH : forall _ : list value, _ |- _ => rewrite (IH collected Hcollected)
    end.
    rewrite (page_appends offset allMarkets _ (or_intror Heq0)). now rewrite <- app_assoc.
  - injection Hcollected as <-. rewrite app_nil_r.
    exact (page_appends offset allMarkets _ (or_intror Heq0)).
Qed.

End BulkOrder.

(** X23.  When no page of the listing raises an exception, the bulk search
    returns the Oscars markets of the pages it requested, page after page
    and within a page in the order of the listing; a requested page that is
    not an array, or an empty one, contributes nothing, and the markets of
    the pages before it are kept.  When the loop ends with an exception,
    the bulk search returns nothing. *)
Theorem bulk_search_collects_in_order :
  forall (P : Platform) (fetch : network),
    (forall collected : list value,
       snd (BulkSearch.pages fetch) = Ok collected ->
       BulkSearch.fetchAllOscarsMarkets fetch = collected
       /\ collected = flat_map (oscars_at fetch) (BulkSearch.requests fetch))
    /\ (forall e : exn,
          snd (BulkSearch.pages fetch) = Throw e ->
          BulkSearch.fetchAllOscarsMarkets fetch = []).
Proof.
  intros P fetch. unfold BulkSearch.fetchAllOscarsMarkets, BulkSearch.requests. split.
  - intros collected E. rewrite E. split; [reflexivity |].
    exact (paginate_in_order fetch 0 [] collected E).
  - intros e E. now rewrite E.
Qed.

Lemma bulk_search_collects_in_order_witness :
  BulkSearch.fetchAllOscarsMarkets listing_network = firstn 4 tied_listing
  /\ firstn 4 tied_listing
     = flat_map (oscars_at listing_network) (BulkSearch.requests listing_network).
Proof.
  apply (proj1 (bulk_search_collects_in_order reference_platform listing_network)).
  vm_compute. reflexivity.
Defined.

(** Actress Q is a placeholder name for the full pattern, and none for the
    shorter one. *)
Lemma denylist_is_exact_witness :
  In (toLowerCase "Actress Q") placeholder_names
  /\ ~ In (toLowerCase "Actress Q") short_placeholder_names.
Proof.
  destruct denylist_is_exact as [Hfull Hshort]. split.
  - now apply Hfull.
  - intros Hin. apply Hshort in Hin. discriminate Hin.
Defined.

(* ================================================================== *)
(** * Which quote a nominee gets from the bulk search *)
(* ================================================================== *)

Section MostProbable.

Lemma ge_trans (x y z : number) : ge x y = true -> ge y z = true -> ge x z = true.
Proof.
  destruct x as [a | | |], y as [b | | |], z as [c | | |]; cbn [ge]; try discriminate;
    try reflexivity.
  rewrite !Qle_bool_iff. intros Hba Hcb. eapply Qle_trans; eassumption.
Qed.

Lemma ge_refl (x : number) : x <> NaN -> ge x x = true.
Proof.
  destruct x as [a | | |]; cbn [ge]; try reflexivity; [| congruence].
  intros _. apply Qle_bool_iff, Qle_refl.
Qed.

Lemma descending_trans (a b c : Quote.t) : descending a b -> descending b c -> descending a c.
Proof. unfold descending. apply ge_trans. Qed.

(** In a list in descending order, what comes later is no more probable. *)
Lemma Sorted_later (l before after : list Quote.t) (q q' : Quote.t) :
  Sorted descending l -> l = (before ++ q :: after)%list -> In q' after -> descending q q'.
Proof.
  intros Hsorted -> Hin.
  apply Sorted_StronglySorted in Hsorted; [| exact descending_trans].
  induction before as [| x before IH]; cbn [app] in Hsorted.
  - apply StronglySorted_inv in Hsorted as [_ Hall].
    rewrite List.Forall_forall in Hall. now apply Hall.
  - apply IH. now apply StronglySorted_inv in Hsorted as [Hsorted _].
Qed.

Lemma first_match_most_probable (l : list Quote.t) (f : Quote.t -> bool) (q q' : Quote.t) :
  Sorted descending l -> (forall x, In x l -> probability_of x <> NaN) ->
  find f l = Some q -> In q' l -> f q' = true -> descending q q'.
Proof.
  intros Hsorted Hnum Hfind Hin Hq'.
  pose proof (find_first f (fun x => f x = true) l (fun x => iff_refl _)) as Hfirst.
  rewrite Hfind in Hfirst. destruct Hfirst as (before & after & Hl & Hq & Hbefore).
  assert (Hcases : In q' before \/ q' = q \/ In q' after).
  { rewrite Hl in Hin. apply in_app_iff in Hin as [Hin | [<- | Hin]]; auto. }
  destruct Hcases as [Hb | [-> | Ha]].
  - rewrite List.Forall_forall in Hbefore. now elim (Hbefore q' Hb).
  - apply ge_refl, Hnum. rewrite Hl. apply in_app_iff. right. now left.
  - exact (Sorted_later l before after q q' Hsorted Hl Ha).
Qed.

End MostProbable.

(** X24.  When several quotes of the bulk search match a nominee, the most
    probable one wins: the quotes come in descending order of probability
    and the update takes the first that matches, so, when every probability
    is a number, no matching quote is more probable than the quote the
    nominee gets. *)
Theorem bulk_update_takes_most_probable_match :
  forall (P : Platform) (markets : list value) (categorySearch : string)
         (quotes : list Quote.t) (nominee : Nominee.t) (q : Quote.t),
    BulkSearch.extractNominees markets categorySearch = Ok quotes ->
    (forall x, In x quotes -> probability_of x <> NaN) ->
    find (BulkSearch.is_match nominee) quotes = Some q ->
    BulkSearch.is_match nominee q = true
    /\ forall q' : Quote.t,
         In q' quotes -> BulkSearch.is_match nominee q' = true -> descending q q'.
Proof.
  intros P markets categorySearch quotes nominee q E Hnum Hfind.
  split; [now apply find_some in Hfind |].
  intros q' Hin Hq'.
  assert (Hsorted : Sorted descending quotes).
  { revert E. unfold BulkSearch.extractNominees.
    destruct (filterM _ markets) as [categoryMarkets | e]; cbn [bind]; [| discriminate].
    destruct (_ =? _)%nat; intros [= <-]; [constructor |].
    apply sort_Sorted. intros y Hy. apply Hnum.
    eapply Permutation_in; [symmetry; apply sort_Permutation | exact Hy]. }
  exact (first_match_most_probable quotes _ q q' Hsorted Hnum Hfind Hin Hq').
Qed.

(** Anna is stored; Annabelle is listed first, at 0.2, and Anna after it,
    at 0.7: the nominee gets the quote of Anna. *)
Lemma bulk_update_takes_most_probable_match_witness :
  find (BulkSearch.is_match (Sample.stored "Anna"))
       [Quote.mk "Anna" (Some (Fin 0.7)) "-233"; Quote.mk "Annabelle" (Some (Fin 0.2)) "+400"]
  = Some (Quote.mk "Anna" (Some (Fin 0.7)) "-233")
  /\ descending (Quote.mk "Anna" (Some (Fin 0.7)) "-233")
                (Quote.mk "Annabelle" (Some (Fin 0.2)) "+400").
Proof.
  split; [reflexivity |].
  refine (proj2 (bulk_update_takes_most_probable_match reference_platform
                   [Sample.listed "Oscars 2026: Best Actress Winner - Annabelle" "Annabelle"
                      "0.2" "0.8";
                    Sample.listed "Oscars 2026: Best Actress Winner - Anna" "Anna" "0.7" "0.3"]
                   "Oscars 2026: Best Actress Winner"
                   [Quote.mk "Anna" (Some (Fin 0.7)) "-233";
                    Quote.mk "Annabelle" (Some (Fin 0.2)) "+400"]
                   (Sample.stored "Anna") (Quote.mk "Anna" (Some (Fin 0.7)) "-233") _ _ _)
                (Quote.mk "Annabelle" (Some (Fin 0.2)) "+400") _ _).
  - vm_compute. reflexivity.
  - intros x [<- | [<- | []]]; discriminate.
  - reflexivity.
  - cbn. tauto.
  - reflexivity.
Defined.
